(** * AIS_ViewCube: a shallow embedding of src/AIS/AIS_ViewCube.cxx

    The view cube is the interactive orientation widget of the viewer: 26
    pickable parts (6 sides, 12 edges, 8 corners), each standing for one
    [V3d_TypeOfOrientation].  This development embeds the parts of
    AIS_ViewCube.cxx that classify orientations, build the triangulations,
    filter picking rays, validate the round radius, choose the camera up
    vector and drive the camera animation.

    [Standard_Real] is embedded as the real numbers [R]; rounding of the
    machine doubles is outside the model.  The single precision in which
    the array of triangles holds its positions is in the model
    ([RealToShortReal]), for the one place where the program reads
    positions back and branches on them.  Exceptions raised through the
    [*_Raise_if] macros are embedded as [None], or as [Raised] where the
    state an exception leaves behind is of interest. *)

From Stdlib Require Import String.
From Stdlib Require Import Reals Lra Lia List Bool.
Import ListNotations.
Open Scope R_scope.

(** Boolean view of the comparisons of [Standard_Real], as the source's
    [if (a > b)] reads them. *)
Definition Rgtb (a b : R) : bool := if Rgt_dec a b then true else false.
Definition Rltb (a b : R) : bool := if Rlt_dec a b then true else false.
Definition Rleb (a b : R) : bool := if Rle_dec a b then true else false.
Definition Rgeb (a b : R) : bool := if Rge_dec a b then true else false.

(** ** gp: the geometric primitives the view cube uses *)
Module gp.

(** [gp_XYZ]: a coordinate triple. *)
Record gp_XYZ : Type := mkXYZ { cX : R; cY : R; cZ : R }.

(** [gp_Dir], [gp_Pnt] and [gp_Vec] wrap a [gp_XYZ]; a [gp_Dir] is kept
    of unit length by its constructors. *)
Definition gp_Dir := gp_XYZ.
Definition gp_Pnt := gp_XYZ.
Definition gp_Vec := gp_XYZ.

(** [gp_XYZ::Coord (theIndex)], indices 1..3 (the source raises
    [Standard_OutOfRange] on any other index). *)
Definition Coord (v : gp_XYZ) (theIndex : nat) : R :=
  match theIndex with
  | 1%nat => cX v
  | 2%nat => cY v
  | _ => cZ v
  end.

Definition Added (a b : gp_XYZ) : gp_XYZ :=
  mkXYZ (cX a + cX b) (cY a + cY b) (cZ a + cZ b).
Definition Subtracted (a b : gp_XYZ) : gp_XYZ :=
  mkXYZ (cX a - cX b) (cY a - cY b) (cZ a - cZ b).
Definition Multiplied (a : gp_XYZ) (s : R) : gp_XYZ :=
  mkXYZ (cX a * s) (cY a * s) (cZ a * s).
Definition Reversed (a : gp_XYZ) : gp_XYZ :=
  mkXYZ (- cX a) (- cY a) (- cZ a).
Definition Dot (a b : gp_XYZ) : R :=
  cX a * cX b + cY a * cY b + cZ a * cZ b.
Definition Crossed (a b : gp_XYZ) : gp_XYZ :=
  mkXYZ (cY a * cZ b - cZ a * cY b)
        (cZ a * cX b - cX a * cZ b)
        (cX a * cY b - cY a * cX b).
Definition Modulus (a : gp_XYZ) : R :=
  sqrt (cX a * cX a + cY a * cY a + cZ a * cZ a).

(** [gp::Resolution()] is [RealSmall()], the smallest positive normal
    double, 2^-1022. *)
Definition Resolution : R := / IZR (2 ^ 1022).

(** [Precision::Confusion()], [Precision::Angular()] and
    [Precision::Infinite()]. *)
Definition Confusion : R := 1e-7.
Definition Angular : R := 1e-12.
Definition Infinite : R := 2e100.

(** The coordinates [gp_Dir (x, y, z)] stores: the triple divided by its
    norm. *)
Definition normalized (x y z : R) : gp_Dir :=
  let aD := sqrt (x * x + y * y + z * z) in
  mkXYZ (x / aD) (y / aD) (z / aD).

(** [gp_Dir::gp_Dir (x, y, z)]: raises [Standard_ConstructionError] when
    the norm does not exceed [gp::Resolution()]. *)
Definition mkDir (x y z : R) : option gp_Dir :=
  if Rleb (sqrt (x * x + y * y + z * z)) Resolution then None
  else Some (normalized x y z).

Definition DX : gp_Dir := mkXYZ 1 0 0.
Definition DY : gp_Dir := mkXYZ 0 1 0.
Definition DZ : gp_Dir := mkXYZ 0 0 1.
Definition Origin : gp_Pnt := mkXYZ 0 0 0.

(** [gp_XY]: a coordinate pair, here the size of a rectangle. *)
Record gp_XY : Type := mkXY { xyX : R; xyY : R }.

(** [gp_Vec (P1, P2)]: the vector from [P1] to [P2]. *)
Definition Vec_of_points (P1 P2 : gp_Pnt) : gp_Vec := Subtracted P2 P1.

(** Modelled from the spec: [gp_Dir::Angle], declared in gp_Dir.hxx and not
    part of AIS_ViewCube.cxx: the "angular distance" of two unit vectors,
    the angle in [0, PI] whose cosine is their dot product. *)
Definition Dir_Angle (d1 d2 : gp_Dir) : R := acos (Dot d1 d2).

(** Modelled from the spec: [gp_Dir::IsEqual (other, tolerance)], the two
    directions are at an angle within the tolerance. *)
Definition Dir_IsEqual (d1 d2 : gp_Dir) (theTol : R) : bool :=
  Rleb (Dir_Angle d1 d2) theTol.

(** Modelled from the spec: [gp_Vec::Angle], "the angle between the pick
    ray's direction and the projection axis": the angle of the two
    normalised vectors; [gp_VectorWithNullMagnitude] is raised when one of
    them has no length above [gp::Resolution()]. *)
Definition Vec_Angle (v1 v2 : gp_Vec) : option R :=
  if Rleb (Modulus v1) Resolution || Rleb (Modulus v2) Resolution then None
  else Some (Dir_Angle (normalized (cX v1) (cY v1) (cZ v1))
                       (normalized (cX v2) (cY v2) (cZ v2))).

(** Modelled from the spec: [gp_Vec::IsNormal (other, tolerance)], the two
    vectors are perpendicular within the angular tolerance:
    [|PI/2 - Angle (other)| <= tolerance]. *)
Definition Vec_IsNormal (v theOther : gp_Vec) (theTol : R) : option bool :=
  match Vec_Angle v theOther with
  | None => None
  | Some a =>
      let anAng := PI / 2 - a in
      let anAng := if Rltb anAng 0 then - anAng else anAng in
      Some (Rleb anAng theTol)
  end.

(** Modelled from the spec: [gp_Dir::Rotated (axis, angle)], "rotating ...
    around the new view direction": the rotation of [d] by [theAng] about
    the unit axis [k] through the origin,
    [d cos a + (k x d) sin a + k (k . d) (1 - cos a)]. *)
Definition Dir_Rotated (d k : gp_Dir) (theAng : R) : gp_Dir :=
  Added (Added (Multiplied d (cos theAng))
               (Multiplied (Crossed k d) (sin theAng)))
        (Multiplied k (Dot k d * (1 - cos theAng))).

(** [gp_Trsf]: scale factor, 3x3 matrix (by rows) and translation part. *)
Record gp_Trsf : Type := mkTrsf
  { trsfScale : R;
    trsfRow1 : gp_XYZ; trsfRow2 : gp_XYZ; trsfRow3 : gp_XYZ;
    trsfLoc : gp_XYZ }.

(** [gp_Trsf::Transforms]: matrix, then scale, then translation.  The
    shortcuts [gp_Pnt::Transform] takes on the form of the transformation
    compute the same point. *)
Definition Pnt_Transformed (p : gp_Pnt) (T : gp_Trsf) : gp_Pnt :=
  Added (Multiplied (mkXYZ (Dot (trsfRow1 T) p) (Dot (trsfRow2 T) p)
                           (Dot (trsfRow3 T) p))
                    (trsfScale T))
        (trsfLoc T).

(** [gp_Dir::Transformed]: matrix, renormalisation, reversal under a
    negative scale. *)
Definition Dir_Transformed (d : gp_Dir) (T : gp_Trsf) : gp_Dir :=
  let v := normalized (Dot (trsfRow1 T) d) (Dot (trsfRow2 T) d)
                      (Dot (trsfRow3 T) d) in
  if Rltb (trsfScale T) 0 then Reversed v else v.

(** [NCollection_Lerp<Standard_Real>::Interpolate (start, end, t)]. *)
Definition Lerp_Interpolate (theStart theEnd t : R) : R :=
  (1 - t) * theStart + t * theEnd.

End gp.
Import gp.

(** ** Exceptions as [None] *)

Definition bind {A B : Type} (m : option A) (f : A -> option B) : option B :=
  match m with
  | Some a => f a
  | None => None
  end.

Notation "x <- m ;; k" := (bind m (fun x => k))
  (at level 61, m at next level, right associativity).

(** A [for] loop over the values [l] of its counter, threading the state. *)
Fixpoint forM {S : Type} (l : list nat) (body : S -> nat -> option S) (s : S)
  : option S :=
  match l with
  | [] => Some s
  | i :: l' => s' <- body s i ;; forM l' body s'
  end.

(** ** Single precision

    [Graphic3d_ArrayOfTriangles] holds each position as three
    [Standard_ShortReal] (IEEE 754 binary32): [AddVertex (const gp_Pnt&)]
    passes every coordinate through [RealToShortReal] of
    Standard_Real.hxx, and [Vertice] hands the three floats back as
    doubles.  Both are declared outside AIS_ViewCube.cxx. *)

(** The binade of [x <> 0]: [2 ^ (mag x - 1) <= |x| < 2 ^ mag x]. *)
Definition mag (x : R) : Z := (Zfloor (ln (Rabs x) / ln 2) + 1)%Z.

(** The integer nearest to [x], the even one of the two when [x] lies half
    way. *)
Definition nearestEven (x : R) : Z :=
  let f := Zfloor x in
  if Rltb (x - IZR f) (/ 2) then f
  else if Rgtb (x - IZR f) (/ 2) then (f + 1)%Z
  else if Z.even f then f else (f + 1)%Z.

(** Rounding to binary32: 24 bits of precision, no exponent below -149
    (the subnormal numbers), to the nearest value and to the even one on
    a tie. *)
Definition roundBinary32 (x : R) : R :=
  let e := Z.max (mag x - 24) (-149) in
  IZR (nearestEven (x * powerRZ 2 (- e))) * powerRZ 2 e.

(** The conversion [(Standard_ShortReal) theVal] of a double within the
    range of the singles, in the default rounding mode; the format has a
    sign bit, so the conversion rounds the absolute value. *)
Definition ShortReal (theVal : R) : R :=
  if Rltb theVal 0 then - roundBinary32 (- theVal)
  else roundBinary32 theVal.

(** The largest single, [(2 ^ 24 - 1) * 2 ^ 104]. *)
Definition FLT_MAX : R := IZR ((2 ^ 24 - 1) * 2 ^ 104).

(** [RealToShortReal]: the value is clamped to the range of the singles
    and converted. *)
Definition RealToShortReal (theVal : R) : R :=
  if Rltb theVal (- FLT_MAX) then - FLT_MAX
  else if Rgtb theVal FLT_MAX then FLT_MAX
  else ShortReal theVal.

(** A point as the array holds it. *)
Definition ShortPnt (p : gp_Pnt) : gp_Pnt :=
  mkXYZ (RealToShortReal (cX p)) (RealToShortReal (cY p))
    (RealToShortReal (cZ p)).

(** ** Graphic3d: the array of triangles *)
Module Graphic3d.

(** One vertex of the array: position and, once set, normal. *)
Record Vertex : Type := mkVertex { vPos : gp_Pnt; vNorm : option gp_Dir }.

(** [Graphic3d_ArrayOfTriangles (maxVertexs, maxEdges, flags)]: the
    vertices added so far, the edges (1-based vertex indices, three per
    triangle) added so far, and the two capacities. *)
Record Graphic3d_ArrayOfTriangles : Type := mkArray
  { maxVertexs : nat; maxEdges : nat;
    vertices : list Vertex; edges : list nat }.

Definition newArray (theMaxVertexs theMaxEdges : nat)
  : Graphic3d_ArrayOfTriangles :=
  mkArray theMaxVertexs theMaxEdges [] [].

Definition VertexNumber (a : Graphic3d_ArrayOfTriangles) : nat :=
  length (vertices a).
Definition EdgeNumber (a : Graphic3d_ArrayOfTriangles) : nat :=
  length (edges a).

(** [AddVertex]: raises [Standard_OutOfRange] when the array is full.
    The record keeps the point as the caller handed it over, in double
    precision, so that what a builder computed can be stated exactly; the
    array itself holds [ShortPnt] of it, which is what a later read
    receives ([StoredVertice]). *)
Definition AddVertex (a : Graphic3d_ArrayOfTriangles) (p : gp_Pnt)
  : option Graphic3d_ArrayOfTriangles :=
  if (VertexNumber a <? maxVertexs a)%nat
  then Some (mkArray (maxVertexs a) (maxEdges a)
               (vertices a ++ [mkVertex p None]) (edges a))
  else None.

(** [AddEdge]: raises [Standard_OutOfRange] when the edges are full or
    the index names no vertex added so far. *)
Definition AddEdge (a : Graphic3d_ArrayOfTriangles) (theVertexIndex : nat)
  : option Graphic3d_ArrayOfTriangles :=
  if ((EdgeNumber a <? maxEdges a) && (1 <=? theVertexIndex)
      && (theVertexIndex <=? VertexNumber a))%nat
  then Some (mkArray (maxVertexs a) (maxEdges a)
               (vertices a) (edges a ++ [theVertexIndex]))
  else None.

Definition AddEdges (a : Graphic3d_ArrayOfTriangles) (i1 i2 i3 : nat)
  : option Graphic3d_ArrayOfTriangles :=
  a <- AddEdge a i1 ;; a <- AddEdge a i2 ;; AddEdge a i3.

(** [Vertice (theRank)], ranks from 1. *)
Definition Vertice (a : Graphic3d_ArrayOfTriangles) (theRank : nat)
  : option gp_Pnt :=
  match theRank with
  | O => None
  | S n => option_map vPos (nth_error (vertices a) n)
  end.

(** What the call [Vertice (theRank)] gives the program: the position the
    array holds at that rank, in single precision.  [Vertice] above names
    the point that was handed to [AddVertex] at that rank. *)
Definition StoredVertice (a : Graphic3d_ArrayOfTriangles) (theRank : nat)
  : option gp_Pnt :=
  option_map ShortPnt (Vertice a theRank).

Fixpoint setNormalAt (l : list Vertex) (n : nat) (theNormal : gp_Dir)
  : option (list Vertex) :=
  match l, n with
  | [], _ => None
  | v :: l', O => Some (mkVertex (vPos v) (Some theNormal) :: l')
  | v :: l', S n' => option_map (cons v) (setNormalAt l' n' theNormal)
  end.

(** [SetVertexNormal (theIndex, theNormal)], indices from 1. *)
Definition SetVertexNormal (a : Graphic3d_ArrayOfTriangles) (theIndex : nat)
  (theNormal : gp_Dir) : option Graphic3d_ArrayOfTriangles :=
  match theIndex with
  | O => None
  | S n =>
      vs <- setNormalAt (vertices a) n theNormal ;;
      Some (mkArray (maxVertexs a) (maxEdges a) vs (edges a))
  end.

(** The triangles of the array: its edges read three by three. *)
Fixpoint triangles (l : list nat) : list (nat * nat * nat) :=
  match l with
  | i1 :: i2 :: i3 :: l' => (i1, i2, i3) :: triangles l'
  | _ => []
  end.

End Graphic3d.
Import Graphic3d.

(** ** V3d: the 26 orientations and their projection axes *)
Module V3d.

(** [V3d_TypeOfOrientation], in the order of the enumeration; the source
    iterates it from 0 to [V3d_XnegYnegZneg]. *)
Inductive V3d_TypeOfOrientation : Type :=
| V3d_Xpos | V3d_Ypos | V3d_Zpos | V3d_Xneg | V3d_Yneg | V3d_Zneg
| V3d_XposYpos | V3d_XposZpos | V3d_YposZpos
| V3d_XnegYneg | V3d_XnegYpos | V3d_XnegZneg
| V3d_XnegZpos | V3d_YnegZneg | V3d_YnegZpos
| V3d_XposYneg | V3d_XposZneg | V3d_YposZneg
| V3d_XposYposZpos | V3d_XposYnegZpos | V3d_XposYposZneg
| V3d_XnegYposZpos | V3d_XposYnegZneg | V3d_XnegYposZneg
| V3d_XnegYnegZpos | V3d_XnegYnegZneg.

(** The values [0 .. V3d_XnegYnegZneg] the loops of [Compute] and
    [ComputeSelection] run through. *)
Definition allOrientations : list V3d_TypeOfOrientation :=
  [ V3d_Xpos; V3d_Ypos; V3d_Zpos; V3d_Xneg; V3d_Yneg; V3d_Zneg;
    V3d_XposYpos; V3d_XposZpos; V3d_YposZpos;
    V3d_XnegYneg; V3d_XnegYpos; V3d_XnegZneg;
    V3d_XnegZpos; V3d_YnegZneg; V3d_YnegZpos;
    V3d_XposYneg; V3d_XposZneg; V3d_YposZneg;
    V3d_XposYposZpos; V3d_XposYnegZpos; V3d_XposYposZneg;
    V3d_XnegYposZpos; V3d_XposYnegZneg; V3d_XnegYposZneg;
    V3d_XnegYnegZpos; V3d_XnegYnegZneg ].

(** Modelled from the spec: the table of [V3d::GetProjAxis], which is
    declared in V3d.hxx and not part of AIS_ViewCube.cxx.  A direction is
    "one of 26 unit vectors along combinations of {-1,0,1}^3 minus the
    zero vector", the signs being those the tag names. *)
Definition projSigns (theOrientation : V3d_TypeOfOrientation) : R * R * R :=
  match theOrientation with
  | V3d_Xpos => (1, 0, 0)
  | V3d_Ypos => (0, 1, 0)
  | V3d_Zpos => (0, 0, 1)
  | V3d_Xneg => (-1, 0, 0)
  | V3d_Yneg => (0, -1, 0)
  | V3d_Zneg => (0, 0, -1)
  | V3d_XposYpos => (1, 1, 0)
  | V3d_XposZpos => (1, 0, 1)
  | V3d_YposZpos => (0, 1, 1)
  | V3d_XnegYneg => (-1, -1, 0)
  | V3d_XnegYpos => (-1, 1, 0)
  | V3d_XnegZneg => (-1, 0, -1)
  | V3d_XnegZpos => (-1, 0, 1)
  | V3d_YnegZneg => (0, -1, -1)
  | V3d_YnegZpos => (0, -1, 1)
  | V3d_XposYneg => (1, -1, 0)
  | V3d_XposZneg => (1, 0, -1)
  | V3d_YposZneg => (0, 1, -1)
  | V3d_XposYposZpos => (1, 1, 1)
  | V3d_XposYnegZpos => (1, -1, 1)
  | V3d_XposYposZneg => (1, 1, -1)
  | V3d_XnegYposZpos => (-1, 1, 1)
  | V3d_XposYnegZneg => (1, -1, -1)
  | V3d_XnegYposZneg => (-1, 1, -1)
  | V3d_XnegYnegZpos => (-1, -1, 1)
  | V3d_XnegYnegZneg => (-1, -1, -1)
  end.

(** [V3d::GetProjAxis]: the unit vector along the signs of the tag. *)
Definition GetProjAxis (theOrientation : V3d_TypeOfOrientation) : gp_Dir :=
  let '(x, y, z) := projSigns theOrientation in normalized x y z.

End V3d.
Import V3d.

(** ** The classification of orientations *)

(** [nbDirectionComponents]: the number of non-zero components, the loop
    over [aCompIter = 1 .. 3] with its counter [aNbComps]. *)
Definition nbDirectionComponents (theDir : gp_Dir) : nat :=
  fold_left
    (fun aNbComps aCompIter =>
       if Rgtb (Rabs (Coord theDir aCompIter)) Resolution
       then S aNbComps else aNbComps)
    (seq 1 3) 0%nat.

Definition IsBoxSide (theOrient : V3d_TypeOfOrientation) : bool :=
  Nat.eqb (nbDirectionComponents (GetProjAxis theOrient)) 1.
Definition IsBoxEdge (theOrient : V3d_TypeOfOrientation) : bool :=
  Nat.eqb (nbDirectionComponents (GetProjAxis theOrient)) 2.
Definition IsBoxCorner (theOrient : V3d_TypeOfOrientation) : bool :=
  Nat.eqb (nbDirectionComponents (GetProjAxis theOrient)) 3.

(** The three predicates read together: the part of the box an orientation
    stands for (the spec's Side / Edge / Corner). *)
Inductive BoxPart : Type := Side | Edge | Corner.

Definition Classify (theOrient : V3d_TypeOfOrientation) : option BoxPart :=
  if IsBoxSide theOrient then Some Side
  else if IsBoxEdge theOrient then Some Edge
  else if IsBoxCorner theOrient then Some Corner
  else None.

(** ** The camera, the view and the camera animation *)

(** [Graphic3d_Camera], the pose of the spec: eye, centre, view direction,
    up vector and scale. *)
Record Graphic3d_Camera : Type := mkCamera
  { Eye : gp_Pnt; Center : gp_Pnt; Direction : gp_Dir; Up : gp_Dir;
    Scale : R }.

Definition SetUp (theUp : gp_Dir) (c : Graphic3d_Camera) : Graphic3d_Camera :=
  mkCamera (Eye c) (Center c) (Direction c) theUp (Scale c).

(** [V3d_View], as far as the view cube reads and writes it. *)
Record V3d_View : Type := mkView
  { Camera : Graphic3d_Camera; ImmediateUpdate : bool; IsInvalidated : bool }.

(** [Bnd_Box]: void, or the two corners of the box. *)
Definition Bnd_Box : Type := option (gp_Pnt * gp_Pnt).
Definition IsVoid (b : Bnd_Box) : bool :=
  match b with None => true | Some _ => false end.

(** [AIS_InteractiveContext], as far as the view cube reads it. *)
Record AIS_InteractiveContext : Type := mkContext
  { LastActiveView : option V3d_View; BoundingBoxOfSelection : Bnd_Box }.

Inductive AnimationState : Type :=
| AnimState_Started | AnimState_Paused | AnimState_Stopped.

(** Modelled from the spec: [AIS_AnimationCamera], declared in
    AIS_AnimationCamera.hxx and AIS_Animation.hxx and not part of
    AIS_ViewCube.cxx: the session of the spec, with the view it drives
    (a null handle is [None]), the start and end poses and the duration.
    The elapsed time is read from its timer at every tick; interpolating
    the camera on [UpdateTimer] leaves the state of the session as it
    is. *)
Record AIS_AnimationCamera : Type := mkAnimation
  { animState : AnimationState;
    View : option V3d_View;
    CameraStart : option Graphic3d_Camera;
    CameraEnd : option Graphic3d_Camera;
    OwnDuration : R }.

Definition IsStopped (a : AIS_AnimationCamera) : bool :=
  match animState a with AnimState_Stopped => true | _ => false end.
Definition Stop (a : AIS_AnimationCamera) : AIS_AnimationCamera :=
  mkAnimation AnimState_Stopped (View a) (CameraStart a) (CameraEnd a)
    (OwnDuration a).
Definition SetView (v : option V3d_View) (a : AIS_AnimationCamera)
  : AIS_AnimationCamera :=
  mkAnimation (animState a) v (CameraStart a) (CameraEnd a) (OwnDuration a).
Definition SetCameraStart (c : Graphic3d_Camera) (a : AIS_AnimationCamera)
  : AIS_AnimationCamera :=
  mkAnimation (animState a) (View a) (Some c) (CameraEnd a) (OwnDuration a).
Definition SetCameraEnd (c : Graphic3d_Camera) (a : AIS_AnimationCamera)
  : AIS_AnimationCamera :=
  mkAnimation (animState a) (View a) (CameraStart a) (Some c) (OwnDuration a).
Definition SetOwnDuration (d : R) (a : AIS_AnimationCamera)
  : AIS_AnimationCamera :=
  mkAnimation (animState a) (View a) (CameraStart a) (CameraEnd a) d.
(** [StartTimer (0.0, 1.0, true, false)]: the timer is rewound and the
    animation started. *)
Definition StartTimer (a : AIS_AnimationCamera) : AIS_AnimationCamera :=
  mkAnimation AnimState_Started (View a) (CameraStart a) (CameraEnd a)
    (OwnDuration a).

(** ** Owners and the selecting volume *)

(** [AIS_ViewCubeOwner]: the owner of one part of the cube. *)
Record AIS_ViewCubeOwner : Type := mkOwner
  { MainOrientation : V3d_TypeOfOrientation }.

(** [SelectMgr_EntityOwner] and its subclass, as [dynamic_cast] tells
    them apart. *)
Inductive SelectMgr_EntityOwner : Type :=
| OtherOwner : SelectMgr_EntityOwner
| CubeOwner : AIS_ViewCubeOwner -> SelectMgr_EntityOwner.

Definition dynamic_cast_ViewCubeOwner (o : option SelectMgr_EntityOwner)
  : option AIS_ViewCubeOwner :=
  match o with
  | Some (CubeOwner c) => Some c
  | _ => None
  end.

Inductive SelectionType : Type := Point | Box | Polyline | Unknown.

(** [SelectBasics_SelectingVolumeManager], as far as [isValidRay] reads
    it. *)
Record SelectingVolumeManager : Type := mkManager
  { GetActiveSelectionType : SelectionType;
    GetNearPickedPnt : gp_Pnt;
    GetFarPickedPnt : gp_Pnt }.

Definition isPoint (t : SelectionType) : bool :=
  match t with Point => true | _ => false end.

(** ** The view cube *)

Definition THE_NB_ROUND_SPLITS : nat := 8.
Definition THE_NB_DISK_SLICES : nat := 20.

(** The calls the widget makes on its subclass hooks and on the view, in
    the order they are made. *)
Inductive Event : Type :=
| onAnimationFinished | onAfterAnimation | Redraw | RedrawImmediate.

(** The members of [AIS_ViewCube]; [myToUpdate] is the flag [SetToUpdate]
    raises, [myEvents] the record of the calls of [Event]. *)
Record AIS_ViewCube : Type := mkViewCube
  { mySize : R;
    myBoxEdgeMinSize : R;
    myBoxEdgeGap : R;
    myBoxFacetExtension : R;
    myAxesPadding : R;
    myCornerMinSize : R;
    myRoundRadius : R;
    myToDisplayAxes : bool;
    myToDisplayEdges : bool;
    myToDisplayVertices : bool;
    myIsYup : bool;
    myViewAnimation : AIS_AnimationCamera;
    myStartState : Graphic3d_Camera;
    myEndState : Graphic3d_Camera;
    myDuration : R;
    myToAutoStartAnim : bool;
    myIsFixedAnimation : bool;
    myToFitSelected : bool;
    myToResetCameraUp : bool;
    myToUpdate : bool;
    myEvents : list Event }.

Definition set_myRoundRadius (v : R) (self : AIS_ViewCube) : AIS_ViewCube :=
  mkViewCube (mySize self) (myBoxEdgeMinSize self) (myBoxEdgeGap self)
    (myBoxFacetExtension self) (myAxesPadding self) (myCornerMinSize self) v
    (myToDisplayAxes self) (myToDisplayEdges self) (myToDisplayVertices self)
    (myIsYup self) (myViewAnimation self) (myStartState self)
    (myEndState     self) (myDuration self) (myToAutoStartAnim self)
    (myIsFixedAnimation self) (myToFitSelected self) (myToResetCameraUp self)
    (myToUpdate self) (myEvents self).
Definition set_myViewAnimation (v : AIS_AnimationCamera)
  (self : AIS_ViewCube) : AIS_ViewCube :=
  mkViewCube (mySize self) (myBoxEdgeMinSize self) (myBoxEdgeGap self)
    (myBoxFacetExtension self) (myAxesPadding self) (myCornerMinSize self)
    (myRoundRadius self) (myToDisplayAxes self) (myToDisplayEdges self)
    (myToDisplayVertices self) (myIsYup self) v (myStartState self)
    (myEndState self) (myDuration self) (myToAutoStartAnim self)
    (myIsFixedAnimation self) (myToFitSelected self) (myToResetCameraUp self)
    (myToUpdate self) (myEvents self).
Definition set_myStartState (v : Graphic3d_Camera)
  (self : AIS_ViewCube) : AIS_ViewCube :=
  mkViewCube (mySize self) (myBoxEdgeMinSize self) (myBoxEdgeGap self)
    (myBoxFacetExtension self) (myAxesPadding self) (myCornerMinSize self)
    (myRoundRadius self) (myToDisplayAxes self) (myToDisplayEdges self)
    (myToDisplayVertices self) (myIsYup self) (myViewAnimation self) v
    (myEndState self) (myDuration self) (myToAutoStartAnim self)
    (myIsFixedAnimation self) (myToFitSelected self) (myToResetCameraUp self)
    (myToUpdate self) (myEvents self).
Definition set_myEndState (v : Graphic3d_Camera)
  (self : AIS_ViewCube) : AIS_ViewCube :=
  mkViewCube (mySize self) (myBoxEdgeMinSize self) (myBoxEdgeGap self)
    (myBoxFacetExtension self) (myAxesPadding self) (myCornerMinSize self)
    (myRoundRadius self) (myToDisplayAxes self) (myToDisplayEdges self)
    (myToDisplayVertices self) (myIsYup self) (myViewAnimation self)
    (myStartState self) v (myDuration self) (myToAutoStartAnim self)
    (myIsFixedAnimation self) (myToFitSelected self) (myToResetCameraUp self)
    (myToUpdate self) (myEvents self).
Definition set_myToUpdate (v : bool) (self : AIS_ViewCube) : AIS_ViewCube :=
  mkViewCube (mySize self) (myBoxEdgeMinSize self) (myBoxEdgeGap self)
    (myBoxFacetExtension self) (myAxesPadding self) (myCornerMinSize self)
    (myRoundRadius self) (myToDisplayAxes self) (myToDisplayEdges self)
    (myToDisplayVertices self) (myIsYup self) (myViewAnimation self)
    (myStartState self) (myEndState self) (myDuration self)
    (myToAutoStartAnim     self) (myIsFixedAnimation self)
    (myToFitSelected self) (myToResetCameraUp     self) v (myEvents self).
Definition set_myEvents (v : list Event)
  (self : AIS_ViewCube) : AIS_ViewCube :=
  mkViewCube (mySize self) (myBoxEdgeMinSize self) (myBoxEdgeGap self)
    (myBoxFacetExtension self) (myAxesPadding self) (myCornerMinSize self)
    (myRoundRadius self) (myToDisplayAxes self) (myToDisplayEdges self)
    (myToDisplayVertices self) (myIsYup self) (myViewAnimation self)
    (myStartState self) (myEndState self) (myDuration self)
    (myToAutoStartAnim     self) (myIsFixedAnimation self)
    (myToFitSelected self) (myToResetCameraUp     self) (myToUpdate self) v.

Definition SetToUpdate (self : AIS_ViewCube) : AIS_ViewCube :=
  set_myToUpdate true self.
Definition emit (e : Event) (self : AIS_ViewCube) : AIS_ViewCube :=
  set_myEvents (myEvents self ++ [e]) self.

(** The members as [AIS_ViewCube::AIS_ViewCube()] leaves them, with the
    sizes [SetSize (70.0)] adapts; [theCamera] is the state of a
    [new Graphic3d_Camera()]. *)
Definition newViewCube (theCamera : Graphic3d_Camera) : AIS_ViewCube :=
  mkViewCube 70 2 0 (70 * 0.15) (70 * 0.1) 2 0 true true true false
    (mkAnimation AnimState_Stopped None None None 0)
    theCamera theCamera 0.5 true true true false true [].

(** *** SetRoundRadius *)

(** A call that either raises an exception, leaving the object in the
    state reached so far, or returns. *)
Inductive Outcome : Type :=
| Raised : string -> AIS_ViewCube -> Outcome
| Returned : AIS_ViewCube -> Outcome.

Definition stateOf (o : Outcome) : AIS_ViewCube :=
  match o with Raised _ self => self | Returned self => self end.

(** [AIS_ViewCube::SetRoundRadius], with [Standard_OutOfRange_Raise_if]
    raising. *)
Definition SetRoundRadius (theValue : R) (self : AIS_ViewCube) : Outcome :=
  if Rltb theValue 0.0 || Rgtb theValue 0.5
  then Raised
         "AIS_ViewCube::SetRoundRadius(): theValue should be in [0; 0.5]"
         self
  else if Rgtb (Rabs (myRoundRadius self - theValue)) Confusion
       then Returned (SetToUpdate (set_myRoundRadius theValue self))
       else Returned self.

(** *** createRoundRectangleTriangles *)

(** The first two lines of the builder: the effective radius [aRadius] and
    the half sizes [aHSize] every vertex is computed from. *)
Definition roundRadiusOf (theSize : gp_XY) (theRadius : R) : R :=
  Rmin theRadius (Rmin (xyX theSize) (xyY theSize) * 0.5).
Definition halfSizeOf (theSize : gp_XY) (theRadius : R) : gp_XY :=
  let aRadius := roundRadiusOf theSize theRadius in
  mkXY (xyX theSize * 0.5 - aRadius) (xyY theSize * 0.5 - aRadius).

(** One of the four loops over [aNodeIter = 0 .. THE_NB_ROUND_SPLITS]: the
    quarter arc of radius [aRadius] about [(cx, cy)], from the angle
    [theStart] to the angle [theEnd]. *)
Definition arcPoint (cx cy aRadius theStart theEnd : R) (aNodeIter : nat)
  : gp_Pnt :=
  let anAngle :=
    Lerp_Interpolate theStart theEnd
      (INR aNodeIter / INR THE_NB_ROUND_SPLITS) in
  mkXYZ (cx + aRadius * cos anAngle) (cy + aRadius * sin anAngle) 0.0.

Definition addArc (cx cy aRadius theStart theEnd : R) (theTrsf : gp_Trsf)
  (aTris : Graphic3d_ArrayOfTriangles) : option Graphic3d_ArrayOfTriangles :=
  forM (seq 0 (THE_NB_ROUND_SPLITS + 1))
    (fun aTris aNodeIter =>
       AddVertex aTris
         (Pnt_Transformed (arcPoint cx cy aRadius theStart theEnd aNodeIter)
            theTrsf))
    aTris.

(** The loop "split triangle fan". *)
Definition addFan (aTris : Graphic3d_ArrayOfTriangles)
  : option Graphic3d_ArrayOfTriangles :=
  forM (seq 2 (VertexNumber aTris - 1))
    (fun aTris aNodeIter =>
       aTris <- AddEdge aTris 1 ;;
       aTris <- AddEdge aTris (aNodeIter - 1) ;;
       AddEdge aTris aNodeIter)
    aTris.

(** The closing loop, which gives every vertex the normal [theNormal]. *)
Definition setNormals (theNormal : gp_Dir)
  (aTris : Graphic3d_ArrayOfTriangles) : option Graphic3d_ArrayOfTriangles :=
  forM (seq 1 (VertexNumber aTris))
    (fun aTris aVertIter => SetVertexNormal aTris aVertIter theNormal)
    aTris.

Definition createRoundRectangleTriangles (theSize : gp_XY) (theRadius : R)
  (theTrsf : gp_Trsf) : option Graphic3d_ArrayOfTriangles :=
  let aRadius := roundRadiusOf theSize theRadius in
  let aHSize := halfSizeOf theSize theRadius in
  let aNorm := Dir_Transformed DZ theTrsf in
  aTris <-
    (if Rgtb aRadius 0.0 then
       let aNbNodes := ((THE_NB_ROUND_SPLITS + 1) * 4 + 1)%nat in
       let aTris := newArray aNbNodes (aNbNodes * 3) in
       aTris <- AddVertex aTris (Pnt_Transformed (mkXYZ 0.0 0.0 0.0) theTrsf) ;;
       aTris <- addArc (xyX aHSize) (xyY aHSize) aRadius
                  (PI * 0.5) 0.0 theTrsf aTris ;;
       aTris <- addArc (xyX aHSize) (- xyY aHSize) aRadius
                  0.0 (- PI * 0.5) theTrsf aTris ;;
       aTris <- addArc (- xyX aHSize) (- xyY aHSize) aRadius
                  (- PI * 0.5) (- PI) theTrsf aTris ;;
       aTris <- addArc (- xyX aHSize) (xyY aHSize) aRadius
                  (- PI) (- PI * 1.5) theTrsf aTris ;;
       aTris <- addFan aTris ;;
       aTris <- AddEdge aTris 1 ;;
       aTris <- AddEdge aTris (VertexNumber aTris) ;;
       AddEdge aTris 2
     else
       let aTris := newArray 4 6 in
       aTris <- AddVertex aTris
                  (Pnt_Transformed
                     (mkXYZ (- xyX aHSize) (- xyY aHSize) 0.0) theTrsf) ;;
       aTris <- AddVertex aTris
                  (Pnt_Transformed
                     (mkXYZ (- xyX aHSize) (xyY aHSize) 0.0) theTrsf) ;;
       aTris <- AddVertex aTris
                  (Pnt_Transformed
                     (mkXYZ (xyX aHSize) (xyY aHSize) 0.0) theTrsf) ;;
       aTris <- AddVertex aTris
                  (Pnt_Transformed
                     (mkXYZ (xyX aHSize) (- xyY aHSize) 0.0) theTrsf) ;;
       aTris <- AddEdges aTris 3 1 2 ;;
       AddEdges aTris 1 3 4) ;;
  setNormals (Reversed aNorm) aTris.

(** *** createBoxCornerTriangles *)

Section Corner.

(** The rounded corner is a disk built by [Prs3d_ToolDisk::Create] in the
    placement [gp_Ax2 (aPos, aDir.Reversed())] gives; both are declared
    outside AIS_ViewCube.cxx. *)
Variable placement : gp_Pnt -> gp_Dir -> gp_Trsf.
Variable Prs3d_ToolDisk_Create :
  R -> R -> nat -> nat -> gp_Trsf -> Graphic3d_ArrayOfTriangles.

Definition createBoxCornerTriangles (self : AIS_ViewCube)
  (theDir : V3d_TypeOfOrientation) : option Graphic3d_ArrayOfTriangles :=
  let aHSize := mySize self * 0.5 in
  let aDir := GetProjAxis theDir in
  let aHSizeDir := Multiplied aDir (aHSize * Modulus (mkXYZ 1.0 1.0 1.0)) in
  if Rgtb (myRoundRadius self) 0.0 then
    let anEdgeHWidth :=
      myBoxFacetExtension self * sqrt (1.0 * 1.0 + 1.0 * 1.0) * 0.5 in
    let aHeight := anEdgeHWidth * sqrt (2.0 / 3.0) in
    let aPos :=
      Multiplied aDir (aHSize * Modulus (mkXYZ 1.0 1.0 1.0) + aHeight) in
    let aTrsf := placement aPos (Reversed aDir) in
    let aRadius :=
      Rmax (myBoxFacetExtension self * 0.5 / cos (PI / 4))
           (myCornerMinSize self) in
    Some (Prs3d_ToolDisk_Create 0.0 aRadius THE_NB_DISK_SLICES 1 aTrsf)
  else
    let aTris := newArray 3 3 in
    d1 <- mkDir (cX aDir) 0.0 0.0 ;;
    aTris <- AddVertex aTris
               (Added aHSizeDir (Multiplied d1 (myBoxFacetExtension self))) ;;
    d2 <- mkDir 0.0 (cY aDir) 0.0 ;;
    aTris <- AddVertex aTris
               (Added aHSizeDir (Multiplied d2 (myBoxFacetExtension self))) ;;
    d3 <- mkDir 0.0 0.0 (cZ aDir) ;;
    aTris <- AddVertex aTris
               (Added aHSizeDir (Multiplied d3 (myBoxFacetExtension self))) ;;
    aNode1 <- StoredVertice aTris 1 ;;
    aNode2 <- StoredVertice aTris 2 ;;
    aNode3 <- StoredVertice aTris 3 ;;
    let aNormTri :=
      Crossed (Subtracted aNode2 aNode1) (Subtracted aNode3 aNode1) in
    aTris <- (if Rltb (Dot aNormTri aDir) 0.0
              then AddEdges aTris 1 3 2
              else AddEdges aTris 1 2 3) ;;
    setNormals aDir aTris.

End Corner.

(** The normal of the triangle [(i1, i2, i3)] of an array: the cross
    product of its two edges from [i1]. *)
Definition faceNormal (aTris : Graphic3d_ArrayOfTriangles)
  (t : nat * nat * nat) : option gp_XYZ :=
  let '(i1, i2, i3) := t in
  p1 <- Vertice aTris i1 ;;
  p2 <- Vertice aTris i2 ;;
  p3 <- Vertice aTris i3 ;;
  Some (Crossed (Subtracted p2 p1) (Subtracted p3 p1)).

(** The same on the positions the array holds: the normal of the triangle
    as it is drawn, and as [createBoxCornerTriangles] computes it from
    the nodes it reads back. *)
Definition storedFaceNormal (aTris : Graphic3d_ArrayOfTriangles)
  (t : nat * nat * nat) : option gp_XYZ :=
  let '(i1, i2, i3) := t in
  p1 <- StoredVertice aTris i1 ;;
  p2 <- StoredVertice aTris i2 ;;
  p3 <- StoredVertice aTris i3 ;;
  Some (Crossed (Subtracted p2 p1) (Subtracted p3 p1)).

(** *** AIS_ViewCubeSensitive *)

Section Sensitive.

(** [Select3D_SensitivePrimitiveArray::Matches], the hit test of the
    triangles, declared outside AIS_ViewCube.cxx. *)
Variable Select3D_Matches : SelectingVolumeManager -> bool.

(** [AIS_ViewCubeSensitive::isValidRay], on the owner [myOwnerId] of the
    sensitive element. *)
Definition isValidRay (myOwnerId : option SelectMgr_EntityOwner)
  (theMgr : SelectingVolumeManager) : option bool :=
  if negb (isPoint (GetActiveSelectionType theMgr)) then Some false
  else
    match dynamic_cast_ViewCubeOwner myOwnerId with
    | Some anOwner =>
        let anAngleToler := 10.0 * PI / 180.0 in
        let aRay :=
          Vec_of_points (GetNearPickedPnt theMgr) (GetFarPickedPnt theMgr) in
        let aDir := GetProjAxis (MainOrientation anOwner) in
        isNormal <- Vec_IsNormal aRay aDir anAngleToler ;;
        Some (negb isNormal)
    | None => Some true
    end.

(** [AIS_ViewCubeSensitive::Matches]: [&&] evaluates the hit test only
    for a valid ray. *)
Definition Matches (myOwnerId : option SelectMgr_EntityOwner)
  (theMgr : SelectingVolumeManager) : option bool :=
  isValid <- isValidRay myOwnerId theMgr ;;
  if isValid then Some (Select3D_Matches theMgr) else Some false.

End Sensitive.

(** *** The camera animation *)

Definition HasAnimation (self : AIS_ViewCube) : bool :=
  negb (IsStopped (myViewAnimation self)).

(** The loop of [StartAnimation] over [anUpList]: the best angle and the
    best up vector so far. *)
Definition closestUpLoop (anUpList : list gp_Dir) (anOldUp : gp_Dir)
  : R * gp_Dir :=
  fold_left
    (fun (best : R * gp_Dir) (anUp : gp_Dir) =>
       let '(aBestAngle, anUpBest) := best in
       let anAngle := Dir_Angle anUp anOldUp in
       if Rgtb aBestAngle anAngle then (anAngle, anUp)
       else (aBestAngle, anUpBest))
    anUpList
    (Infinite, mkXYZ 1 0 0).

(** The four candidates: the up vector of the new orientation turned by
    0, 90, 180 and 270 degrees about the new view direction. *)
Definition upCandidates (theUp aNewDir : gp_Dir) : list gp_Dir :=
  [ theUp;
    Dir_Rotated theUp aNewDir (PI / 2);
    Dir_Rotated theUp aNewDir PI;
    Dir_Rotated theUp aNewDir (PI * 1.5) ].

Section Animation.

(** [V3d_View::SetProj (orientation, isYup)] and the two [V3d_View::FitAll]
    (on a box, on the whole scene), as they act on the camera of the
    view; declared outside AIS_ViewCube.cxx. *)
Variable SetProj :
  Graphic3d_Camera -> V3d_TypeOfOrientation -> bool -> Graphic3d_Camera.
Variable FitAllBox : Graphic3d_Camera -> Bnd_Box -> R -> Graphic3d_Camera.
Variable FitAll : Graphic3d_Camera -> R -> Graphic3d_Camera.

(** The block of [StartAnimation] that works on the camera [myEndState],
    installed in the view for the time of the block: the end pose. *)
Definition endPose (self : AIS_ViewCube) (theContext : AIS_InteractiveContext)
  (aView : V3d_View) (theOwner : AIS_ViewCubeOwner) : Graphic3d_Camera :=
  let aBackupCamera := Camera aView in
  let aCamera := SetProj (Camera aView) (MainOrientation theOwner)
                   (myIsYup self) in
  let aNewDir := Direction aCamera in
  let aCamera :=
    if negb (myToResetCameraUp self)
       && negb (Dir_IsEqual aNewDir (Direction aBackupCamera) Angular)
    then
      let anOldUp := Up aBackupCamera in
      let anUpList := upCandidates (Up aCamera) aNewDir in
      SetUp (snd (closestUpLoop anUpList anOldUp)) aCamera
    else aCamera in
  let aBndSelected :=
    if myToFitSelected self then BoundingBoxOfSelection theContext
    else None in
  if negb (IsVoid aBndSelected) then FitAllBox aCamera aBndSelected 0.01
  else FitAll aCamera 0.01.

(** [AIS_ViewCube::StartAnimation].  The view is left as it was found:
    its camera is set back to the backup and its immediate update flag
    restored. *)
Definition StartAnimation (theContext : AIS_InteractiveContext)
  (theOwner : option AIS_ViewCubeOwner) (self : AIS_ViewCube) : AIS_ViewCube :=
  match theOwner, LastActiveView theContext with
  | Some anOwner, Some aView =>
      let self := set_myStartState (Camera aView) self in
      let self := set_myEndState (endPose self theContext aView anOwner) self in
      let anAnim := SetView (Some aView) (myViewAnimation self) in
      let anAnim := SetCameraStart (myStartState self) anAnim in
      let anAnim := SetCameraEnd (myEndState self) anAnim in
      let anAnim := SetOwnDuration (myDuration self) anAnim in
      set_myViewAnimation (StartTimer anAnim) self
  | _, _ => self
  end.

End Animation.

(** [AIS_ViewCube::updateAnimation]; [aPts] is the elapsed time
    [myViewAnimation->UpdateTimer()] returns at this tick. *)
Definition updateAnimation (aPts : R) (self : AIS_ViewCube)
  : bool * AIS_ViewCube :=
  if Rgeb aPts (myDuration self) then
    let self := set_myViewAnimation (Stop (myViewAnimation self)) self in
    let self := emit onAnimationFinished self in
    let self :=
      set_myViewAnimation (SetView None (myViewAnimation self)) self in
    (false, self)
  else (true, self).

(** [AIS_ViewCube::UpdateAnimation]; the timer is read only when the
    animation is running. *)
Definition UpdateAnimation (theToUpdate : bool) (aPts : R)
  (self : AIS_ViewCube) : bool * AIS_ViewCube :=
  let aView := View (myViewAnimation self) in
  if negb (HasAnimation self) then (false, self)
  else
    let '(isRunning, self) := updateAnimation aPts self in
    if negb isRunning then (false, self)
    else
      let self :=
        match theToUpdate, aView with
        | true, Some v =>
            if IsInvalidated v then emit Redraw self
            else emit RedrawImmediate self
        | _, _ => self
        end in
      (true, emit onAfterAnimation self).

(** A run of ticks: the elapsed times read one after the other, with the
    value each [UpdateAnimation] returned. *)
Fixpoint ticks (theToUpdate : bool) (thePts : list R) (self : AIS_ViewCube)
  : list bool * AIS_ViewCube :=
  match thePts with
  | [] => ([], self)
  | aPts :: rest =>
      let '(r, self) := UpdateAnimation theToUpdate aPts self in
      let '(rs, self) := ticks theToUpdate rest self in
      (r :: rs, self)
  end.

(** The number of calls of [onAnimationFinished] recorded. *)
Definition nbFinished (self : AIS_ViewCube) : nat :=
  length (filter (fun e => match e with onAnimationFinished => true
                                   | _ => false end) (myEvents self)).

(** The classification read off the tag alone. *)
Definition tagComponents (o : V3d_TypeOfOrientation) : nat :=
  match o with
  | V3d_Xpos | V3d_Ypos | V3d_Zpos | V3d_Xneg | V3d_Yneg | V3d_Zneg => 1
  | V3d_XposYpos | V3d_XposZpos | V3d_YposZpos | V3d_XnegYneg | V3d_XnegYpos
  | V3d_XnegZneg | V3d_XnegZpos | V3d_YnegZneg | V3d_YnegZpos | V3d_XposYneg
  | V3d_XposZneg | V3d_YposZneg => 2
  | _ => 3
  end.

(** *** The view operations, for the examples *)

(** The up vector of an orientation under the Y-up or Z-up convention, as
    [AIS_ViewCube::Compute] chooses it for the labels of the sides. *)
Definition canonicalUp (anOrient : V3d_TypeOfOrientation) (theIsYup : bool)
  : gp_Dir :=
  if theIsYup then
    match anOrient with
    | V3d_Ypos | V3d_Yneg => Reversed DZ
    | _ => DY
    end
  else
    match anOrient with
    | V3d_Zpos => DY
    | V3d_Zneg => Reversed DY
    | _ => DZ
    end.

(** Modelled from the spec: [V3d_View::SetProj], declared in V3d_View.hxx
    and not part of AIS_ViewCube.cxx: "applying the target direction's
    canonical view orientation (respecting a global Y-up vs Z-up
    convention flag)".  The eye goes to the projection axis at its former
    distance from the origin, the camera looks back along the axis, and
    the up vector is the canonical one, made orthogonal to the view
    direction. *)
Definition SetProj_spec (c : Graphic3d_Camera)
  (theOrientation : V3d_TypeOfOrientation) (theIsYup : bool)
  : Graphic3d_Camera :=
  let aBck := GetProjAxis theOrientation in
  let aDir := Reversed aBck in
  let anUp := canonicalUp theOrientation theIsYup in
  let aLeft := Crossed aDir anUp in
  let anOrtho := Crossed aLeft aDir in
  mkCamera (Multiplied aBck (Modulus (Eye c))) Origin aDir
    (normalized (cX anOrtho) (cY anOrtho) (cZ anOrtho)) (Scale c).

(** Two fits for the examples, standing for the two [V3d_View::FitAll]:
    like every fit they frame the box or the scene by the eye distance
    and the scale and leave view direction and up vector alone; these two
    set the scale from the margin only. *)
Definition FitAllBox_sample (c : Graphic3d_Camera) (theBox : Bnd_Box)
  (theMargin : R) : Graphic3d_Camera :=
  mkCamera (Eye c) (Center c) (Direction c) (Up c) (1 + theMargin).
Definition FitAll_sample (c : Graphic3d_Camera) (theMargin : R)
  : Graphic3d_Camera :=
  mkCamera (Eye c) (Center c) (Direction c) (Up c) (1 + theMargin).

(** A camera and the widget fresh from its constructor on it, for the
    examples. *)
Definition sampleCamera : Graphic3d_Camera :=
  mkCamera (mkXYZ 0 (-100) 0) (mkXYZ 0 0 0) DY DZ 1.
Definition sampleViewCube : AIS_ViewCube := newViewCube sampleCamera.

(** A view that looks along +Y, rolled so that +X is up, and a context
    showing it with nothing selected; the same with the camera upright. *)
Definition rolledCamera : Graphic3d_Camera :=
  mkCamera (mkXYZ 0 (-100) 0) (mkXYZ 0 0 0) DY DX 1.
Definition rolledContext : AIS_InteractiveContext :=
  mkContext (Some (mkView rolledCamera true false)) None.
Definition sampleContext : AIS_InteractiveContext :=
  mkContext (Some (mkView sampleCamera true false)) None.

(** Picks on the +X side of the cube: a rectangle, a ray across the
    side and a ray along its axis. *)
Definition boxQuery : SelectingVolumeManager :=
  mkManager Box (mkXYZ 0 0 0) (mkXYZ 1 0 0).
Definition grazingPick : SelectingVolumeManager :=
  mkManager Point (mkXYZ 0 0 0) (mkXYZ 0 5 0).
Definition frontalPick : SelectingVolumeManager :=
  mkManager Point (mkXYZ 0 0 0) (Multiplied (GetProjAxis V3d_Xpos) 3).

(** The widget once a reorientation to the +X side has been requested. *)
Definition startedViewCube : AIS_ViewCube :=
  StartAnimation SetProj_spec FitAllBox_sample FitAll_sample sampleContext
    (Some (mkOwner V3d_Xpos)) sampleViewCube.

(** *** The meshes, vertex by vertex *)

(** The points of the rounded rectangle in its own plane, in the order
    the builder adds them: the centre, then the four quarter arcs. *)
Definition roundRectanglePoints (theSize : gp_XY) (theRadius : R)
  : list gp_Pnt :=
  let aRadius := roundRadiusOf theSize theRadius in
  let aHSize := halfSizeOf theSize theRadius in
  let arc cx cy theStart theEnd :=
    map (arcPoint cx cy aRadius theStart theEnd)
      (seq 0 (THE_NB_ROUND_SPLITS + 1)) in
  mkXYZ 0.0 0.0 0.0
  :: arc (xyX aHSize) (xyY aHSize) (PI * 0.5) 0.0
  ++ arc (xyX aHSize) (- xyY aHSize) 0.0 (- PI * 0.5)
  ++ arc (- xyX aHSize) (- xyY aHSize) (- PI * 0.5) (- PI)
  ++ arc (- xyX aHSize) (xyY aHSize) (- PI) (- PI * 1.5).

(** The points of the sharp rectangle in its own plane. *)
Definition rectanglePoints (theSize : gp_XY) (theRadius : R) : list gp_Pnt :=
  let aHSize := halfSizeOf theSize theRadius in
  [ mkXYZ (- xyX aHSize) (- xyY aHSize) 0.0;
    mkXYZ (- xyX aHSize) (xyY aHSize) 0.0;
    mkXYZ (xyX aHSize) (xyY aHSize) 0.0;
    mkXYZ (xyX aHSize) (- xyY aHSize) 0.0 ].

(** The edges of a fan about vertex 1 over the vertices [2 .. n], closed
    from [n] back to 2; its first triangle, [(1, 1, 2)], is the one the
    loop makes on its first round. *)
Definition fanEdges (n : nat) : list nat :=
  flat_map (fun aNodeIter => [1; aNodeIter - 1; aNodeIter])%nat
    (seq 2 (n - 1))
  ++ [1; n; 2]%nat.

(** An array whose vertices are the points [pts] under [theTrsf], all with
    the normal [theNormal]. *)
Definition placedVertices (theTrsf : gp_Trsf) (theNormal : gp_Dir)
  (pts : list gp_Pnt) : list Vertex :=
  map (fun p => mkVertex (Pnt_Transformed p theTrsf) (Some theNormal)) pts.

(** The placement that leaves every point where it is. *)
Definition identityTrsf : gp_Trsf := mkTrsf 1 DX DY DZ Origin.

(** Stand-ins for the two operations of the rounded corner, which the
    sharp corner does not call. *)
Definition samplePlacement (aPos : gp_Pnt) (aDir : gp_Dir) : gp_Trsf :=
  identityTrsf.
Definition sampleDisk (theInner theOuter : R) (theNbSlices theNbStacks : nat)
  (theTrsf : gp_Trsf) : Graphic3d_ArrayOfTriangles :=
  newArray 0 0.


(** The widget with a facet extension of one millionth, as
    [SetBoxFacetExtension (1e-6)] leaves it: at the size 70 the singles
    near 35 are [2 ^ -18] apart, more than twice that extension. *)
Definition thinViewCube : AIS_ViewCube :=
  mkViewCube 70 2 0 1e-6 (70 * 0.1) 2 0 true true true false
    (mkAnimation AnimState_Stopped None None None 0)
    sampleCamera sampleCamera 0.5 true true true false true [].

(** Inside the rectangle of the given size, in its plane. *)
Definition insideRectangle (w h : R) (p : gp_Pnt) : Prop :=
  Rabs (cX p) <= w / 2 /\ Rabs (cY p) <= h / 2 /\ cZ p = 0.

(** What the loop of [StartAnimation] holds after a prefix [l] of the
    candidates, started on [(b0, u0)]: nothing found yet, or the first
    candidate of least angle to [anOldUp]. *)
Definition loopInvariant (anOldUp : gp_Dir) (b0 : R) (u0 : gp_Dir)
  (l : list gp_Dir) (best : R * gp_Dir) : Prop :=
  (best = (b0, u0) /\ forall u, In u l -> b0 <= Dir_Angle u anOldUp)
  \/ (exists i,
         nth_error l i = Some (snd best)
         /\ fst best = Dir_Angle (snd best) anOldUp
         /\ fst best < b0
         /\ (forall j u, nth_error l j = Some u ->
                         fst best <= Dir_Angle u anOldUp)
         /\ (forall j u, (j < i)%nat -> nth_error l j = Some u ->
                         fst best < Dir_Angle u anOldUp)).

(** The two requests of the examples: the front side asked from the
    rolled view that already faces it, and the cameras [SetProj] makes
    for the front and for the right side. *)
Definition frontCamera : Graphic3d_Camera :=
  SetProj_spec rolledCamera V3d_Yneg false.
Definition frontRequest : AIS_ViewCube :=
  StartAnimation SetProj_spec FitAllBox_sample FitAll_sample rolledContext
    (Some (mkOwner V3d_Yneg)) sampleViewCube.
Definition rightCamera : Graphic3d_Camera :=
  SetProj_spec sampleCamera V3d_Xpos false.

(** The owner of the +X side of the cube. *)
Definition rightSideOwner : option SelectMgr_EntityOwner :=
  Some (CubeOwner (mkOwner V3d_Xpos)).

(** ** The parts of the box and their selection *)

(** [gp_XY::Modulus]. *)
Definition XY_Modulus (p : gp_XY) : R :=
  sqrt (xyX p * xyX p + xyY p * xyY p).

(** [AIS_ViewCubeSensitive], as [ComputeSelection] makes it: the owner,
    the triangles and the sensitivity factor. *)
Record AIS_ViewCubeSensitive : Type := mkSensitive
  { sensOwner : AIS_ViewCubeOwner;
    sensTris : Graphic3d_ArrayOfTriangles;
    SensitivityFactor : nat }.

Section BoxParts.

Variable placement : gp_Pnt -> gp_Dir -> gp_Trsf.
Variable Prs3d_ToolDisk_Create :
  R -> R -> nat -> nat -> gp_Trsf -> Graphic3d_ArrayOfTriangles.

(** [AIS_ViewCube::createBoxSideTriangles]. *)
Definition createBoxSideTriangles (self : AIS_ViewCube)
  (theDirection : V3d_TypeOfOrientation)
  : option Graphic3d_ArrayOfTriangles :=
  let aDir := GetProjAxis theDirection in
  let aPos := Multiplied aDir (mySize self * 0.5 + myBoxFacetExtension self) in
  let aTrsf := placement aPos (Reversed aDir) in
  createRoundRectangleTriangles (mkXY (mySize self) (mySize self))
    (myRoundRadius self * mySize self) aTrsf.

(** The thickness [createBoxEdgeTriangles] gives an edge. *)
Definition edgeThickness (self : AIS_ViewCube) : R :=
  Rmax (myBoxFacetExtension self * XY_Modulus (mkXY 1.0 1.0)
        - myBoxEdgeGap self)
       (myBoxEdgeMinSize self).

(** [AIS_ViewCube::createBoxEdgeTriangles]. *)
Definition createBoxEdgeTriangles (self : AIS_ViewCube)
  (theDirection : V3d_TypeOfOrientation)
  : option Graphic3d_ArrayOfTriangles :=
  let aThickness := edgeThickness self in
  let aDir := GetProjAxis theDirection in
  let aPos :=
    Multiplied aDir (mySize self * 0.5 * XY_Modulus (mkXY 1.0 1.0)
                     + myBoxFacetExtension self * cos (PI / 4)) in
  let aTrsf := placement aPos (Reversed aDir) in
  createRoundRectangleTriangles (mkXY aThickness (mySize self))
    (myRoundRadius self * mySize self) aTrsf.

(** [AIS_ViewCube::createBoxPartTriangles]: [None] is an exception,
    [Some None] the null handle of a part that is not displayed. *)
Definition createBoxPartTriangles (self : AIS_ViewCube)
  (theDir : V3d_TypeOfOrientation)
  : option (option Graphic3d_ArrayOfTriangles) :=
  if IsBoxSide theDir then
    option_map Some (createBoxSideTriangles self theDir)
  else if IsBoxEdge theDir && myToDisplayEdges self then
    option_map Some (createBoxEdgeTriangles self theDir)
  else if IsBoxCorner theDir && myToDisplayVertices self then
    option_map Some
      (createBoxCornerTriangles placement Prs3d_ToolDisk_Create self theDir)
  else Some None.

(** The loop of [ComputeSelection] over the orientations [l]. *)
Fixpoint selectionLoop (l : list V3d_TypeOfOrientation) (self : AIS_ViewCube)
  (theSelection : list AIS_ViewCubeSensitive)
  : option (list AIS_ViewCubeSensitive) :=
  match l with
  | [] => Some theSelection
  | anOri :: rest =>
      aPart <- createBoxPartTriangles self anOri ;;
      match aPart with
      | Some aTris =>
          let aSensitivity :=
            if IsBoxCorner anOri then 8%nat
            else if IsBoxEdge anOri then 4%nat
            else 2%nat in
          selectionLoop rest self
            (theSelection
             ++ [mkSensitive (mkOwner anOri) aTris aSensitivity])
      | None => selectionLoop rest self theSelection
      end
  end.

(** [AIS_ViewCube::ComputeSelection]: the sensitive entities added to
    [theSelection]. *)
Definition ComputeSelection (self : AIS_ViewCube)
  (theSelection : list AIS_ViewCubeSensitive) (theMode : Z)
  : option (list AIS_ViewCubeSensitive) :=
  if negb (Z.eqb theMode 0) then Some theSelection
  else selectionLoop allOrientations self theSelection.

End BoxParts.

(** The parts [createBoxPartTriangles] builds under the display flags. *)
Definition isDisplayedPart (self : AIS_ViewCube) (o : V3d_TypeOfOrientation)
  : bool :=
  IsBoxSide o
  || (IsBoxEdge o && myToDisplayEdges self)
  || (IsBoxCorner o && myToDisplayVertices self).

(** ** The labels of the sides *)

(** [gp_Dir::Crossed]: the normalised cross product; raises
    [Standard_ConstructionError] when the two directions are parallel. *)
Definition Dir_Crossed (a b : gp_Dir) : option gp_Dir :=
  let c := Crossed a b in mkDir (cX c) (cY c) (cZ c).

(** The placement [AIS_ViewCube::Compute] gives the label of a side:
    position, main direction and X direction [anUp.Crossed (aDir)]. *)
Definition labelPlacement (self : AIS_ViewCube)
  (anOrient : V3d_TypeOfOrientation) : option (gp_Pnt * gp_Dir * gp_Dir) :=
  let aDir := GetProjAxis anOrient in
  let anUp := canonicalUp anOrient (myIsYup self) in
  let anOffset := 2.0 in
  let aPos :=
    Multiplied aDir (mySize self * 0.5 + myBoxFacetExtension self + anOffset) in
  aVx <- Dir_Crossed anUp aDir ;;
  Some (aPos, aDir, aVx).

Definition orientation_eq_dec (a b : V3d_TypeOfOrientation) :
  {a = b} + {a <> b}.
Proof. decide equality. Defined.

(** [NCollection_DataMap<V3d_TypeOfOrientation, TCollection_AsciiString>]:
    [Find] looks a key up, [Bind] binds it, overriding what was bound. *)
Definition LabelMap : Type := V3d_TypeOfOrientation -> option string.
Definition Find (m : LabelMap) (k : V3d_TypeOfOrientation) : option string :=
  m k.
Definition Bind (m : LabelMap) (k : V3d_TypeOfOrientation) (s : string)
  : LabelMap :=
  fun k' => if orientation_eq_dec k' k then Some s else m k'.

Definition set_myIsYup (v : bool) (self : AIS_ViewCube) : AIS_ViewCube :=
  mkViewCube (mySize self) (myBoxEdgeMinSize self) (myBoxEdgeGap self)
    (myBoxFacetExtension self) (myAxesPadding self) (myCornerMinSize self)
    (myRoundRadius self) (myToDisplayAxes self) (myToDisplayEdges self)
    (myToDisplayVertices self) v (myViewAnimation self) (myStartState self)
    (myEndState self) (myDuration self) (myToAutoStartAnim self)
    (myIsFixedAnimation self) (myToFitSelected self) (myToResetCameraUp self)
    (myToUpdate self) (myEvents self).

Section Yup.

(** The two arrays of six orientations, indexed from 0; their entries are
    the aliases [V3d_TypeOfOrientation_Zup_Front] ... and
    [V3d_TypeOfOrientation_Yup_Front] ..., declared outside
    AIS_ViewCube.cxx. *)
Variable THE_ZUP_ORI_LIST : nat -> V3d_TypeOfOrientation.
Variable THE_YUP_ORI_LIST : nat -> V3d_TypeOfOrientation.

(** The first loop of [SetYup]: the array [aLabels] of the labels found,
    an entry staying empty when [Find] fails. *)
Definition readLabels (keys : nat -> V3d_TypeOfOrientation)
  (myBoxSideLabels : LabelMap) : list string :=
  map (fun aLabelIter =>
         match Find myBoxSideLabels (keys aLabelIter) with
         | Some s => s
         | None => EmptyString
         end)
    (seq 0 6).

(** The second loop of [SetYup]. *)
Definition bindLabels (keys : nat -> V3d_TypeOfOrientation)
  (aLabels : list string) (myBoxSideLabels : LabelMap) : LabelMap :=
  fold_left
    (fun m aLabelIter =>
       Bind m (keys aLabelIter) (nth aLabelIter aLabels EmptyString))
    (seq 0 6) myBoxSideLabels.

(** [AIS_ViewCube::SetYup], on the widget and its map [myBoxSideLabels]. *)
Definition SetYup (theIsYup theToUpdateLabels : bool)
  (st : AIS_ViewCube * LabelMap) : AIS_ViewCube * LabelMap :=
  let '(self, myBoxSideLabels) := st in
  if Bool.eqb (myIsYup self) theIsYup then st
  else
    let self := set_myIsYup theIsYup self in
    let myBoxSideLabels :=
      if theToUpdateLabels then
        let aLabels :=
          readLabels (if negb (myIsYup self) then THE_YUP_ORI_LIST
                      else THE_ZUP_ORI_LIST) myBoxSideLabels in
        bindLabels (if myIsYup self then THE_YUP_ORI_LIST
                    else THE_ZUP_ORI_LIST) aLabels myBoxSideLabels
      else myBoxSideLabels in
    (SetToUpdate self, myBoxSideLabels).

End Yup.

(** ** HandleClick *)

(** The loop [for (; HasAnimation(); ) UpdateAnimation (true)]; [thePts]
    are the elapsed times the timer gives tick after tick, and [None]
    says that they ran out with the animation still running. *)
Fixpoint animationLoop (thePts : list R) (self : AIS_ViewCube)
  : option AIS_ViewCube :=
  match thePts with
  | [] => if HasAnimation self then None else Some self
  | aPts :: rest =>
      if HasAnimation self
      then animationLoop rest (snd (UpdateAnimation true aPts self))
      else Some self
  end.

Section Click.

Variable SetProj :
  Graphic3d_Camera -> V3d_TypeOfOrientation -> bool -> Graphic3d_Camera.
Variable FitAllBox : Graphic3d_Camera -> Bnd_Box -> R -> Graphic3d_Camera.
Variable FitAll : Graphic3d_Camera -> R -> Graphic3d_Camera.

(** [AIS_ViewCube::HandleClick]. *)
Definition HandleClick (theContext : AIS_InteractiveContext)
  (theOwner : option AIS_ViewCubeOwner) (thePts : list R)
  (self : AIS_ViewCube) : option AIS_ViewCube :=
  if negb (myToAutoStartAnim self) then Some self
  else
    let self := StartAnimation SetProj FitAllBox FitAll theContext theOwner
                  self in
    if negb (myIsFixedAnimation self) then Some self
    else animationLoop thePts self.

End Click.

(** A run of calls of [SetRoundRadius], an exception leaving the widget
    as it is and the run going on. *)
Definition SetRoundRadiusAll (theValues : list R) (self : AIS_ViewCube)
  : AIS_ViewCube :=
  fold_left (fun self theValue => stateOf (SetRoundRadius theValue self))
    theValues self.

(** The redraw [UpdateAnimation] asks of a view. *)
Definition redrawOf (aView : V3d_View) : Event :=
  if IsInvalidated aView then Redraw else RedrawImmediate.

(** The labels the constructor binds, and two assignments of the six
    sides to front, back, top, bottom, left and right, one for each
    convention, for the examples. *)
Definition zupSides (i : nat) : V3d_TypeOfOrientation :=
  nth i [V3d_Yneg; V3d_Ypos; V3d_Zpos; V3d_Zneg; V3d_Xneg; V3d_Xpos] V3d_Xpos.
Definition yupSides (i : nat) : V3d_TypeOfOrientation :=
  nth i [V3d_Zpos; V3d_Zneg; V3d_Ypos; V3d_Yneg; V3d_Xneg; V3d_Xpos] V3d_Xpos.
Definition defaultLabels : LabelMap :=
  Bind (Bind (Bind (Bind (Bind (Bind (fun _ => None)
    (zupSides 0) "FRONT") (zupSides 1) "BACK") (zupSides 2) "TOP")
    (zupSides 3) "BOTTOM") (zupSides 4) "LEFT") (zupSides 5) "RIGHT".

(** The sensitivity [ComputeSelection] gives the part of an orientation. *)
Definition sensitivityOf (o : V3d_TypeOfOrientation) : nat :=
  if IsBoxCorner o then 8 else if IsBoxEdge o then 4 else 2.

(** * Proofs *)

(** *** The boolean comparisons *)

Lemma Rgtb_true a b : Rgtb a b = true <-> a > b.
Proof. unfold Rgtb; destruct (Rgt_dec a b); split; intros; try easy; lra. Qed.
Lemma Rgtb_false a b : Rgtb a b = false <-> a <= b.
Proof. unfold Rgtb; destruct (Rgt_dec a b); split; intros; try easy; lra. Qed.
Lemma Rltb_true a b : Rltb a b = true <-> a < b.
Proof. unfold Rltb; destruct (Rlt_dec a b); split; intros; try easy; lra. Qed.
Lemma Rltb_false a b : Rltb a b = false <-> b <= a.
Proof. unfold Rltb; destruct (Rlt_dec a b); split; intros; try easy; lra. Qed.
Lemma Rleb_true a b : Rleb a b = true <-> a <= b.
Proof. unfold Rleb; destruct (Rle_dec a b); split; intros; try easy; lra. Qed.
Lemma Rleb_false a b : Rleb a b = false <-> b < a.
Proof. unfold Rleb; destruct (Rle_dec a b); split; intros; try easy; lra. Qed.
Lemma Rgeb_true a b : Rgeb a b = true <-> a >= b.
Proof. unfold Rgeb; destruct (Rge_dec a b); split; intros; try easy; lra. Qed.
Lemma Rgeb_false a b : Rgeb a b = false <-> a < b.
Proof. unfold Rgeb; destruct (Rge_dec a b); split; intros; try easy; lra. Qed.

(** *** Facts on the constants *)

Lemma Resolution_big_inverse : 4 < IZR (2 ^ 1022).
Proof. apply IZR_lt. reflexivity. Qed.

Lemma Resolution_pos : 0 < Resolution.
Proof.
  unfold Resolution. pose proof Resolution_big_inverse.
  apply Rinv_0_lt_compat; lra.
Qed.

Lemma Resolution_small : Resolution < / 4.
Proof.
  unfold Resolution. pose proof Resolution_big_inverse.
  apply Rinv_lt_contravar; lra.
Qed.

Lemma sqrt_between (v : R) : 1 <= v <= 4 -> 1 <= sqrt v <= 2.
Proof.
  intros [H1 H4]. split.
  - rewrite <- sqrt_1 at 1. apply sqrt_le_1_alt; lra.
  - assert (E : sqrt (2 * 2) = 2) by (apply sqrt_square; lra).
    assert (L : sqrt v <= sqrt (2 * 2)) by (apply sqrt_le_1_alt; lra).
    lra.
Qed.

Lemma unit_component_large (s aD : R) :
  s = 1 \/ s = -1 -> 1 <= aD <= 2 -> Rabs (s / aD) > Resolution.
Proof.
  intros Hs HD.
  assert (Hi : / 2 <= / aD) by (apply Rinv_le_contravar; lra).
  pose proof Resolution_small.
  unfold Rdiv. rewrite Rabs_mult, (Rabs_right (/ aD)).
  - destruct Hs; subst s; unfold Rabs; destruct (Rcase_abs _); lra.
  - lra.
Qed.

Lemma zero_component_small (aD : R) : Rabs (0 / aD) <= Resolution.
Proof.
  unfold Rdiv. rewrite Rmult_0_l, Rabs_R0.
  pose proof Resolution_pos; lra.
Qed.

(** *** Classification of the 26 orientations *)

Ltac component_tac :=
  repeat match goal with
  | |- context [Rgtb (Rabs (0 / ?d)) Resolution] =>
      rewrite (proj2 (Rgtb_false _ _) (zero_component_small d))
  | |- context [Rgtb (Rabs (?s / ?d)) Resolution] =>
      rewrite (proj2 (Rgtb_true _ _)
                 (unit_component_large s d
                    ltac:(first [left; reflexivity | right; reflexivity])
                    ltac:(apply sqrt_between; lra)))
  end.

Lemma nbDirectionComponents_unfold (d : gp_Dir) :
  nbDirectionComponents d =
  ((if Rgtb (Rabs (cX d)) Resolution then 1 else 0)
   + (if Rgtb (Rabs (cY d)) Resolution then 1 else 0)
   + (if Rgtb (Rabs (cZ d)) Resolution then 1 else 0))%nat.
Proof.
  unfold nbDirectionComponents; simpl.
  destruct (Rgtb (Rabs (cX d)) Resolution), (Rgtb (Rabs (cY d)) Resolution),
    (Rgtb (Rabs (cZ d)) Resolution); reflexivity.
Qed.

Lemma nbDirectionComponents_GetProjAxis (o : V3d_TypeOfOrientation) :
  nbDirectionComponents (GetProjAxis o) = tagComponents o.
Proof.
  rewrite nbDirectionComponents_unfold.
  destruct o; unfold GetProjAxis, projSigns, normalized; cbn [cX cY cZ];
    component_tac; reflexivity.
Qed.

Lemma IsBoxSide_tag o : IsBoxSide o = Nat.eqb (tagComponents o) 1.
Proof. unfold IsBoxSide. now rewrite nbDirectionComponents_GetProjAxis. Qed.
Lemma IsBoxEdge_tag o : IsBoxEdge o = Nat.eqb (tagComponents o) 2.
Proof. unfold IsBoxEdge. now rewrite nbDirectionComponents_GetProjAxis. Qed.
Lemma IsBoxCorner_tag o : IsBoxCorner o = Nat.eqb (tagComponents o) 3.
Proof. unfold IsBoxCorner. now rewrite nbDirectionComponents_GetProjAxis. Qed.

(** C3: a direction is classified by the number of its components whose
    magnitude exceeds the tolerance [gp::Resolution()] (1: side, 2: edge,
    3: corner); every one of the 26 orientations gets exactly one
    classification, and the 26 split into 6 sides, 12 edges, 8 corners. *)
Theorem classification_of_orientations :
  (forall d : gp_Dir,
      nbDirectionComponents d =
      length (filter (fun c => Rgtb (Rabs c) Resolution) [cX d; cY d; cZ d]))
  /\ (forall o,
        IsBoxSide o = Nat.eqb (nbDirectionComponents (GetProjAxis o)) 1
        /\ IsBoxEdge o = Nat.eqb (nbDirectionComponents (GetProjAxis o)) 2
        /\ IsBoxCorner o = Nat.eqb (nbDirectionComponents (GetProjAxis o)) 3)
  /\ (forall o, In o allOrientations)
  /\ NoDup allOrientations
  /\ length allOrientations = 26%nat
  /\ (forall o,
        (Classify o = Some Side /\ IsBoxSide o = true
         /\ IsBoxEdge o = false /\ IsBoxCorner o = false)
        \/ (Classify o = Some Edge /\ IsBoxSide o = false
            /\ IsBoxEdge o = true /\ IsBoxCorner o = false)
        \/ (Classify o = Some Corner /\ IsBoxSide o = false
            /\ IsBoxEdge o = false /\ IsBoxCorner o = true))
  /\ length (filter IsBoxSide allOrientations) = 6%nat
  /\ length (filter IsBoxEdge allOrientations) = 12%nat
  /\ length (filter IsBoxCorner allOrientations) = 8%nat.
Proof.
  assert (HS : forall o, IsBoxSide o =
                 Nat.eqb (nbDirectionComponents (GetProjAxis o)) 1)
    by reflexivity.
  assert (HE : forall o, IsBoxEdge o =
                 Nat.eqb (nbDirectionComponents (GetProjAxis o)) 2)
    by reflexivity.
  assert (HC : forall o, IsBoxCorner o =
                 Nat.eqb (nbDirectionComponents (GetProjAxis o)) 3)
    by reflexivity.
  split; [| split; [| split; [| split; [| split; [| split]]]]].
  - intros d. rewrite nbDirectionComponents_unfold.
    cbn [filter length].
    destruct (Rgtb (Rabs (cX d)) Resolution),
      (Rgtb (Rabs (cY d)) Resolution), (Rgtb (Rabs (cZ d)) Resolution);
      reflexivity.
  - intros o; repeat split; reflexivity.
  - intros o; destruct o; simpl; tauto.
  - unfold allOrientations.
    repeat (constructor; [simpl; intuition discriminate |]). constructor.
  - reflexivity.
  - intros o. unfold Classify.
    rewrite IsBoxSide_tag, IsBoxEdge_tag, IsBoxCorner_tag.
    destruct o; cbn; tauto.
  - split; [| split].
    + rewrite (filter_ext _ _ IsBoxSide_tag). reflexivity.
    + rewrite (filter_ext _ _ IsBoxEdge_tag). reflexivity.
    + rewrite (filter_ext _ _ IsBoxCorner_tag). reflexivity.
Qed.

(** *** SetRoundRadius *)

Lemma set_myRoundRadius_get v self :
  myRoundRadius (SetToUpdate (set_myRoundRadius v self)) = v.
Proof. reflexivity. Qed.

(** C8, as the code has it: a value outside [0, 0.5] raises
    [Standard_OutOfRange] with its message before any member is written,
    so the widget is left as it was; a value inside [0, 0.5] is accepted,
    and it is stored (and the widget marked for update, no other member
    changing) when it differs from the stored radius by more than
    [Precision::Confusion()], the widget staying untouched otherwise; in
    both accepted cases the stored radius ends within that tolerance of
    the value. *)
Theorem SetRoundRadius_validates_then_stores (theValue : R)
  (self : AIS_ViewCube) :
  (theValue < 0 \/ theValue > 0.5 ->
   exists msg, SetRoundRadius theValue self = Raised msg self
               /\ msg <> EmptyString)
  /\ (0 <= theValue <= 0.5 ->
      exists self', SetRoundRadius theValue self = Returned self'
        /\ (Rabs (myRoundRadius self - theValue) > Confusion ->
            self' = SetToUpdate (set_myRoundRadius theValue self)
            /\ myRoundRadius self' = theValue)
        /\ (Rabs (myRoundRadius self - theValue) <= Confusion ->
            self' = self)
        /\ Rabs (myRoundRadius self' - theValue) <= Confusion).
Proof.
  unfold SetRoundRadius. split.
  - intros Hout.
    assert (E : Rltb theValue 0.0 || Rgtb theValue 0.5 = true).
    { apply orb_true_iff. destruct Hout as [H | H].
      - left. apply Rltb_true. lra.
      - right. apply Rgtb_true. lra. }
    rewrite E. eexists. split; [reflexivity | discriminate].
  - intros [H0 H5].
    assert (E : Rltb theValue 0.0 || Rgtb theValue 0.5 = false).
    { apply orb_false_iff. split.
      - apply Rltb_false. lra.
      - apply Rgtb_false. lra. }
    rewrite E.
    destruct (Rgtb (Rabs (myRoundRadius self - theValue)) Confusion) eqn:G.
    + apply Rgtb_true in G. eexists. split; [reflexivity |].
      split; [| split].
      * intros _. split; reflexivity.
      * intros Hle. lra.
      * rewrite set_myRoundRadius_get.
        replace (theValue - theValue) with 0 by ring.
        rewrite Rabs_R0. unfold Confusion. lra.
    + apply Rgtb_false in G. eexists. split; [reflexivity |].
      split; [| split].
      * intros Hgt. lra.
      * intros _. reflexivity.
      * exact G.
Qed.

Lemma SetRoundRadius_validates_then_stores_witness :
  (exists msg, SetRoundRadius 0.75 sampleViewCube = Raised msg sampleViewCube
               /\ msg <> EmptyString)
  /\ (exists self', SetRoundRadius 0.25 sampleViewCube = Returned self'
        /\ (Rabs (myRoundRadius sampleViewCube - 0.25) > Confusion ->
            self' = SetToUpdate (set_myRoundRadius 0.25 sampleViewCube)
            /\ myRoundRadius self' = 0.25)
        /\ (Rabs (myRoundRadius sampleViewCube - 0.25) <= Confusion ->
            self' = sampleViewCube)
        /\ Rabs (myRoundRadius self' - 0.25) <= Confusion).
Proof.
  split.
  - apply (proj1 (SetRoundRadius_validates_then_stores 0.75 sampleViewCube)).
    right; lra.
  - apply (proj2 (SetRoundRadius_validates_then_stores 0.25 sampleViewCube)).
    lra.
Defined.

(** C8, as the specification words it, does not hold: 0.00000005 lies
    inside [0, 0.5] and is accepted, yet the widget fresh from its
    constructor keeps the round radius 0 instead of storing the value. *)
Lemma SetRoundRadius_accepted_not_stored :
  0 <= 5e-8 <= 0.5
  /\ SetRoundRadius 5e-8 sampleViewCube = Returned sampleViewCube
  /\ myRoundRadius (stateOf (SetRoundRadius 5e-8 sampleViewCube)) = 0
  /\ myRoundRadius (stateOf (SetRoundRadius 5e-8 sampleViewCube)) <> 5e-8.
Proof.
  assert (E : SetRoundRadius 5e-8 sampleViewCube = Returned sampleViewCube).
  { unfold SetRoundRadius.
    assert (E1 : Rltb 5e-8 0.0 || Rgtb 5e-8 0.5 = false).
    { apply orb_false_iff. split.
      - apply Rltb_false. lra.
      - apply Rgtb_false. lra. }
    rewrite E1.
    assert (E2 : Rgtb (Rabs (myRoundRadius sampleViewCube - 5e-8)) Confusion
                 = false).
    { apply Rgtb_false. cbn [myRoundRadius sampleViewCube newViewCube].
      unfold Confusion. unfold Rabs. destruct (Rcase_abs _); lra. }
    rewrite E2. reflexivity. }
  split; [lra |]. split; [exact E |]. rewrite E. cbn.
  split; [reflexivity | lra].
Qed.

(** *** Vectors, norms and angles *)

Lemma sum_squares_nonneg (x y z : R) : 0 <= x * x + y * y + z * z.
Proof. nra. Qed.

Lemma Modulus_sq (v : gp_XYZ) : Modulus v * Modulus v = Dot v v.
Proof. unfold Modulus, Dot. apply sqrt_sqrt, sum_squares_nonneg. Qed.

Lemma Modulus_Multiplied (v : gp_XYZ) (k : R) :
  Modulus (Multiplied v k) = Rabs k * Modulus v.
Proof.
  unfold Modulus, Multiplied; cbn [cX cY cZ].
  replace (cX v * k * (cX v * k) + cY v * k * (cY v * k)
           + cZ v * k * (cZ v * k))
    with (Rsqr k * (cX v * cX v + cY v * cY v + cZ v * cZ v))
    by (unfold Rsqr; ring).
  rewrite sqrt_mult; [| apply Rle_0_sqr | apply sum_squares_nonneg].
  now rewrite sqrt_Rsqr_abs.
Qed.

Lemma Modulus_normalized (x y z : R) :
  0 < x * x + y * y + z * z -> Modulus (normalized x y z) = 1.
Proof.
  intros Hpos. unfold Modulus, normalized; cbn [cX cY cZ].
  set (aD := sqrt (x * x + y * y + z * z)).
  assert (HD : 0 < aD) by (apply sqrt_lt_R0; exact Hpos).
  assert (HDD : aD * aD = x * x + y * y + z * z)
    by (apply sqrt_sqrt; lra).
  replace (x / aD * (x / aD) + y / aD * (y / aD) + z / aD * (z / aD))
    with ((x * x + y * y + z * z) / (aD * aD)) by (field; lra).
  rewrite HDD. unfold Rdiv. rewrite Rinv_r by lra. apply sqrt_1.
Qed.

Lemma projSigns_norm (o : V3d_TypeOfOrientation) :
  let '(x, y, z) := projSigns o in 1 <= x * x + y * y + z * z <= 4.
Proof. destruct o; cbn; lra. Qed.

Lemma Modulus_GetProjAxis (o : V3d_TypeOfOrientation) :
  Modulus (GetProjAxis o) = 1.
Proof.
  unfold GetProjAxis. pose proof (projSigns_norm o) as H.
  destruct (projSigns o) as [[x y] z].
  apply Modulus_normalized. lra.
Qed.

Lemma Dot_normalized (v w : gp_XYZ) :
  Modulus v <> 0 -> Modulus w <> 0 ->
  Dot (normalized (cX v) (cY v) (cZ v)) (normalized (cX w) (cY w) (cZ w))
  = Dot v w / (Modulus v * Modulus w).
Proof.
  intros Hv Hw. unfold normalized, Dot; cbn [cX cY cZ].
  fold (Modulus v). fold (Modulus w). field. split; assumption.
Qed.

(** The angle [gp_Vec::Angle] returns once both vectors have a length. *)
Lemma Vec_Angle_defined (v w : gp_Vec) :
  Modulus v > Resolution -> Modulus w > Resolution ->
  Vec_Angle v w = Some (acos (Dot v w / (Modulus v * Modulus w))).
Proof.
  intros Hv Hw. unfold Vec_Angle.
  rewrite (proj2 (Rleb_false _ _) Hv), (proj2 (Rleb_false _ _) Hw).
  cbn [orb]. unfold Dir_Angle.
  pose proof Resolution_pos.
  rewrite Dot_normalized by lra. reflexivity.
Qed.

Lemma acos_minus_1 : acos (-1) = PI.
Proof.
  replace (-1) with (- (1)) by lra.
  rewrite acos_opp, acos_1. lra.
Qed.

Lemma ten_degrees : 0 < 10.0 * PI / 180.0 < PI / 2.
Proof. pose proof PI_RGT_0. lra. Qed.

(** [gp_Vec::IsNormal] on a defined angle: the distance of the angle to
    the right angle against the tolerance. *)
Lemma Vec_IsNormal_defined (v w : gp_Vec) (a theTol : R) :
  Vec_Angle v w = Some a ->
  Vec_IsNormal v w theTol = Some (Rleb (Rabs (PI / 2 - a)) theTol).
Proof.
  intros E. unfold Vec_IsNormal. rewrite E. f_equal. f_equal.
  unfold Rabs, Rltb.
  destruct (Rlt_dec (PI / 2 - a) 0), (Rcase_abs (PI / 2 - a)); lra.
Qed.

(** *** The filter of picking rays *)

Lemma isValidRay_not_point owner theMgr :
  GetActiveSelectionType theMgr <> Point ->
  isValidRay owner theMgr = Some false.
Proof.
  intros H. unfold isValidRay.
  destruct (GetActiveSelectionType theMgr); [contradiction | | |]; reflexivity.
Qed.

Lemma isValidRay_cube_owner anOwner theMgr a :
  GetActiveSelectionType theMgr = Point ->
  Vec_Angle (Vec_of_points (GetNearPickedPnt theMgr) (GetFarPickedPnt theMgr))
            (GetProjAxis (MainOrientation anOwner)) = Some a ->
  isValidRay (Some (CubeOwner anOwner)) theMgr
  = Some (Rgtb (Rabs (PI / 2 - a)) (10.0 * PI / 180.0)).
Proof.
  intros HP HA. unfold isValidRay. rewrite HP. cbn [isPoint negb].
  cbn [dynamic_cast_ViewCubeOwner].
  rewrite (Vec_IsNormal_defined _ _ a _ HA). cbn [bind]. f_equal.
  unfold Rleb, Rgtb.
  destruct (Rle_dec _ _), (Rgt_dec _ _); try reflexivity; lra.
Qed.

(** The angle of a ray along the axis, in either sense, is 0 or PI. *)
Lemma Vec_Angle_parallel (aDir : gp_Dir) (k : R) :
  Modulus aDir = 1 -> Rabs k > Resolution ->
  Vec_Angle (Multiplied aDir k) aDir = Some 0
  \/ Vec_Angle (Multiplied aDir k) aDir = Some PI.
Proof.
  intros H1 Hk. pose proof Resolution_pos as HR.
  assert (Hm : Modulus (Multiplied aDir k) = Rabs k)
    by (rewrite Modulus_Multiplied, H1; ring).
  rewrite Vec_Angle_defined
    by (rewrite ?Hm, ?H1; pose proof Resolution_small; lra).
  rewrite Hm, H1.
  assert (HD : Dot (Multiplied aDir k) aDir = k).
  { pose proof (Modulus_sq aDir) as Hs. rewrite H1 in Hs.
    unfold Dot in *. unfold Multiplied; cbn [cX cY cZ].
    replace (cX aDir * k * cX aDir + cY aDir * k * cY aDir
             + cZ aDir * k * cZ aDir)
      with (k * (cX aDir * cX aDir + cY aDir * cY aDir + cZ aDir * cZ aDir))
      by ring.
    rewrite <- Hs. ring. }
  rewrite HD. unfold Rabs in *. destruct (Rcase_abs k).
  - right. replace (k / (- k * 1)) with (-1) by (field; lra).
    now rewrite acos_minus_1.
  - left. replace (k / (k * 1)) with 1 by (field; lra).
    now rewrite acos_1.
Qed.

Lemma Vec_Angle_perpendicular (aRay : gp_Vec) (aDir : gp_Dir) :
  Modulus aDir = 1 -> Modulus aRay > Resolution -> Dot aRay aDir = 0 ->
  Vec_Angle aRay aDir = Some (PI / 2).
Proof.
  intros H1 HR H0. pose proof Resolution_small.
  rewrite Vec_Angle_defined by (rewrite ?H1; lra).
  rewrite H0. unfold Rdiv. rewrite Rmult_0_l. now rewrite acos_0.
Qed.

(** C4: on a part of the view cube (the owner is an [AIS_ViewCubeOwner]),
    a query that is not a point pick is rejected; a point pick is accepted
    exactly when the angle of its ray to the projection axis of the part
    is more than 10 degrees away from the right angle, so a ray within 10
    degrees of the perpendicular (the bound included) is rejected, a ray
    perpendicular to the axis is rejected and a ray along the axis is
    accepted; the triangles are tested only for an accepted ray. *)
Theorem isValidRay_angle_filter
  (Select3D_Matches : SelectingVolumeManager -> bool)
  (anOwner : AIS_ViewCubeOwner) (theMgr : SelectingVolumeManager) :
  let myOwnerId := Some (CubeOwner anOwner) in
  let aRay :=
    Vec_of_points (GetNearPickedPnt theMgr) (GetFarPickedPnt theMgr) in
  let aDir := GetProjAxis (MainOrientation anOwner) in
  (GetActiveSelectionType theMgr <> Point ->
   isValidRay myOwnerId theMgr = Some false)
  /\ (GetActiveSelectionType theMgr = Point ->
      forall a, Vec_Angle aRay aDir = Some a ->
        (Rabs (PI / 2 - a) <= 10 * PI / 180 ->
         isValidRay myOwnerId theMgr = Some false)
        /\ (Rabs (PI / 2 - a) > 10 * PI / 180 ->
            isValidRay myOwnerId theMgr = Some true))
  /\ (GetActiveSelectionType theMgr = Point ->
      Modulus aRay > Resolution -> Dot aRay aDir = 0 ->
      isValidRay myOwnerId theMgr = Some false)
  /\ (GetActiveSelectionType theMgr = Point ->
      forall k, Rabs k > Resolution -> aRay = Multiplied aDir k ->
        isValidRay myOwnerId theMgr = Some true)
  /\ (isValidRay myOwnerId theMgr = Some false ->
      Matches Select3D_Matches myOwnerId theMgr = Some false)
  /\ (isValidRay myOwnerId theMgr = Some true ->
      Matches Select3D_Matches myOwnerId theMgr
      = Some (Select3D_Matches theMgr))
  /\ (Matches Select3D_Matches myOwnerId theMgr = Some true ->
      isValidRay myOwnerId theMgr = Some true).
Proof.
  intros myOwnerId aRay aDir.
  pose proof ten_degrees as [T0 T1].
  assert (Hbound : GetActiveSelectionType theMgr = Point ->
                   forall a, Vec_Angle aRay aDir = Some a ->
                     (Rabs (PI / 2 - a) <= 10 * PI / 180 ->
                      isValidRay myOwnerId theMgr = Some false)
                     /\ (Rabs (PI / 2 - a) > 10 * PI / 180 ->
                         isValidRay myOwnerId theMgr = Some true)).
  { intros HP a HA. unfold myOwnerId.
    rewrite (isValidRay_cube_owner anOwner theMgr a HP HA). split; intros H.
    - f_equal. apply Rgtb_false. lra.
    - f_equal. apply Rgtb_true. lra. }
  split; [apply isValidRay_not_point |].
  split; [exact Hbound |].
  split; [| split; [| split; [| split]]].
  - intros HP HR H0.
    pose proof (Vec_Angle_perpendicular aRay aDir
                  (Modulus_GetProjAxis _) HR H0) as HA.
    apply (Hbound HP _ HA).
    replace (PI / 2 - PI / 2) with 0 by ring. rewrite Rabs_R0. lra.
  - intros HP k Hk Hray.
    destruct (Vec_Angle_parallel aDir k (Modulus_GetProjAxis _) Hk)
      as [HA | HA];
      rewrite <- Hray in HA; apply (Hbound HP _ HA).
    + replace (PI / 2 - 0) with (PI / 2) by ring.
      rewrite Rabs_right; lra.
    + replace (PI / 2 - PI) with (- (PI / 2)) by field.
      rewrite Rabs_Ropp, Rabs_right; lra.
  - intros E. unfold Matches. rewrite E. reflexivity.
  - intros E. unfold Matches. rewrite E. reflexivity.
  - unfold Matches. destruct (isValidRay myOwnerId theMgr) as [[|]|];
      cbn; intros E; [reflexivity | discriminate | discriminate].
Qed.

(** C10: the angle filter is applied to the owners that are
    [AIS_ViewCubeOwner] only: a point pick on any other owner (or on no
    owner) is accepted whatever its ray, while a query that is not a
    point pick is rejected on every owner. *)
Theorem isValidRay_other_owner
  (myOwnerId : option SelectMgr_EntityOwner)
  (theMgr : SelectingVolumeManager) :
  (GetActiveSelectionType theMgr <> Point ->
   isValidRay myOwnerId theMgr = Some false)
  /\ (GetActiveSelectionType theMgr = Point ->
      dynamic_cast_ViewCubeOwner myOwnerId = None ->
      isValidRay myOwnerId theMgr = Some true)
  /\ (forall anOwner, myOwnerId = Some (CubeOwner anOwner) ->
      dynamic_cast_ViewCubeOwner myOwnerId = Some anOwner)
  /\ (myOwnerId = Some OtherOwner \/ myOwnerId = None ->
      dynamic_cast_ViewCubeOwner myOwnerId = None).
Proof.
  split; [apply isValidRay_not_point |]. split; [| split].
  - intros HP HN. unfold isValidRay. rewrite HP, HN. reflexivity.
  - intros anOwner ->. reflexivity.
  - intros [-> | ->]; reflexivity.
Qed.

(** *** The two states of the camera animation *)

Lemma nbFinished_emit (e : Event) (self : AIS_ViewCube) :
  nbFinished (emit e self)
  = (nbFinished self
     + match e with onAnimationFinished => 1 | _ => 0 end)%nat.
Proof.
  unfold nbFinished, emit; cbn [myEvents set_myEvents].
  rewrite filter_app, length_app. destruct e; reflexivity.
Qed.

Lemma UpdateAnimation_idle theToUpdate aPts self :
  HasAnimation self = false ->
  UpdateAnimation theToUpdate aPts self = (false, self).
Proof. intros H. unfold UpdateAnimation. now rewrite H. Qed.

Lemma UpdateAnimation_running theToUpdate aPts self :
  HasAnimation self = true -> aPts < myDuration self ->
  exists self',
    UpdateAnimation theToUpdate aPts self = (true, self')
    /\ HasAnimation self' = true
    /\ myDuration self' = myDuration self
    /\ myViewAnimation self' = myViewAnimation self
    /\ nbFinished self' = nbFinished self.
Proof.
  intros HA Hlt. unfold UpdateAnimation, updateAnimation.
  rewrite HA. cbn [negb].
  rewrite (proj2 (Rgeb_false _ _) Hlt). cbn [negb].
  eexists. split; [reflexivity |].
  destruct theToUpdate, (View (myViewAnimation self)) as [v |];
    try destruct (IsInvalidated v);
    repeat rewrite nbFinished_emit; cbn; rewrite ?Nat.add_0_r; auto.
Qed.

Lemma UpdateAnimation_finishing theToUpdate aPts self :
  HasAnimation self = true -> aPts >= myDuration self ->
  exists self',
    UpdateAnimation theToUpdate aPts self = (false, self')
    /\ HasAnimation self' = false
    /\ View (myViewAnimation self') = None
    /\ myEvents self' = myEvents self ++ [onAnimationFinished]
    /\ nbFinished self' = S (nbFinished self).
Proof.
  intros HA Hge. unfold UpdateAnimation, updateAnimation.
  rewrite HA. cbn [negb].
  rewrite (proj2 (Rgeb_true _ _) Hge). cbn [negb].
  eexists. split; [reflexivity |].
  repeat split; try reflexivity.
  unfold nbFinished; cbn [myEvents set_myEvents set_myViewAnimation emit].
  rewrite filter_app, length_app. cbn. lia.
Qed.

Lemma ticks_idle theToUpdate thePts self :
  HasAnimation self = false ->
  ticks theToUpdate thePts self = (repeat false (length thePts), self).
Proof.
  intros H. induction thePts as [| aPts rest IH]; [reflexivity |].
  cbn [ticks]. rewrite (UpdateAnimation_idle _ _ _ H), IH. reflexivity.
Qed.

Lemma ticks_all_below theToUpdate thePts : forall self,
  HasAnimation self = true ->
  Forall (fun aPts => aPts < myDuration self) thePts ->
  exists self',
    ticks theToUpdate thePts self = (repeat true (length thePts), self')
    /\ HasAnimation self' = true
    /\ myDuration self' = myDuration self
    /\ nbFinished self' = nbFinished self.
Proof.
  induction thePts as [| aPts rest IH]; intros self HA HF.
  - exists self. cbn. auto.
  - inversion HF as [| ? ? Hlt HF']; subst.
    destruct (UpdateAnimation_running theToUpdate aPts self HA Hlt)
      as (s1 & E1 & HA1 & HD1 & _ & HN1).
    rewrite <- HD1 in HF'.
    destruct (IH s1 HA1 HF') as (s2 & E2 & HA2 & HD2 & HN2).
    exists s2. cbn [ticks length repeat]. rewrite E1, E2.
    repeat split; congruence.
Qed.

Lemma ticks_reaching theToUpdate thePts : forall self,
  HasAnimation self = true ->
  Exists (fun aPts => aPts >= myDuration self) thePts ->
  exists rs self',
    ticks theToUpdate thePts self = (rs, self')
    /\ HasAnimation self' = false
    /\ View (myViewAnimation self') = None
    /\ nbFinished self' = S (nbFinished self).
Proof.
  induction thePts as [| aPts rest IH]; intros self HA HE.
  - inversion HE.
  - cbn [ticks].
    destruct (Rge_dec aPts (myDuration self)) as [Hge | Hlt].
    + destruct (UpdateAnimation_finishing theToUpdate aPts self HA Hge)
        as (s1 & E1 & HA1 & HV1 & _ & HN1).
      rewrite E1, (ticks_idle _ _ _ HA1).
      exists (false :: repeat false (length rest)), s1. auto.
    + assert (Hlt' : aPts < myDuration self) by lra.
      destruct (UpdateAnimation_running theToUpdate aPts self HA Hlt')
        as (s1 & E1 & HA1 & HD1 & _ & HN1).
      assert (HE' : Exists (fun p => p >= myDuration s1) rest).
      { rewrite HD1. inversion HE; subst; [contradiction | assumption]. }
      destruct (IH s1 HA1 HE') as (rs & s2 & E2 & HA2 & HV2 & HN2).
      rewrite E1, E2. exists (true :: rs), s2. repeat split; congruence.
Qed.

Lemma Forall_or_Exists_duration (d : R) (l : list R) :
  Forall (fun aPts => aPts < d) l \/ Exists (fun aPts => aPts >= d) l.
Proof.
  induction l as [| x l IH]; [left; constructor |].
  destruct (Rge_dec x d) as [H | H]; [right; now constructor |].
  destruct IH as [IH | IH]; [left; constructor; [lra | assumption] |].
  right. now apply Exists_cons_tl.
Qed.

Lemma StartAnimation_starts SetProj FitAllBox FitAll theContext anOwner aView
  self :
  LastActiveView theContext = Some aView ->
  let self' :=
    StartAnimation SetProj FitAllBox FitAll theContext (Some anOwner) self in
  HasAnimation self' = true
  /\ View (myViewAnimation self') = Some aView
  /\ myStartState self' = Camera aView
  /\ myEndState self'
     = endPose SetProj FitAllBox FitAll self theContext aView anOwner
  /\ myDuration self' = myDuration self
  /\ myEvents self' = myEvents self.
Proof.
  intros HV self'. unfold self', StartAnimation. rewrite HV.
  repeat split; reflexivity.
Qed.

(** C5: the widget is idle out of its constructor; a reorientation request
    with an owner and an active view makes it animating; while animating,
    a tick whose elapsed time is below the duration returns true, leaves
    it animating and fires no "finished"; a tick whose elapsed time
    reaches the duration returns false, stops the animation, fires
    "finished" once and detaches the view; an idle widget ignores ticks.
    So over any run of ticks "finished" is fired once, by the first tick
    that reaches the duration, and never while the animation is still
    running. *)
Theorem animation_two_states
  (SetProj : Graphic3d_Camera -> V3d_TypeOfOrientation -> bool
             -> Graphic3d_Camera)
  (FitAllBox : Graphic3d_Camera -> Bnd_Box -> R -> Graphic3d_Camera)
  (FitAll : Graphic3d_Camera -> R -> Graphic3d_Camera) :
  (forall theCamera, HasAnimation (newViewCube theCamera) = false)
  /\ (forall theContext anOwner aView self,
        LastActiveView theContext = Some aView ->
        let self' :=
          StartAnimation SetProj FitAllBox FitAll theContext (Some anOwner)
            self in
        HasAnimation self' = true
        /\ View (myViewAnimation self') = Some aView
        /\ myEvents self' = myEvents self)
  /\ (forall theToUpdate aPts self,
        HasAnimation self = true -> aPts < myDuration self ->
        exists self',
          UpdateAnimation theToUpdate aPts self = (true, self')
          /\ HasAnimation self' = true
          /\ nbFinished self' = nbFinished self)
  /\ (forall theToUpdate aPts self,
        HasAnimation self = true -> aPts >= myDuration self ->
        exists self',
          UpdateAnimation theToUpdate aPts self = (false, self')
          /\ HasAnimation self' = false
          /\ View (myViewAnimation self') = None
          /\ myEvents self' = myEvents self ++ [onAnimationFinished]
          /\ nbFinished self' = S (nbFinished self))
  /\ (forall theToUpdate aPts self,
        HasAnimation self = false ->
        UpdateAnimation theToUpdate aPts self = (false, self))
  /\ (forall theToUpdate thePts self,
        HasAnimation self = true ->
        exists rs self',
          ticks theToUpdate thePts self = (rs, self')
          /\ (Forall (fun aPts => aPts < myDuration self) thePts ->
              rs = repeat true (length thePts)
              /\ HasAnimation self' = true
              /\ nbFinished self' = nbFinished self)
          /\ (Exists (fun aPts => aPts >= myDuration self) thePts ->
              HasAnimation self' = false
              /\ View (myViewAnimation self') = None
              /\ nbFinished self' = S (nbFinished self))
          /\ (HasAnimation self' = true ->
              nbFinished self' = nbFinished self)).
Proof.
  split; [reflexivity |].
  split.
  { intros theContext anOwner aView self HV.
    destruct (StartAnimation_starts SetProj FitAllBox FitAll theContext
                anOwner aView self HV) as (H1 & H2 & _ & _ & _ & H6).
    auto. }
  split.
  { intros theToUpdate aPts self HA Hlt.
    destruct (UpdateAnimation_running theToUpdate aPts self HA Hlt)
      as (s1 & E & H1 & _ & _ & H2).
    exists s1. auto. }
  split; [exact UpdateAnimation_finishing |].
  split; [exact UpdateAnimation_idle |].
  intros theToUpdate thePts self HA.
  destruct (Forall_or_Exists_duration (myDuration self) thePts) as [HF | HE].
  - destruct (ticks_all_below theToUpdate thePts self HA HF)
      as (s1 & E & H1 & _ & H2).
    exists (repeat true (length thePts)), s1.
    split; [exact E |]. split; [auto |]. split; [| auto].
    intros HE. exfalso.
    apply Exists_exists in HE. destruct HE as (x & Hin & Hx).
    rewrite Forall_forall in HF. specialize (HF x Hin). cbn in HF. lra.
  - destruct (ticks_reaching theToUpdate thePts self HA HE)
      as (rs & s1 & E & H1 & H2 & H3).
    exists rs, s1.
    split; [exact E |]. split; [| split; [auto |]].
    + intros HF. exfalso.
      apply Exists_exists in HE. destruct HE as (x & Hin & Hx).
      rewrite Forall_forall in HF. specialize (HF x Hin). cbn in HF. lra.
    + intros HA'. congruence.
Qed.

(** *** The up vector closest to the previous one *)

Section ClosestUp.

Variable anOldUp : gp_Dir.

Let angle (u : gp_Dir) : R := Dir_Angle u anOldUp.

Let step (best : R * gp_Dir) (anUp : gp_Dir) : R * gp_Dir :=
  let '(aBestAngle, anUpBest) := best in
  if Rgtb aBestAngle (angle anUp) then (angle anUp, anUp)
  else (aBestAngle, anUpBest).

Lemma closestUpLoop_invariant (b0 : R) (u0 : gp_Dir) (l : list gp_Dir) :
  loopInvariant anOldUp b0 u0 l (fold_left step l (b0, u0)).
Proof.
  induction l as [| x l IH] using rev_ind.
  - left. split; [reflexivity | intros u []].
  - rewrite fold_left_app. cbn [fold_left].
    destruct (fold_left step l (b0, u0)) as [b u] eqn:E.
    unfold step at 1. fold (angle x). unfold angle.
    destruct (Rgtb b (Dir_Angle x anOldUp)) eqn:G.
    + apply Rgtb_true in G. right. exists (length l). cbn [fst snd].
      assert (Hprev : forall j v, nth_error l j = Some v ->
                                  Dir_Angle x anOldUp < Dir_Angle v anOldUp).
      { intros j v Hj.
        destruct IH as [[Hb Hall] | (i & _ & Hfst & _ & Hall & _)].
        - inversion Hb; subst. specialize (Hall v (nth_error_In _ _ Hj)). lra.
        - cbn [fst snd] in *. specialize (Hall j v Hj). lra. }
      assert (Hb0 : Dir_Angle x anOldUp < b0).
      { destruct IH as [[Hb _] | (i & _ & _ & Hlt & _)].
        - inversion Hb; subst. lra.
        - cbn [fst] in Hlt. lra. }
      split; [| split; [reflexivity | split; [exact Hb0 | split]]].
      * rewrite nth_error_app2 by lia. now rewrite Nat.sub_diag.
      * intros j v Hj.
        destruct (Nat.lt_ge_cases j (length l)) as [Hlt | Hge].
        -- rewrite nth_error_app1 in Hj by exact Hlt.
           specialize (Hprev j v Hj). lra.
        -- rewrite nth_error_app2 in Hj by exact Hge.
           destruct (j - length l)%nat as [| k]; cbn in Hj.
           ++ inversion Hj; subst. lra.
           ++ destruct k; discriminate.
      * intros j v Hjlt Hj. rewrite nth_error_app1 in Hj by exact Hjlt.
        exact (Hprev j v Hj).
    + apply Rgtb_false in G.
      destruct IH as [[Hb Hall] | (i & Hnth & Hfst & Hlt & Hall & Hfirst)].
      * left. split; [exact Hb |]. inversion Hb; subst.
        intros v Hin. apply in_app_or in Hin. destruct Hin as [Hin | [-> | []]].
        -- exact (Hall v Hin).
        -- exact G.
      * right. exists i. cbn [fst snd] in *.
        assert (Hi : (i < length l)%nat)
          by (apply nth_error_Some; congruence).
        split; [| split; [exact Hfst | split; [exact Hlt | split]]].
        -- rewrite nth_error_app1 by exact Hi. exact Hnth.
        -- intros j v Hj.
           destruct (Nat.lt_ge_cases j (length l)) as [Hjl | Hge].
           ++ rewrite nth_error_app1 in Hj by exact Hjl. exact (Hall j v Hj).
           ++ rewrite nth_error_app2 in Hj by exact Hge.
              destruct (j - length l)%nat as [| k]; cbn in Hj.
              ** inversion Hj; subst. exact G.
              ** destruct k; discriminate.
        -- intros j v Hji Hj.
           rewrite nth_error_app1 in Hj by lia. exact (Hfirst j v Hji Hj).
Qed.

End ClosestUp.

Lemma Dir_Angle_below_Infinite (u v : gp_Dir) : Dir_Angle u v < Infinite.
Proof.
  unfold Dir_Angle, Infinite.
  pose proof (acos_bound (Dot u v)). pose proof PI_4. lra.
Qed.

(** The loop over a list that is not empty ends on the first candidate
    of least angle to the old up vector. *)
Lemma closestUpLoop_first_least (anUpList : list gp_Dir) (anOldUp : gp_Dir) :
  anUpList <> [] ->
  exists i,
    nth_error anUpList i = Some (snd (closestUpLoop anUpList anOldUp))
    /\ (forall j u, nth_error anUpList j = Some u ->
          Dir_Angle (snd (closestUpLoop anUpList anOldUp)) anOldUp
          <= Dir_Angle u anOldUp)
    /\ (forall j u, (j < i)%nat -> nth_error anUpList j = Some u ->
          Dir_Angle (snd (closestUpLoop anUpList anOldUp)) anOldUp
          < Dir_Angle u anOldUp).
Proof.
  intros Hne.
  pose proof (closestUpLoop_invariant anOldUp Infinite (mkXYZ 1 0 0) anUpList)
    as Hinv.
  unfold closestUpLoop.
  match type of Hinv with
  | loopInvariant _ _ _ _ ?r =>
      match goal with
      | |- context [fold_left ?f _ _] =>
          change (fold_left f anUpList (Infinite, mkXYZ 1 0 0)) with r
      end
  end.
  destruct Hinv as [[_ Hall] | (i & Hnth & Hfst & _ & Hleast & Hfirst)].
  - destruct anUpList as [| u l]; [contradiction |].
    specialize (Hall u (or_introl eq_refl)).
    pose proof (Dir_Angle_below_Infinite u anOldUp). lra.
  - exists i. rewrite <- Hfst. auto.
Qed.

(** C1, as the code has it: on a reorientation request without the
    always-reset-up policy, when the new view direction differs from the
    direction of the previous camera, the up vector of the end pose is
    one of the 4 candidates (the up vector of the new orientation turned by
    0, 90, 180, 270 degrees about the new view direction), its angle to
    the previous up vector is no greater than that of any candidate, and
    strictly smaller than that of every candidate before it in the list
    (the first found wins a tie); when the new view direction equals the
    previous one within [Precision::Angular()], the up vector of the new
    orientation is kept as it is. *)
Theorem StartAnimation_closest_up
  (SetProj : Graphic3d_Camera -> V3d_TypeOfOrientation -> bool
             -> Graphic3d_Camera)
  (FitAllBox : Graphic3d_Camera -> Bnd_Box -> R -> Graphic3d_Camera)
  (FitAll : Graphic3d_Camera -> R -> Graphic3d_Camera)
  (theContext : AIS_InteractiveContext) (anOwner : AIS_ViewCubeOwner)
  (aView : V3d_View) (self : AIS_ViewCube) :
  (forall c b m, Up (FitAllBox c b m) = Up c) ->
  (forall c m, Up (FitAll c m) = Up c) ->
  LastActiveView theContext = Some aView ->
  myToResetCameraUp self = false ->
  let aCamera :=
    SetProj (Camera aView) (MainOrientation anOwner) (myIsYup self) in
  let aNewDir := Direction aCamera in
  let anOldUp := Up (Camera aView) in
  let anUpList :=
    [ Up aCamera;
      Dir_Rotated (Up aCamera) aNewDir (PI / 2);
      Dir_Rotated (Up aCamera) aNewDir PI;
      Dir_Rotated (Up aCamera) aNewDir (PI * 1.5) ] in
  let anUp :=
    Up (myEndState (StartAnimation SetProj FitAllBox FitAll theContext
                      (Some anOwner) self)) in
  (Dir_IsEqual aNewDir (Direction (Camera aView)) Angular = false ->
   exists i,
     nth_error anUpList i = Some anUp
     /\ (forall j u, nth_error anUpList j = Some u ->
           Dir_Angle anUp anOldUp <= Dir_Angle u anOldUp)
     /\ (forall j u, (j < i)%nat -> nth_error anUpList j = Some u ->
           Dir_Angle anUp anOldUp < Dir_Angle u anOldUp))
  /\ (Dir_IsEqual aNewDir (Direction (Camera aView)) Angular = true ->
      anUp = Up aCamera)
  /\ Dir_Rotated (Up aCamera) aNewDir 0 = Up aCamera.
Proof.
  intros HFB HF HV Hreset aCamera aNewDir anOldUp anUpList anUp.
  assert (H0 : Dir_Rotated (Up aCamera) aNewDir 0 = Up aCamera).
  { unfold Dir_Rotated. rewrite cos_0, sin_0.
    destruct (Up aCamera) as [ux uy uz], aNewDir as [kx ky kz].
    unfold Added, Multiplied, Crossed, Dot; cbn [cX cY cZ].
    f_equal; ring. }
  assert (E : anUp
              = Up (if negb (Dir_IsEqual aNewDir (Direction (Camera aView))
                               Angular)
                    then SetUp (snd (closestUpLoop anUpList anOldUp)) aCamera
                    else aCamera)).
  { unfold anUp.
    destruct (StartAnimation_starts SetProj FitAllBox FitAll theContext
                anOwner aView self HV) as (_ & _ & _ & -> & _).
    unfold endPose. cbn [myToResetCameraUp myIsYup myToFitSelected
                           set_myStartState].
    rewrite Hreset. cbn [negb andb].
    fold aCamera. fold aNewDir. fold anOldUp.
    change (upCandidates (Up aCamera) aNewDir) with anUpList.
    destruct (negb (IsVoid _)); [rewrite HFB | rewrite HF]; reflexivity. }
  split; [| split; [| exact H0]]; intros HE; rewrite E, HE; cbn [negb].
  - cbn [Up SetUp].
    apply closestUpLoop_first_least. discriminate.
  - reflexivity.
Qed.

(** *** The request on concrete views *)

Lemma xyz_eq (a b c a' b' c' : R) :
  a = a' -> b = b' -> c = c' -> mkXYZ a b c = mkXYZ a' b' c'.
Proof. now intros -> -> ->. Qed.

Lemma normalized_unit (x y z : R) :
  x * x + y * y + z * z = 1 -> normalized x y z = mkXYZ x y z.
Proof.
  intros H. unfold normalized. rewrite H, sqrt_1.
  apply xyz_eq; field.
Qed.

Lemma GetProjAxis_Yneg : GetProjAxis V3d_Yneg = mkXYZ 0 (-1) 0.
Proof. unfold GetProjAxis, projSigns. apply normalized_unit. lra. Qed.

Lemma GetProjAxis_Xpos : GetProjAxis V3d_Xpos = mkXYZ 1 0 0.
Proof. unfold GetProjAxis, projSigns. apply normalized_unit. lra. Qed.

(** [SetProj] to the front view from a camera that already looks along
    +Y: the direction stays +Y, the up vector becomes +Z. *)
Lemma SetProj_spec_front (c : Graphic3d_Camera) :
  Direction (SetProj_spec c V3d_Yneg false) = DY
  /\ Up (SetProj_spec c V3d_Yneg false) = DZ.
Proof.
  unfold SetProj_spec. cbn [Direction Up canonicalUp].
  rewrite GetProjAxis_Yneg. split.
  - unfold Reversed, DY; cbn [cX cY cZ]. apply xyz_eq; lra.
  - unfold Reversed, Crossed, DZ; cbn [cX cY cZ].
    rewrite normalized_unit by lra. apply xyz_eq; lra.
Qed.

(** [SetProj] to the right view: the camera looks along -X, +Z is up. *)
Lemma SetProj_spec_right (c : Graphic3d_Camera) :
  Direction (SetProj_spec c V3d_Xpos false) = mkXYZ (-1) 0 0
  /\ Up (SetProj_spec c V3d_Xpos false) = DZ.
Proof.
  unfold SetProj_spec. cbn [Direction Up canonicalUp].
  rewrite GetProjAxis_Xpos. split.
  - unfold Reversed; cbn [cX cY cZ]. apply xyz_eq; lra.
  - unfold Reversed, Crossed, DZ; cbn [cX cY cZ].
    rewrite normalized_unit by lra. apply xyz_eq; lra.
Qed.

Lemma Dir_Angle_DZ_DX : Dir_Angle DZ DX = PI / 2.
Proof.
  unfold Dir_Angle, Dot, DZ, DX; cbn [cX cY cZ].
  replace (0 * 1 + 0 * 0 + 1 * 0) with 0 by lra. apply acos_0.
Qed.

Lemma Dir_Angle_DX_DX : Dir_Angle DX DX = 0.
Proof.
  unfold Dir_Angle, Dot, DX; cbn [cX cY cZ].
  replace (1 * 1 + 0 * 0 + 0 * 0) with 1 by lra. apply acos_1.
Qed.

Lemma Dir_Rotated_DZ_about_DY : Dir_Rotated DZ DY (PI / 2) = DX.
Proof.
  unfold Dir_Rotated. rewrite cos_PI2, sin_PI2.
  unfold Added, Multiplied, Crossed, Dot, DX, DY, DZ; cbn [cX cY cZ].
  apply xyz_eq; lra.
Qed.

(** C1, as the specification words it, does not hold: the always-reset-up
    policy is not
    set, the view looks along +Y with +X up, and the front side (which
    also looks along +Y) is requested.  The end pose gets the up vector +Z
    of the front view, at a right angle to the previous up vector, while
    the candidate turned by 90 degrees is the previous up vector itself,
    at angle 0. *)
Lemma StartAnimation_same_direction_resets_up :
  myToResetCameraUp sampleViewCube = false
  /\ Up (myEndState frontRequest) = DZ
  /\ Dir_Angle (Up (myEndState frontRequest)) (Up rolledCamera) = PI / 2
  /\ nth_error (upCandidates (Up frontCamera) (Direction frontCamera)) 1
     = Some (Dir_Rotated (Up frontCamera) (Direction frontCamera) (PI / 2))
  /\ Dir_Angle (Dir_Rotated (Up frontCamera) (Direction frontCamera)
                  (PI / 2)) (Up rolledCamera) = 0
  /\ ~ (Dir_Angle (Up (myEndState frontRequest)) (Up rolledCamera)
        <= Dir_Angle (Dir_Rotated (Up frontCamera) (Direction frontCamera)
                        (PI / 2)) (Up rolledCamera)).
Proof.
  destruct (SetProj_spec_front rolledCamera) as [HD HU].
  fold frontCamera in HD, HU.
  assert (HEq : Dir_IsEqual (Direction frontCamera) (Direction rolledCamera)
                  Angular = true).
  { rewrite HD. unfold Dir_IsEqual. apply Rleb_true.
    unfold Dir_Angle, Dot, rolledCamera, DY, Angular; cbn [Direction cX cY cZ].
    replace (0 * 0 + 1 * 1 + 0 * 0) with 1 by lra. rewrite acos_1. lra. }
  assert (HUp : Up (myEndState frontRequest) = DZ).
  { unfold frontRequest, StartAnimation, rolledContext; cbn [LastActiveView].
    cbn [myEndState set_myEndState set_myViewAnimation].
    unfold endPose.
    cbn [Camera myIsYup myToResetCameraUp myToFitSelected
           BoundingBoxOfSelection sampleViewCube newViewCube set_myStartState
           MainOrientation IsVoid negb andb].
    fold frontCamera. rewrite HEq. cbn [negb].
    unfold FitAll_sample. cbn [Up]. exact HU. }
  assert (HA : Dir_Angle (Dir_Rotated (Up frontCamera) (Direction frontCamera)
                            (PI / 2)) (Up rolledCamera) = 0).
  { rewrite HD, HU, Dir_Rotated_DZ_about_DY. apply Dir_Angle_DX_DX. }
  split; [reflexivity |]. split; [exact HUp |].
  rewrite HUp. change (Up rolledCamera) with DX in *.
  rewrite Dir_Angle_DZ_DX. split; [reflexivity |].
  split; [reflexivity |]. split; [exact HA |].
  rewrite HA. pose proof PI_RGT_0. lra.
Qed.

Lemma StartAnimation_closest_up_witness :
  (exists i,
      nth_error (upCandidates (Up rightCamera) (Direction rightCamera)) i
      = Some (Up (myEndState startedViewCube))
      /\ (forall j u,
            nth_error (upCandidates (Up rightCamera) (Direction rightCamera))
              j = Some u ->
            Dir_Angle (Up (myEndState startedViewCube)) (Up sampleCamera)
            <= Dir_Angle u (Up sampleCamera))
      /\ (forall j u, (j < i)%nat ->
            nth_error (upCandidates (Up rightCamera) (Direction rightCamera))
              j = Some u ->
            Dir_Angle (Up (myEndState startedViewCube)) (Up sampleCamera)
            < Dir_Angle u (Up sampleCamera)))
  /\ Up (myEndState frontRequest) = Up frontCamera.
Proof.
  split.
  - refine (proj1 (StartAnimation_closest_up SetProj_spec FitAllBox_sample
                     FitAll_sample sampleContext (mkOwner V3d_Xpos)
                     (mkView sampleCamera true false) sampleViewCube
                     _ _ _ _) _).
    + reflexivity.
    + reflexivity.
    + reflexivity.
    + reflexivity.
    + cbn [Camera MainOrientation myIsYup sampleViewCube newViewCube].
      destruct (SetProj_spec_right sampleCamera) as [HD _]. rewrite HD.
      unfold Dir_IsEqual. apply Rleb_false.
      unfold Dir_Angle, Dot, sampleCamera, DY, Angular;
        cbn [Direction cX cY cZ].
      replace (-1 * 0 + 0 * 1 + 0 * 0) with 0 by lra. rewrite acos_0.
      pose proof PI2_1. lra.
  - refine (proj1 (proj2 (StartAnimation_closest_up SetProj_spec
                            FitAllBox_sample FitAll_sample rolledContext
                            (mkOwner V3d_Yneg)
                            (mkView rolledCamera true false) sampleViewCube
                            _ _ _ _)) _).
    + reflexivity.
    + reflexivity.
    + reflexivity.
    + reflexivity.
    + cbn [Camera MainOrientation myIsYup sampleViewCube newViewCube].
      destruct (SetProj_spec_front rolledCamera) as [HD _]. rewrite HD.
      unfold Dir_IsEqual. apply Rleb_true.
      unfold Dir_Angle, Dot, rolledCamera, DY, Angular;
        cbn [Direction cX cY cZ].
      replace (0 * 0 + 1 * 1 + 0 * 0) with 1 by lra. rewrite acos_1. lra.
Defined.

(** *** Examples of picks and ticks *)

Lemma isValidRay_angle_filter_witness :
  isValidRay rightSideOwner boxQuery = Some false
  /\ isValidRay rightSideOwner grazingPick = Some false
  /\ isValidRay rightSideOwner grazingPick = Some false
  /\ isValidRay rightSideOwner frontalPick = Some true
  /\ Matches (fun _ => true) rightSideOwner boxQuery = Some false
  /\ Matches (fun _ => true) rightSideOwner frontalPick = Some true.
Proof.
  set (myOwnerId := rightSideOwner).
  pose proof (isValidRay_angle_filter (fun _ => true) (mkOwner V3d_Xpos))
    as T.
  assert (HM : Modulus (Vec_of_points (GetNearPickedPnt grazingPick)
                          (GetFarPickedPnt grazingPick)) > Resolution).
  { unfold Modulus, Vec_of_points, Subtracted, grazingPick;
      cbn [GetNearPickedPnt GetFarPickedPnt cX cY cZ].
    replace ((0 - 0) * (0 - 0) + (5 - 0) * (5 - 0) + (0 - 0) * (0 - 0))
      with (5 * 5) by lra.
    rewrite sqrt_square by lra. pose proof Resolution_small. lra. }
  assert (HD : Dot (Vec_of_points (GetNearPickedPnt grazingPick)
                      (GetFarPickedPnt grazingPick))
                 (GetProjAxis (MainOrientation (mkOwner V3d_Xpos))) = 0).
  { cbn [MainOrientation]. rewrite GetProjAxis_Xpos.
    unfold Dot, Vec_of_points, Subtracted, grazingPick;
      cbn [GetNearPickedPnt GetFarPickedPnt cX cY cZ]. lra. }
  assert (HA : Vec_Angle (Vec_of_points (GetNearPickedPnt grazingPick)
                            (GetFarPickedPnt grazingPick))
                 (GetProjAxis (MainOrientation (mkOwner V3d_Xpos)))
               = Some (PI / 2)).
  { apply Vec_Angle_perpendicular;
      [apply Modulus_GetProjAxis | exact HM | exact HD]. }
  assert (HR : Vec_of_points (GetNearPickedPnt frontalPick)
                 (GetFarPickedPnt frontalPick)
               = Multiplied (GetProjAxis (MainOrientation (mkOwner V3d_Xpos)))
                   3).
  { unfold Vec_of_points, Subtracted, frontalPick, Multiplied;
      cbn [GetNearPickedPnt GetFarPickedPnt cX cY cZ MainOrientation].
    apply xyz_eq; lra. }
  assert (H3 : Rabs 3 > Resolution).
  { rewrite Rabs_right by lra. pose proof Resolution_small. lra. }
  assert (V1 : isValidRay myOwnerId boxQuery = Some false).
  { apply (proj1 (T boxQuery)). discriminate. }
  assert (V2 : isValidRay myOwnerId frontalPick = Some true).
  { apply (proj1 (proj2 (proj2 (proj2 (T frontalPick)))) eq_refl 3 H3 HR). }
  split; [exact V1 |].
  split.
  { apply (proj1 (proj1 (proj2 (T grazingPick)) eq_refl (PI / 2) HA)).
    replace (PI / 2 - PI / 2) with 0 by ring. rewrite Rabs_R0.
    pose proof PI_RGT_0. lra. }
  split.
  { apply (proj1 (proj2 (proj2 (T grazingPick))) eq_refl HM HD). }
  split; [exact V2 |].
  split.
  { apply (proj1 (proj2 (proj2 (proj2 (proj2 (T boxQuery))))) V1). }
  { exact (proj1 (proj2 (proj2 (proj2 (proj2 (proj2 (T frontalPick))))))
             V2). }
Defined.

Lemma isValidRay_other_owner_witness :
  isValidRay (Some OtherOwner) boxQuery = Some false
  /\ isValidRay (Some OtherOwner) grazingPick = Some true
  /\ isValidRay None grazingPick = Some true
  /\ dynamic_cast_ViewCubeOwner (Some (CubeOwner (mkOwner V3d_Xpos)))
     = Some (mkOwner V3d_Xpos)
  /\ dynamic_cast_ViewCubeOwner (Some OtherOwner) = None.
Proof.
  split.
  { apply (proj1 (isValidRay_other_owner (Some OtherOwner) boxQuery)).
    discriminate. }
  split.
  { apply (proj1 (proj2 (isValidRay_other_owner (Some OtherOwner)
                           grazingPick))); reflexivity. }
  split.
  { apply (proj1 (proj2 (isValidRay_other_owner None grazingPick)));
      reflexivity. }
  split.
  { apply (proj1 (proj2 (proj2 (isValidRay_other_owner
                    (Some (CubeOwner (mkOwner V3d_Xpos))) grazingPick)))).
    reflexivity. }
  { apply (proj2 (proj2 (proj2 (isValidRay_other_owner (Some OtherOwner)
                                  grazingPick)))).
    left; reflexivity. }
Defined.

Lemma startedViewCube_running :
  HasAnimation startedViewCube = true /\ myDuration startedViewCube = 0.5.
Proof. split; reflexivity. Qed.

Lemma animation_two_states_witness :
  HasAnimation startedViewCube = true
  /\ (exists self',
        UpdateAnimation true 0.25 startedViewCube = (true, self')
        /\ HasAnimation self' = true
        /\ nbFinished self' = nbFinished startedViewCube)
  /\ (exists self',
        UpdateAnimation true 0.5 startedViewCube = (false, self')
        /\ HasAnimation self' = false
        /\ View (myViewAnimation self') = None
        /\ myEvents self' = myEvents startedViewCube ++ [onAnimationFinished]
        /\ nbFinished self' = S (nbFinished startedViewCube))
  /\ UpdateAnimation true 0.25 sampleViewCube = (false, sampleViewCube)
  /\ (exists rs self',
        ticks true [0.125; 0.25; 0.625; 0.75] startedViewCube = (rs, self')
        /\ HasAnimation self' = false
        /\ View (myViewAnimation self') = None
        /\ nbFinished self' = S (nbFinished startedViewCube)).
Proof.
  pose proof (animation_two_states SetProj_spec FitAllBox_sample
                FitAll_sample) as (_ & T2 & T3 & T4 & T5 & T6).
  destruct startedViewCube_running as [HA HD].
  split.
  { apply (T2 sampleContext (mkOwner V3d_Xpos)
              (mkView sampleCamera true false) sampleViewCube eq_refl). }
  split.
  { apply (T3 true 0.25 startedViewCube HA). rewrite HD. lra. }
  split.
  { apply (T4 true 0.5 startedViewCube HA). rewrite HD. lra. }
  split.
  { apply (T5 true 0.25 sampleViewCube). reflexivity. }
  destruct (T6 true [0.125; 0.25; 0.625; 0.75] startedViewCube HA)
    as (rs & s1 & E & _ & HE & _).
  exists rs, s1. split; [exact E |].
  apply HE. rewrite HD.
  apply Exists_cons_tl, Exists_cons_tl, Exists_cons_hd. lra.
Defined.

(** *** Filling an array of triangles *)

Lemma AddVertex_ok (a : Graphic3d_ArrayOfTriangles) (p : gp_Pnt) :
  (VertexNumber a < maxVertexs a)%nat ->
  AddVertex a p
  = Some (mkArray (maxVertexs a) (maxEdges a)
            (vertices a ++ [mkVertex p None]) (edges a)).
Proof.
  intros H. unfold AddVertex.
  now rewrite (proj2 (Nat.ltb_lt _ _) H).
Qed.

Lemma AddEdge_ok (a : Graphic3d_ArrayOfTriangles) (i : nat) :
  (EdgeNumber a < maxEdges a)%nat -> (1 <= i <= VertexNumber a)%nat ->
  AddEdge a i
  = Some (mkArray (maxVertexs a) (maxEdges a) (vertices a) (edges a ++ [i])).
Proof.
  intros H [H1 H2]. unfold AddEdge.
  rewrite (proj2 (Nat.ltb_lt _ _) H), (proj2 (Nat.leb_le _ _) H1),
    (proj2 (Nat.leb_le _ _) H2). reflexivity.
Qed.

Lemma AddEdges_ok (a : Graphic3d_ArrayOfTriangles) (i1 i2 i3 : nat) :
  (EdgeNumber a + 3 <= maxEdges a)%nat ->
  (1 <= i1 <= VertexNumber a)%nat -> (1 <= i2 <= VertexNumber a)%nat ->
  (1 <= i3 <= VertexNumber a)%nat ->
  AddEdges a i1 i2 i3
  = Some (mkArray (maxVertexs a) (maxEdges a) (vertices a)
            (edges a ++ [i1; i2; i3])).
Proof.
  intros H H1 H2 H3. unfold AddEdges.
  rewrite AddEdge_ok by (try assumption; lia). cbn [bind].
  rewrite AddEdge_ok
    by (unfold EdgeNumber, VertexNumber in *; cbn [edges vertices maxEdges];
        rewrite ?length_app; cbn [length]; lia).
  cbn [bind].
  rewrite AddEdge_ok
    by (unfold EdgeNumber, VertexNumber in *; cbn [edges vertices maxEdges];
        rewrite ?length_app; cbn [length]; lia).
  cbn [maxVertexs maxEdges vertices edges].
  now rewrite <- !app_assoc.
Qed.

Lemma forM_AddVertex (f : nat -> gp_Pnt) (l : list nat) :
  forall a : Graphic3d_ArrayOfTriangles,
    (VertexNumber a + length l <= maxVertexs a)%nat ->
    forM l (fun aTris aNodeIter => AddVertex aTris (f aNodeIter)) a
    = Some (mkArray (maxVertexs a) (maxEdges a)
              (vertices a ++ map (fun i => mkVertex (f i) None) l)
              (edges a)).
Proof.
  induction l as [| i l IH]; intros a H; cbn [forM map length] in *.
  - rewrite app_nil_r. now destruct a.
  - rewrite AddVertex_ok by lia. cbn [bind].
    rewrite IH
      by (unfold VertexNumber in *; cbn [vertices maxVertexs];
          rewrite length_app; cbn [length]; lia).
    cbn [maxVertexs maxEdges vertices edges].
    now rewrite <- app_assoc.
Qed.

Lemma addArc_ok cx cy aRadius theStart theEnd theTrsf
  (a : Graphic3d_ArrayOfTriangles) :
  (VertexNumber a + (THE_NB_ROUND_SPLITS + 1) <= maxVertexs a)%nat ->
  addArc cx cy aRadius theStart theEnd theTrsf a
  = Some (mkArray (maxVertexs a) (maxEdges a)
            (vertices a
             ++ map (fun p => mkVertex (Pnt_Transformed p theTrsf) None)
                  (map (arcPoint cx cy aRadius theStart theEnd)
                     (seq 0 (THE_NB_ROUND_SPLITS + 1))))
            (edges a)).
Proof.
  intros H. unfold addArc.
  rewrite (forM_AddVertex
             (fun i => Pnt_Transformed
                         (arcPoint cx cy aRadius theStart theEnd i) theTrsf))
    by (rewrite length_seq; exact H).
  now rewrite map_map.
Qed.

Lemma forM_fan (l : list nat) :
  forall a : Graphic3d_ArrayOfTriangles,
    (EdgeNumber a + 3 * length l <= maxEdges a)%nat ->
    Forall (fun k => 2 <= k <= VertexNumber a)%nat l ->
    forM l
      (fun aTris aNodeIter =>
         aTris <- AddEdge aTris 1 ;;
         aTris <- AddEdge aTris (aNodeIter - 1) ;;
         AddEdge aTris aNodeIter) a
    = Some (mkArray (maxVertexs a) (maxEdges a) (vertices a)
              (edges a
               ++ flat_map (fun k => [1; k - 1; k])%nat l)).
Proof.
  induction l as [| k l IH]; intros a H HF; cbn [forM flat_map length] in *.
  - rewrite app_nil_r. now destruct a.
  - inversion HF as [| ? ? Hk HF']; subst.
    pose proof (AddEdges_ok a 1 (k - 1) k) as E. unfold AddEdges in E.
    rewrite E by lia. cbn [bind].
    rewrite IH.
    + cbn [maxVertexs maxEdges vertices edges].
      now rewrite <- app_assoc.
    + unfold EdgeNumber in *; cbn [edges maxEdges].
      rewrite length_app; cbn [length]; lia.
    + exact HF'.
Qed.

Lemma addFan_ok (a : Graphic3d_ArrayOfTriangles) :
  (EdgeNumber a + 3 * (VertexNumber a - 1) <= maxEdges a)%nat ->
  addFan a
  = Some (mkArray (maxVertexs a) (maxEdges a) (vertices a)
            (edges a
             ++ flat_map (fun k => [1; k - 1; k])%nat
                  (seq 2 (VertexNumber a - 1)))).
Proof.
  intros H. unfold addFan. apply forM_fan.
  - now rewrite length_seq.
  - apply Forall_forall. intros k Hk. apply in_seq in Hk. lia.
Qed.

Lemma setNormalAt_ok (theNormal : gp_Dir) (done : list Vertex) (v : Vertex)
  (rest : list Vertex) :
  setNormalAt (done ++ v :: rest) (length done) theNormal
  = Some (done ++ mkVertex (vPos v) (Some theNormal) :: rest).
Proof.
  induction done as [| d done IH]; cbn [app length setNormalAt].
  - reflexivity.
  - now rewrite IH.
Qed.

Lemma forM_setNormals (theNormal : gp_Dir) (rest : list Vertex) :
  forall (done : list Vertex) (mv me : nat) (es : list nat),
    forM (seq (S (length done)) (length rest))
      (fun aTris aVertIter => SetVertexNormal aTris aVertIter theNormal)
      (mkArray mv me (done ++ rest) es)
    = Some (mkArray mv me
              (done ++ map (fun v => mkVertex (vPos v) (Some theNormal)) rest)
              es).
Proof.
  induction rest as [| v rest IH]; intros done mv me es.
  - reflexivity.
  - cbn [length seq forM map]. unfold SetVertexNormal at 1.
    cbn [vertices maxVertexs maxEdges edges].
    rewrite setNormalAt_ok. cbn [bind].
    specialize (IH (done ++ [mkVertex (vPos v) (Some theNormal)]) mv me es).
    rewrite length_app in IH. cbn [length] in IH.
    rewrite Nat.add_1_r in IH. rewrite <- !app_assoc in IH. exact IH.
Qed.

Lemma setNormals_ok (theNormal : gp_Dir) (a : Graphic3d_ArrayOfTriangles) :
  setNormals theNormal a
  = Some (mkArray (maxVertexs a) (maxEdges a)
            (map (fun v => mkVertex (vPos v) (Some theNormal)) (vertices a))
            (edges a)).
Proof.
  unfold setNormals, VertexNumber. destruct a as [mv me vs es].
  cbn [vertices maxVertexs maxEdges edges].
  exact (forM_setNormals theNormal vs [] mv me es).
Qed.

(** *** The rectangle builder, branch by branch *)

Ltac array_size :=
  unfold VertexNumber, EdgeNumber, THE_NB_ROUND_SPLITS in *;
  cbn [vertices edges maxVertexs maxEdges newArray];
  rewrite ?length_app, ?length_map, ?length_seq;
  cbn [length Nat.add Nat.mul]; lia.

Lemma roundRectanglePoints_length (theSize : gp_XY) (theRadius : R) :
  length (roundRectanglePoints theSize theRadius)
  = (4 * (THE_NB_ROUND_SPLITS + 1) + 1)%nat.
Proof.
  unfold roundRectanglePoints. cbn [length].
  rewrite !length_app, !length_map, !length_seq.
  unfold THE_NB_ROUND_SPLITS. reflexivity.
Qed.

Lemma createRoundRectangleTriangles_rounded (theSize : gp_XY) (theRadius : R)
  (theTrsf : gp_Trsf) :
  roundRadiusOf theSize theRadius > 0 ->
  createRoundRectangleTriangles theSize theRadius theTrsf
  = Some (mkArray 37 111
            (placedVertices theTrsf (Reversed (Dir_Transformed DZ theTrsf))
               (roundRectanglePoints theSize theRadius))
            (fanEdges 37)).
Proof.
  intros Hr. unfold createRoundRectangleTriangles.
  assert (G : Rgtb (roundRadiusOf theSize theRadius) 0.0 = true)
    by (apply Rgtb_true; lra).
  rewrite G.
  change ((THE_NB_ROUND_SPLITS + 1) * 4 + 1)%nat with 37%nat.
  change (37 * 3)%nat with 111%nat.
  rewrite AddVertex_ok by array_size. cbn [bind].
  rewrite addArc_ok by array_size. cbn [bind].
  rewrite addArc_ok by array_size. cbn [bind].
  rewrite addArc_ok by array_size. cbn [bind].
  rewrite addArc_ok by array_size. cbn [bind].
  cbn [maxVertexs maxEdges vertices edges newArray].
  match goal with
  | |- context [addFan (mkArray 37 111 ?vs [])] =>
      assert (HL : length vs = 37%nat) by array_size;
      set (aVertices := vs) in *
  end.
  rewrite addFan_ok by array_size. cbn [bind].
  unfold VertexNumber; cbn [maxVertexs maxEdges vertices edges]. rewrite HL.
  rewrite AddEdge_ok
    by (unfold VertexNumber, EdgeNumber;
        cbn [maxVertexs maxEdges vertices edges];
        rewrite ?length_app, ?HL; cbn; lia).
  cbn [bind].
  unfold VertexNumber; cbn [maxVertexs maxEdges vertices edges]. rewrite HL.
  rewrite AddEdge_ok
    by (unfold VertexNumber, EdgeNumber;
        cbn [maxVertexs maxEdges vertices edges];
        rewrite ?length_app, ?HL; cbn; lia).
  cbn [bind].
  rewrite AddEdge_ok
    by (unfold VertexNumber, EdgeNumber;
        cbn [maxVertexs maxEdges vertices edges];
        rewrite ?length_app, ?HL; cbn; lia).
  cbn [bind].
  rewrite setNormals_ok.
  cbn [maxVertexs maxEdges vertices edges].
  unfold aVertices, placedVertices, roundRectanglePoints, fanEdges.
  rewrite <- !app_assoc. reflexivity.
Qed.

Lemma createRoundRectangleTriangles_sharp (theSize : gp_XY) (theRadius : R)
  (theTrsf : gp_Trsf) :
  roundRadiusOf theSize theRadius <= 0 ->
  createRoundRectangleTriangles theSize theRadius theTrsf
  = Some (mkArray 4 6
            (placedVertices theTrsf (Reversed (Dir_Transformed DZ theTrsf))
               (rectanglePoints theSize theRadius))
            [3; 1; 2; 1; 3; 4]%nat).
Proof.
  intros Hr. unfold createRoundRectangleTriangles.
  assert (G : Rgtb (roundRadiusOf theSize theRadius) 0.0 = false)
    by (apply Rgtb_false; lra).
  rewrite G.
  do 4 (rewrite AddVertex_ok by array_size; cbn [bind]).
  rewrite AddEdges_ok by (try array_size). cbn [bind].
  rewrite AddEdges_ok by (try array_size). cbn [bind].
  rewrite setNormals_ok.
  reflexivity.
Qed.

(** *** The effective radius and the half sizes *)

Lemma roundRadiusOf_bounds (w h r : R) :
  0 <= w -> 0 <= h -> 0 <= r ->
  0 <= roundRadiusOf (mkXY w h) r
  /\ roundRadiusOf (mkXY w h) r <= r
  /\ roundRadiusOf (mkXY w h) r <= Rmin w h / 2.
Proof.
  intros Hw Hh Hr. unfold roundRadiusOf; cbn [xyX xyY].
  unfold Rmin. repeat destruct (Rle_dec _ _); lra.
Qed.

Lemma roundRadiusOf_positive (w h r : R) :
  0 < w -> 0 < h -> 0 < r -> roundRadiusOf (mkXY w h) r > 0.
Proof.
  intros Hw Hh Hr. unfold roundRadiusOf; cbn [xyX xyY].
  unfold Rmin. repeat destruct (Rle_dec _ _); lra.
Qed.

Lemma roundRadiusOf_zero (w h : R) :
  0 <= w -> 0 <= h -> roundRadiusOf (mkXY w h) 0 = 0.
Proof.
  intros Hw Hh. unfold roundRadiusOf; cbn [xyX xyY].
  unfold Rmin. repeat destruct (Rle_dec _ _); lra.
Qed.

Lemma halfSizeOf_sum (w h r : R) :
  xyX (halfSizeOf (mkXY w h) r) + roundRadiusOf (mkXY w h) r = w / 2
  /\ xyY (halfSizeOf (mkXY w h) r) + roundRadiusOf (mkXY w h) r = h / 2.
Proof. unfold halfSizeOf; cbn [xyX xyY]. split; lra. Qed.

Lemma halfSizeOf_nonneg (w h r : R) :
  0 <= w -> 0 <= h -> 0 <= r ->
  0 <= xyX (halfSizeOf (mkXY w h) r) /\ 0 <= xyY (halfSizeOf (mkXY w h) r).
Proof.
  intros Hw Hh Hr.
  destruct (roundRadiusOf_bounds w h r Hw Hh Hr) as (_ & _ & H).
  destruct (halfSizeOf_sum w h r) as [Hx Hy].
  pose proof (Rmin_l w h). pose proof (Rmin_r w h). split; lra.
Qed.

Lemma arcPoint_inside (cx cy aRadius theStart theEnd W H : R) (i : nat) :
  0 <= aRadius -> Rabs cx + aRadius <= W -> Rabs cy + aRadius <= H ->
  Rabs (cX (arcPoint cx cy aRadius theStart theEnd i)) <= W
  /\ Rabs (cY (arcPoint cx cy aRadius theStart theEnd i)) <= H
  /\ cZ (arcPoint cx cy aRadius theStart theEnd i) = 0.
Proof.
  intros Hr HW HH. unfold arcPoint; cbn [cX cY cZ].
  set (a := Lerp_Interpolate _ _ _).
  pose proof (COS_bound a) as [Hc1 Hc2].
  pose proof (SIN_bound a) as [Hs1 Hs2].
  assert (Hrc : Rabs (aRadius * cos a) <= aRadius).
  { apply Rabs_le. split; nra. }
  assert (Hrs : Rabs (aRadius * sin a) <= aRadius).
  { apply Rabs_le. split; nra. }
  pose proof (Rabs_triang cx (aRadius * cos a)).
  pose proof (Rabs_triang cy (aRadius * sin a)).
  repeat split; lra.
Qed.

Lemma roundRectanglePoints_inside (w h r : R) :
  0 <= w -> 0 <= h -> 0 <= r ->
  Forall (insideRectangle w h) (roundRectanglePoints (mkXY w h) r).
Proof.
  intros Hw Hh Hr.
  destruct (roundRadiusOf_bounds w h r Hw Hh Hr) as (Hr0 & _ & _).
  destruct (halfSizeOf_sum w h r) as [Hx Hy].
  destruct (halfSizeOf_nonneg w h r Hw Hh Hr) as [Hx0 Hy0].
  assert (Hax : Rabs (xyX (halfSizeOf (mkXY w h) r))
                + roundRadiusOf (mkXY w h) r <= w / 2)
    by (rewrite Rabs_right; lra).
  assert (Hay : Rabs (xyY (halfSizeOf (mkXY w h) r))
                + roundRadiusOf (mkXY w h) r <= h / 2)
    by (rewrite Rabs_right; lra).
  assert (Hax' : Rabs (- xyX (halfSizeOf (mkXY w h) r))
                 + roundRadiusOf (mkXY w h) r <= w / 2)
    by (rewrite Rabs_Ropp; exact Hax).
  assert (Hay' : Rabs (- xyY (halfSizeOf (mkXY w h) r))
                 + roundRadiusOf (mkXY w h) r <= h / 2)
    by (rewrite Rabs_Ropp; exact Hay).
  unfold roundRectanglePoints. constructor.
  - unfold insideRectangle; cbn [cX cY cZ].
    replace 0.0 with 0 by lra. rewrite Rabs_R0. repeat split; lra.
  - repeat (apply Forall_app; split);
      apply Forall_forall; intros p Hp; apply in_map_iff in Hp;
      destruct Hp as (i & <- & _); apply arcPoint_inside; assumption.
Qed.

Lemma rectanglePoints_inside (w h r : R) :
  0 <= w -> 0 <= h -> 0 <= r ->
  Forall (insideRectangle w h) (rectanglePoints (mkXY w h) r).
Proof.
  intros Hw Hh Hr.
  destruct (roundRadiusOf_bounds w h r Hw Hh Hr) as (Hr0 & _ & _).
  destruct (halfSizeOf_sum w h r) as [Hx Hy].
  destruct (halfSizeOf_nonneg w h r Hw Hh Hr) as [Hx0 Hy0].
  assert (Ax : Rabs (xyX (halfSizeOf (mkXY w h) r)) <= w / 2)
    by (rewrite Rabs_right; lra).
  assert (Ay : Rabs (xyY (halfSizeOf (mkXY w h) r)) <= h / 2)
    by (rewrite Rabs_right; lra).
  unfold rectanglePoints, insideRectangle.
  repeat (apply Forall_cons); [| | | | apply Forall_nil];
    cbn [cX cY cZ]; rewrite ?Rabs_Ropp; (split; [| split]);
    solve [assumption | lra].
Qed.

Lemma placedVertices_positions theTrsf theNormal pts :
  map vPos (placedVertices theTrsf theNormal pts)
  = map (fun p => Pnt_Transformed p theTrsf) pts.
Proof. unfold placedVertices. rewrite map_map. reflexivity. Qed.

(** C2: for positive width, height and radius and any placement, the
    builder returns an array of exactly 4 x (N + 1) + 1 vertices, N being
    [THE_NB_ROUND_SPLITS]: the placed centre followed by the four placed
    quarter arcs of N + 1 points each; its triangles are a fan about the
    centre, vertex 1, one triangle [(1, k - 1, k)] per round of the loop,
    closed by the last triangle, which joins the last arc vertex to the
    first arc vertex, vertex 2. *)
Theorem rounded_rectangle_closed_fan (w h r : R) (theTrsf : gp_Trsf) :
  0 < w -> 0 < h -> 0 < r ->
  let aRadius := roundRadiusOf (mkXY w h) r in
  let aHSize := halfSizeOf (mkXY w h) r in
  let arc cx cy theStart theEnd :=
    map (arcPoint cx cy aRadius theStart theEnd)
      (seq 0 (THE_NB_ROUND_SPLITS + 1)) in
  exists aTris,
    createRoundRectangleTriangles (mkXY w h) r theTrsf = Some aTris
    /\ VertexNumber aTris = (4 * (THE_NB_ROUND_SPLITS + 1) + 1)%nat
    /\ map vPos (vertices aTris)
       = map (fun p => Pnt_Transformed p theTrsf)
           (mkXYZ 0.0 0.0 0.0
            :: arc (xyX aHSize) (xyY aHSize) (PI * 0.5) 0.0
            ++ arc (xyX aHSize) (- xyY aHSize) 0.0 (- PI * 0.5)
            ++ arc (- xyX aHSize) (- xyY aHSize) (- PI * 0.5) (- PI)
            ++ arc (- xyX aHSize) (xyY aHSize) (- PI) (- PI * 1.5))
    /\ triangles (edges aTris)
       = map (fun k => (1, k - 1, k))%nat (seq 2 (VertexNumber aTris - 1))
         ++ [(1, VertexNumber aTris, 2)]%nat
    /\ last (triangles (edges aTris)) (0, 0, 0)%nat
       = (1, VertexNumber aTris, 2)%nat
    /\ Forall (fun t => fst (fst t) = 1%nat) (triangles (edges aTris))
    /\ length (triangles (edges aTris)) = VertexNumber aTris.
Proof.
  intros Hw Hh Hr aRadius aHSize arc.
  eexists. split.
  { apply createRoundRectangleTriangles_rounded.
    apply roundRadiusOf_positive; assumption. }
  unfold VertexNumber; cbn [vertices edges].
  rewrite placedVertices_positions.
  assert (HL : length (placedVertices theTrsf
                         (Reversed (Dir_Transformed DZ theTrsf))
                         (roundRectanglePoints (mkXY w h) r)) = 37%nat).
  { unfold placedVertices.
    now rewrite length_map, roundRectanglePoints_length. }
  rewrite HL.
  split; [reflexivity |]. split; [reflexivity |].
  split; [reflexivity |]. split; [reflexivity |].
  split; [| reflexivity].
  unfold fanEdges. cbn. repeat constructor.
Qed.

Lemma rounded_rectangle_closed_fan_witness :
  exists aTris,
    createRoundRectangleTriangles (mkXY 70 70) 7 identityTrsf = Some aTris
    /\ VertexNumber aTris = 37%nat
    /\ last (triangles (edges aTris)) (0, 0, 0)%nat = (1, 37, 2)%nat.
Proof.
  destruct (rounded_rectangle_closed_fan 70 70 7 identityTrsf
              ltac:(lra) ltac:(lra) ltac:(lra))
    as (aTris & E & HN & _ & _ & HL & _).
  exists aTris. rewrite HN in HL. auto.
Defined.

Lemma rectanglePoints_radius_0 (w h : R) :
  0 <= w -> 0 <= h ->
  rectanglePoints (mkXY w h) 0
  = [ mkXYZ (- (w / 2)) (- (h / 2)) 0; mkXYZ (- (w / 2)) (h / 2) 0;
      mkXYZ (w / 2) (h / 2) 0; mkXYZ (w / 2) (- (h / 2)) 0 ].
Proof.
  intros Hw Hh. unfold rectanglePoints, halfSizeOf.
  rewrite (roundRadiusOf_zero w h Hw Hh). cbn [xyX xyY].
  repeat (apply (f_equal2 cons); [apply xyz_eq; lra |]). reflexivity.
Qed.

(** C7: for positive width and height and any placement, the builder
    with radius 0 returns an array of exactly 4 vertices, the placed
    corners [(-w/2, -h/2)], [(-w/2, h/2)], [(w/2, h/2)], [(w/2, -h/2)] of
    the rectangle, and 2 triangles, [(3, 1, 2)] and [(1, 3, 4)], which
    share the diagonal between vertices 1 and 3. *)
Theorem sharp_rectangle_quad (w h : R) (theTrsf : gp_Trsf) :
  0 < w -> 0 < h ->
  exists aTris,
    createRoundRectangleTriangles (mkXY w h) 0 theTrsf = Some aTris
    /\ VertexNumber aTris = 4%nat
    /\ map vPos (vertices aTris)
       = map (fun p => Pnt_Transformed p theTrsf)
           [ mkXYZ (- (w / 2)) (- (h / 2)) 0; mkXYZ (- (w / 2)) (h / 2) 0;
             mkXYZ (w / 2) (h / 2) 0; mkXYZ (w / 2) (- (h / 2)) 0 ]
    /\ triangles (edges aTris) = [(3, 1, 2); (1, 3, 4)]%nat
    /\ length (triangles (edges aTris)) = 2%nat.
Proof.
  intros Hw Hh. eexists. split.
  { apply createRoundRectangleTriangles_sharp.
    rewrite roundRadiusOf_zero; lra. }
  unfold VertexNumber; cbn [vertices edges].
  rewrite placedVertices_positions.
  rewrite rectanglePoints_radius_0 by lra.
  repeat split; reflexivity.
Qed.

Lemma sharp_rectangle_quad_witness :
  exists aTris,
    createRoundRectangleTriangles (mkXY 70 70) 0 identityTrsf = Some aTris
    /\ VertexNumber aTris = 4%nat
    /\ triangles (edges aTris) = [(3, 1, 2); (1, 3, 4)]%nat.
Proof.
  destruct (sharp_rectangle_quad 70 70 identityTrsf ltac:(lra) ltac:(lra))
    as (aTris & E & HN & _ & HT & _).
  exists aTris. auto.
Defined.

(** C9, as the code has it: for non-negative width, height and radius
    the effective radius lies between 0 and half the shorter side (and
    does not exceed the requested radius), so both half sizes are
    non-negative, and every vertex the builder then makes, on either
    branch, is the placed image of a point inside the rectangle of the
    given size. *)
Theorem radius_clamped_to_half_side (w h r : R) (theTrsf : gp_Trsf) :
  0 <= w -> 0 <= h -> 0 <= r ->
  let aRadius := roundRadiusOf (mkXY w h) r in
  let aHSize := halfSizeOf (mkXY w h) r in
  aRadius = Rmin r (Rmin w h * 0.5)
  /\ 0 <= aRadius <= Rmin w h / 2
  /\ aRadius <= r
  /\ xyX aHSize = w * 0.5 - aRadius
  /\ xyY aHSize = h * 0.5 - aRadius
  /\ 0 <= xyX aHSize
  /\ 0 <= xyY aHSize
  /\ exists aTris pts,
       createRoundRectangleTriangles (mkXY w h) r theTrsf = Some aTris
       /\ map vPos (vertices aTris)
          = map (fun p => Pnt_Transformed p theTrsf) pts
       /\ Forall (insideRectangle w h) pts.
Proof.
  intros Hw Hh Hr aRadius aHSize.
  destruct (roundRadiusOf_bounds w h r Hw Hh Hr) as (H0 & H1 & H2).
  destruct (halfSizeOf_nonneg w h r Hw Hh Hr) as [Hx Hy].
  split; [reflexivity |]. split; [split; assumption |].
  split; [assumption |]. split; [reflexivity |]. split; [reflexivity |].
  split; [assumption |]. split; [assumption |].
  destruct (Rle_lt_dec (roundRadiusOf (mkXY w h) r) 0) as [Hle | Hgt].
  - eexists. exists (rectanglePoints (mkXY w h) r). split.
    { apply createRoundRectangleTriangles_sharp. exact Hle. }
    cbn [vertices]. rewrite placedVertices_positions.
    split; [reflexivity |]. now apply rectanglePoints_inside.
  - eexists. exists (roundRectanglePoints (mkXY w h) r). split.
    { apply createRoundRectangleTriangles_rounded. lra. }
    cbn [vertices]. rewrite placedVertices_positions.
    split; [reflexivity |]. now apply roundRectanglePoints_inside.
Qed.

Lemma radius_clamped_to_half_side_witness :
  roundRadiusOf (mkXY 4 70) 7 = Rmin 7 (Rmin 4 70 * 0.5)
  /\ 0 <= roundRadiusOf (mkXY 4 70) 7 <= Rmin 4 70 / 2
  /\ 0 <= xyX (halfSizeOf (mkXY 4 70) 7)
  /\ 0 <= xyY (halfSizeOf (mkXY 4 70) 7).
Proof.
  destruct (radius_clamped_to_half_side 4 70 7 identityTrsf
              ltac:(lra) ltac:(lra) ltac:(lra))
    as (H1 & H2 & _ & _ & _ & H6 & H7 & _).
  auto.
Defined.

(** C9, as the specification words it, does not hold: width 0, height 70
    and radius 0
    are non-negative, the effective radius is 0, and the builder returns
    the two triangles of a rectangle without width, whose corners fall
    together in pairs: both triangles have the normal (0, 0, 0), that is
    no area. *)
Lemma zero_width_rectangle_degenerate :
  exists aTris,
    createRoundRectangleTriangles (mkXY 0 70) 0 identityTrsf = Some aTris
    /\ triangles (edges aTris) = [(3, 1, 2); (1, 3, 4)]%nat
    /\ faceNormal aTris (3, 1, 2)%nat = Some (mkXYZ 0 0 0)
    /\ faceNormal aTris (1, 3, 4)%nat = Some (mkXYZ 0 0 0)
    /\ Vertice aTris 1 = Vertice aTris 4
    /\ Vertice aTris 2 = Vertice aTris 3.
Proof.
  eexists. split.
  { apply createRoundRectangleTriangles_sharp.
    rewrite roundRadiusOf_zero; lra. }
  cbn [edges]. split; [reflexivity |].
  rewrite rectanglePoints_radius_0 by lra.
  unfold faceNormal, Vertice, placedVertices.
  cbn [vertices map nth_error option_map vPos bind].
  unfold Crossed, Subtracted, Pnt_Transformed, Added, Multiplied, Dot,
    identityTrsf, DX, DY, DZ, Origin.
  cbn [cX cY cZ trsfScale trsfRow1 trsfRow2 trsfRow3 trsfLoc].
  repeat split; f_equal; apply xyz_eq; lra.
Qed.

(** *** Single precision *)

Lemma ln2_pos : 0 < ln 2.
Proof. rewrite <- ln_1. apply ln_increasing; lra. Qed.

Lemma mag_unique (x : R) (k : Z) :
  powerRZ 2 (k - 1) <= Rabs x < powerRZ 2 k -> mag x = k.
Proof.
  intros [Hlo Hhi]. pose proof ln2_pos as L2.
  assert (P : forall z, 0 < powerRZ 2 z)
    by (intros z; apply powerRZ_lt; lra).
  assert (Hx : 0 < Rabs x) by (pose proof (P (k - 1)%Z); lra).
  assert (E : forall z, ln (powerRZ 2 z) = IZR z * ln 2).
  { intros z. rewrite powerRZ_Rpower by lra. apply ln_Rpower. }
  unfold mag. rewrite (Zfloor_eq (k - 1)); [lia |].
  rewrite minus_IZR. split.
  - apply Rmult_le_reg_r with (ln 2); [exact L2 |].
    unfold Rdiv. rewrite Rmult_assoc, Rinv_l, Rmult_1_r by lra.
    rewrite <- minus_IZR, <- E.
    destruct Hlo as [Hlo | Hlo];
      [left; apply ln_increasing; auto | right; rewrite Hlo; reflexivity].
  - apply Rmult_lt_reg_r with (ln 2); [exact L2 |].
    unfold Rdiv. rewrite Rmult_assoc, Rinv_l, Rmult_1_r by lra.
    replace (IZR k - 1 + 1) with (IZR k) by lra.
    rewrite <- E. apply ln_increasing; auto.
Qed.

Lemma nearestEven_near (x : R) (n : Z) :
  Rabs (x - IZR n) < / 2 -> nearestEven x = n.
Proof.
  intros H. apply Rabs_def2 in H. destruct H as [H1 H2].
  unfold nearestEven. cbv zeta.
  pose proof (Zfloor_bound x) as [B1 B2].
  destruct (Rle_lt_dec (IZR n) x) as [Hn | Hn].
  - assert (F : Zfloor x = n) by (apply Zfloor_eq; lra).
    rewrite F.
    assert (G : Rltb (x - IZR n) (/ 2) = true) by (apply Rltb_true; lra).
    rewrite G. reflexivity.
  - assert (F : Zfloor x = (n - 1)%Z)
      by (apply Zfloor_eq; rewrite minus_IZR; lra).
    rewrite F, minus_IZR.
    assert (G : Rltb (x - (IZR n - 1)) (/ 2) = false)
      by (apply Rltb_false; lra).
    assert (G' : Rgtb (x - (IZR n - 1)) (/ 2) = true)
      by (apply Rgtb_true; lra).
    rewrite G, G'. lia.
Qed.

Lemma roundBinary32_near (x : R) (k n : Z) :
  powerRZ 2 (k - 1) <= Rabs x < powerRZ 2 k ->
  Rabs (x * powerRZ 2 (- Z.max (k - 24) (-149)) - IZR n) < / 2 ->
  roundBinary32 x = IZR n * powerRZ 2 (Z.max (k - 24) (-149)).
Proof.
  intros Hk Hn. unfold roundBinary32. cbv zeta.
  rewrite (mag_unique x k Hk), (nearestEven_near _ n Hn). reflexivity.
Qed.

Lemma roundBinary32_0 : roundBinary32 0 = 0.
Proof.
  unfold roundBinary32. cbv zeta. rewrite Rmult_0_l.
  rewrite (nearestEven_near 0 0); [lra |].
  rewrite Rminus_diag, Rabs_R0. lra.
Qed.

(** The conversion commutes with the change of sign. *)
Lemma ShortReal_opp (x : R) : ShortReal (- x) = - ShortReal x.
Proof.
  unfold ShortReal.
  destruct (Rtotal_order x 0) as [H | [H | H]].
  - assert (G1 : Rltb (- x) 0 = false) by (apply Rltb_false; lra).
    assert (G2 : Rltb x 0 = true) by (apply Rltb_true; lra).
    rewrite G1, G2. lra.
  - subst. rewrite Ropp_0.
    assert (G : Rltb 0 0 = false) by (apply Rltb_false; lra).
    rewrite G, roundBinary32_0. lra.
  - assert (G1 : Rltb (- x) 0 = true) by (apply Rltb_true; lra).
    assert (G2 : Rltb x 0 = false) by (apply Rltb_false; lra).
    rewrite G1, G2, Ropp_involutive. reflexivity.
Qed.

Lemma FLT_MAX_large : 1000 < FLT_MAX.
Proof. apply IZR_lt. reflexivity. Qed.

Lemma RealToShortReal_opp (x : R) :
  RealToShortReal (- x) = - RealToShortReal x.
Proof.
  pose proof FLT_MAX_large as HM.
  unfold RealToShortReal.
  destruct (Rlt_dec x (- FLT_MAX)) as [H | H].
  - assert (G1 : Rltb (- x) (- FLT_MAX) = false)
      by (apply Rltb_false; lra).
    assert (G2 : Rgtb (- x) FLT_MAX = true) by (apply Rgtb_true; lra).
    assert (G3 : Rltb x (- FLT_MAX) = true) by (apply Rltb_true; lra).
    rewrite G1, G2, G3. lra.
  - assert (G3 : Rltb x (- FLT_MAX) = false) by (apply Rltb_false; lra).
    rewrite G3.
    destruct (Rgt_dec x FLT_MAX) as [H' | H'].
    + assert (G1 : Rltb (- x) (- FLT_MAX) = true)
        by (apply Rltb_true; lra).
      assert (G2 : Rgtb x FLT_MAX = true) by (apply Rgtb_true; lra).
      rewrite G1, G2. reflexivity.
    + assert (G1 : Rltb (- x) (- FLT_MAX) = false)
        by (apply Rltb_false; lra).
      assert (G2 : Rgtb x FLT_MAX = false) by (apply Rgtb_false; lra).
      assert (G4 : Rgtb (- x) FLT_MAX = false)
        by (apply Rgtb_false; lra).
      rewrite G1, G2, G4. apply ShortReal_opp.
Qed.

Lemma RealToShortReal_sign (s x : R) :
  s = 1 \/ s = -1 -> RealToShortReal (s * x) = s * RealToShortReal x.
Proof.
  intros [-> | ->].
  - rewrite !Rmult_1_l. reflexivity.
  - replace (-1 * x) with (- x) by lra. rewrite RealToShortReal_opp. lra.
Qed.

Lemma powerRZ_2_nat (n : nat) :
  powerRZ 2 (Z.of_nat n) = IZR (2 ^ Z.of_nat n).
Proof. rewrite <- pow_powerRZ. apply pow_IZR. Qed.

(** The singles between 32 and 64 are the multiples of [2 ^ -18]: a double
    there is converted to the nearest one. *)
Lemma RealToShortReal_binade5 (x : R) (n : Z) :
  32 <= x < 64 ->
  Rabs (x * 262144 - IZR n) < / 2 ->
  RealToShortReal x = IZR n / 262144.
Proof.
  intros Hx Hn. pose proof FLT_MAX_large as HM.
  unfold RealToShortReal, ShortReal.
  assert (G1 : Rltb x (- FLT_MAX) = false) by (apply Rltb_false; lra).
  assert (G2 : Rgtb x FLT_MAX = false) by (apply Rgtb_false; lra).
  assert (G3 : Rltb x 0 = false) by (apply Rltb_false; lra).
  rewrite G1, G2, G3.
  assert (P18 : powerRZ 2 18 = 262144) by apply (powerRZ_2_nat 18).
  assert (M18 : powerRZ 2 (-18) = / 262144)
    by (change (-18)%Z with (Z.opp 18); rewrite powerRZ_neg', P18;
        reflexivity).
  rewrite (roundBinary32_near x 6 n).
  - change (Z.max (6 - 24) (-149)) with (-18)%Z. rewrite M18. reflexivity.
  - rewrite Rabs_pos_eq by lra.
    change (6 - 1)%Z with 5%Z.
    assert (P5 : powerRZ 2 5 = 32) by apply (powerRZ_2_nat 5).
    assert (P6 : powerRZ 2 6 = 64) by apply (powerRZ_2_nat 6).
    rewrite P5, P6. exact Hx.
  - change (- Z.max (6 - 24) (-149))%Z with 18%Z. rewrite P18. exact Hn.
Qed.

Lemma RealToShortReal_35 : RealToShortReal 35 = 35.
Proof.
  rewrite (RealToShortReal_binade5 35 9175040); [lra | lra |].
  replace (35 * 262144 - 9175040) with 0 by lra. rewrite Rabs_R0. lra.
Qed.


(** One millionth more than 35 is less than half a step of the singles
    away from 35. *)
Lemma RealToShortReal_35_000001 : RealToShortReal (35 + 1e-6) = 35.
Proof.
  rewrite (RealToShortReal_binade5 (35 + 1e-6) 9175040); [lra | lra |].
  apply Rabs_def1; lra.
Qed.

(** *** The sharp corner *)

Lemma sqrt3_facts : 0 < sqrt 3 /\ sqrt 3 * sqrt 3 = 3 /\ / 2 <= / sqrt 3.
Proof.
  assert (H : 1 <= sqrt 3 <= 2) by (apply sqrt_between; lra).
  split; [lra |]. split; [apply sqrt_sqrt; lra |].
  apply Rinv_le_contravar; lra.
Qed.

Lemma corner_signs (o : V3d_TypeOfOrientation) :
  IsBoxCorner o = true ->
  exists sx sy sz,
    projSigns o = (sx, sy, sz)
    /\ (sx = 1 \/ sx = -1) /\ (sy = 1 \/ sy = -1) /\ (sz = 1 \/ sz = -1).
Proof.
  rewrite IsBoxCorner_tag.
  destruct o; cbn; intros H; try discriminate;
    do 3 eexists; (split; [reflexivity |]); auto.
Qed.

Lemma GetProjAxis_corner (o : V3d_TypeOfOrientation) (sx sy sz : R) :
  projSigns o = (sx, sy, sz) ->
  sx * sx = 1 -> sy * sy = 1 -> sz * sz = 1 ->
  GetProjAxis o = mkXYZ (sx / sqrt 3) (sy / sqrt 3) (sz / sqrt 3).
Proof.
  intros E Hx Hy Hz. unfold GetProjAxis. rewrite E. unfold normalized.
  replace (sx * sx + sy * sy + sz * sz) with 3 by lra. reflexivity.
Qed.

Lemma Modulus_diagonal : Modulus (mkXYZ 1.0 1.0 1.0) = sqrt 3.
Proof.
  unfold Modulus; cbn [cX cY cZ]. f_equal. lra.
Qed.

(** The unit vector along one axis the constructor [gp_Dir] makes of one
    component of a corner direction. *)
Lemma mkDir_of_component (s : R) :
  s * s = 1 ->
  mkDir (s / sqrt 3) 0.0 0.0 = Some (mkXYZ s 0 0)
  /\ mkDir 0.0 (s / sqrt 3) 0.0 = Some (mkXYZ 0 s 0)
  /\ mkDir 0.0 0.0 (s / sqrt 3) = Some (mkXYZ 0 0 s).
Proof.
  intros Hs. destruct sqrt3_facts as (Hq & Hqq & Hi).
  assert (Hroot : sqrt (/ sqrt 3 * / sqrt 3) = / sqrt 3).
  { apply sqrt_square. apply Rlt_le, Rinv_0_lt_compat, Hq. }
  assert (Hsq : s / sqrt 3 * (s / sqrt 3) = / sqrt 3 * / sqrt 3).
  { unfold Rdiv.
    replace (s * / sqrt 3 * (s * / sqrt 3))
      with (s * s * (/ sqrt 3 * / sqrt 3)) by ring.
    rewrite Hs. ring. }
  pose proof Resolution_small as HR.
  assert (Hbig : Rleb (/ sqrt 3) Resolution = false)
    by (apply Rleb_false; lra).
  unfold mkDir, normalized.
  replace 0.0 with 0 by lra.
  replace (s / sqrt 3 * (s / sqrt 3) + 0 * 0 + 0 * 0)
    with (/ sqrt 3 * / sqrt 3) by lra.
  replace (0 * 0 + s / sqrt 3 * (s / sqrt 3) + 0 * 0)
    with (/ sqrt 3 * / sqrt 3) by lra.
  replace (0 * 0 + 0 * 0 + s / sqrt 3 * (s / sqrt 3))
    with (/ sqrt 3 * / sqrt 3) by lra.
  rewrite Hroot, Hbig.
  repeat split; f_equal; apply xyz_eq; field; lra.
Qed.

(** The sharp branch of [createBoxCornerTriangles], evaluated: the three
    vertices and the winding the test on the normal chooses. *)
Lemma createBoxCornerTriangles_sharp placement Prs3d_ToolDisk_Create
  (self : AIS_ViewCube) (o : V3d_TypeOfOrientation) (sx sy sz : R) :
  projSigns o = (sx, sy, sz) ->
  sx * sx = 1 -> sy * sy = 1 -> sz * sz = 1 ->
  myRoundRadius self <= 0 ->
  let aHSize := mySize self * 0.5 in
  let anExt := myBoxFacetExtension self in
  let p1 := mkXYZ (sx * aHSize + anExt * sx) (sy * aHSize) (sz * aHSize) in
  let p2 := mkXYZ (sx * aHSize) (sy * aHSize + anExt * sy) (sz * aHSize) in
  let p3 := mkXYZ (sx * aHSize) (sy * aHSize) (sz * aHSize + anExt * sz) in
  let aNormTri :=
    Crossed (Subtracted (ShortPnt p2) (ShortPnt p1))
      (Subtracted (ShortPnt p3) (ShortPnt p1)) in
  createBoxCornerTriangles placement Prs3d_ToolDisk_Create self o
  = Some (mkArray 3 3
            (map (fun p => mkVertex p (Some (GetProjAxis o))) [p1; p2; p3])
            (if Rltb (Dot aNormTri (GetProjAxis o)) 0.0
             then [1; 3; 2]%nat else [1; 2; 3]%nat)).
Proof.
  intros E Hx Hy Hz Hr aHSize anExt p1 p2 p3 aNormTri.
  destruct sqrt3_facts as (Hq & Hqq & _).
  unfold createBoxCornerTriangles.
  assert (G : Rgtb (myRoundRadius self) 0.0 = false)
    by (apply Rgtb_false; lra).
  rewrite G.
  rewrite Modulus_diagonal.
  rewrite (GetProjAxis_corner o sx sy sz E Hx Hy Hz). cbn [cX cY cZ].
  rewrite (proj1 (mkDir_of_component sx Hx)).
  rewrite (proj1 (proj2 (mkDir_of_component sy Hy))).
  rewrite (proj2 (proj2 (mkDir_of_component sz Hz))).
  cbn [bind].
  assert (E1 : Added (Multiplied (mkXYZ (sx / sqrt 3) (sy / sqrt 3)
                                    (sz / sqrt 3))
                        (mySize self * 0.5 * sqrt 3))
                 (Multiplied (mkXYZ sx 0 0) (myBoxFacetExtension self)) = p1).
  { unfold Added, Multiplied, p1, aHSize, anExt; cbn [cX cY cZ].
    replace 0.5 with (/ 2) by lra. apply xyz_eq; field; lra. }
  assert (E2 : Added (Multiplied (mkXYZ (sx / sqrt 3) (sy / sqrt 3)
                                    (sz / sqrt 3))
                        (mySize self * 0.5 * sqrt 3))
                 (Multiplied (mkXYZ 0 sy 0) (myBoxFacetExtension self)) = p2).
  { unfold Added, Multiplied, p2, aHSize, anExt; cbn [cX cY cZ].
    replace 0.5 with (/ 2) by lra. apply xyz_eq; field; lra. }
  assert (E3 : Added (Multiplied (mkXYZ (sx / sqrt 3) (sy / sqrt 3)
                                    (sz / sqrt 3))
                        (mySize self * 0.5 * sqrt 3))
                 (Multiplied (mkXYZ 0 0 sz) (myBoxFacetExtension self)) = p3).
  { unfold Added, Multiplied, p3, aHSize, anExt; cbn [cX cY cZ].
    replace 0.5 with (/ 2) by lra. apply xyz_eq; field; lra. }
  rewrite E1, E2, E3.
  do 3 (rewrite AddVertex_ok by array_size; cbn [bind]).
  cbn [StoredVertice Vertice maxVertexs maxEdges vertices edges newArray
         app nth_error option_map vPos bind].
  fold aNormTri.
  destruct (Rltb (Dot aNormTri (mkXYZ (sx / sqrt 3) (sy / sqrt 3)
                                  (sz / sqrt 3))) 0.0);
    (rewrite AddEdges_ok by (try array_size)); cbn [bind];
    rewrite setNormals_ok; reflexivity.
Qed.

Lemma corner_normal_dot (sx sy sz aHSize anExt : R) :
  let p1 := mkXYZ (sx * aHSize + anExt * sx) (sy * aHSize) (sz * aHSize) in
  let p2 := mkXYZ (sx * aHSize) (sy * aHSize + anExt * sy) (sz * aHSize) in
  let p3 := mkXYZ (sx * aHSize) (sy * aHSize) (sz * aHSize + anExt * sz) in
  let aDir := mkXYZ (sx / sqrt 3) (sy / sqrt 3) (sz / sqrt 3) in
  Dot (Crossed (Subtracted p2 p1) (Subtracted p3 p1)) aDir
  = 3 * (sx * sy * sz) * (anExt * anExt) / sqrt 3
  /\ Dot (Crossed (Subtracted p3 p1) (Subtracted p2 p1)) aDir
     = - (3 * (sx * sy * sz) * (anExt * anExt) / sqrt 3).
Proof.
  destruct sqrt3_facts as (Hq & _ & _).
  unfold Dot, Crossed, Subtracted; cbn [cX cY cZ]. split; field; lra.
Qed.

(** The nodes of the sharp corner as the array holds them.  With [a] the
    single of the half size and [d] what the facet extension adds to it
    in single precision, they are the point [(sx a, sy a, sz a)] moved by
    [d] along X, along Y and along Z, each in the sense of its sign. *)
Lemma ShortPnt_corner (sx sy sz aHSize anExt : R) :
  sx = 1 \/ sx = -1 -> sy = 1 \/ sy = -1 -> sz = 1 \/ sz = -1 ->
  let a := RealToShortReal aHSize in
  let d := RealToShortReal (aHSize + anExt) - a in
  ShortPnt (mkXYZ (sx * aHSize + anExt * sx) (sy * aHSize) (sz * aHSize))
  = mkXYZ (sx * a + d * sx) (sy * a) (sz * a)
  /\ ShortPnt (mkXYZ (sx * aHSize) (sy * aHSize + anExt * sy)
                (sz * aHSize))
     = mkXYZ (sx * a) (sy * a + d * sy) (sz * a)
  /\ ShortPnt (mkXYZ (sx * aHSize) (sy * aHSize)
                (sz * aHSize + anExt * sz))
     = mkXYZ (sx * a) (sy * a) (sz * a + d * sz).
Proof.
  intros Hx Hy Hz a d. unfold ShortPnt; cbn [cX cY cZ].
  replace (sx * aHSize + anExt * sx) with (sx * (aHSize + anExt)) by ring.
  replace (sy * aHSize + anExt * sy) with (sy * (aHSize + anExt)) by ring.
  replace (sz * aHSize + anExt * sz) with (sz * (aHSize + anExt)) by ring.
  rewrite !(RealToShortReal_sign sx) by exact Hx.
  rewrite !(RealToShortReal_sign sy) by exact Hy.
  rewrite !(RealToShortReal_sign sz) by exact Hz.
  fold a. repeat split; apply xyz_eq; unfold d; ring.
Qed.

(** The sharp corner on the nodes the array holds: the test on the normal
    sees [3 sx sy sz d^2 / sqrt 3]. *)
Lemma createBoxCornerTriangles_held placement Prs3d_ToolDisk_Create
  (self : AIS_ViewCube) (o : V3d_TypeOfOrientation) (sx sy sz : R) :
  projSigns o = (sx, sy, sz) ->
  sx = 1 \/ sx = -1 -> sy = 1 \/ sy = -1 -> sz = 1 \/ sz = -1 ->
  myRoundRadius self <= 0 ->
  let aHSize := mySize self * 0.5 in
  let anExt := myBoxFacetExtension self in
  let a := RealToShortReal aHSize in
  let d := RealToShortReal (aHSize + anExt) - a in
  let p1 := mkXYZ (sx * aHSize + anExt * sx) (sy * aHSize) (sz * aHSize) in
  let p2 := mkXYZ (sx * aHSize) (sy * aHSize + anExt * sy) (sz * aHSize) in
  let p3 := mkXYZ (sx * aHSize) (sy * aHSize) (sz * aHSize + anExt * sz) in
  createBoxCornerTriangles placement Prs3d_ToolDisk_Create self o
  = Some (mkArray 3 3
            (map (fun p => mkVertex p (Some (GetProjAxis o))) [p1; p2; p3])
            (if Rltb (3 * (sx * sy * sz) * (d * d) / sqrt 3) 0.0
             then [1; 3; 2]%nat else [1; 2; 3]%nat))
  /\ ShortPnt p1 = mkXYZ (sx * a + d * sx) (sy * a) (sz * a)
  /\ ShortPnt p2 = mkXYZ (sx * a) (sy * a + d * sy) (sz * a)
  /\ ShortPnt p3 = mkXYZ (sx * a) (sy * a) (sz * a + d * sz).
Proof.
  intros E Hx Hy Hz Hr aHSize anExt a d p1 p2 p3.
  assert (Hxx : sx * sx = 1) by (destruct Hx; subst; lra).
  assert (Hyy : sy * sy = 1) by (destruct Hy; subst; lra).
  assert (Hzz : sz * sz = 1) by (destruct Hz; subst; lra).
  pose proof (createBoxCornerTriangles_sharp placement Prs3d_ToolDisk_Create
                self o sx sy sz E Hxx Hyy Hzz Hr) as HB.
  cbv zeta in HB. fold aHSize anExt p1 p2 p3 in HB.
  destruct (ShortPnt_corner sx sy sz aHSize anExt Hx Hy Hz)
    as (Q1 & Q2 & Q3).
  cbv zeta in Q1, Q2, Q3. fold a d p1 p2 p3 in Q1, Q2, Q3.
  rewrite Q1, Q2, Q3 in HB.
  destruct (corner_normal_dot sx sy sz a d) as [D1 _].
  cbv zeta in D1.
  rewrite <- (GetProjAxis_corner o sx sy sz E Hxx Hyy Hzz) in D1.
  rewrite D1 in HB.
  split; [exact HB |]. auto.
Qed.




(** * Further properties of the code *)

(** *** Runs of SetRoundRadius *)

Lemma SetRoundRadius_range_step (theValue : R) (self : AIS_ViewCube) :
  0 <= myRoundRadius self <= 0.5 ->
  0 <= myRoundRadius (stateOf (SetRoundRadius theValue self)) <= 0.5.
Proof.
  intros H. unfold SetRoundRadius.
  destruct (Rltb theValue 0.0 || Rgtb theValue 0.5) eqn:E; [exact H |].
  apply orb_false_iff in E. destruct E as [E1 E2].
  apply Rltb_false in E1. apply Rgtb_false in E2.
  destruct (Rgtb (Rabs (myRoundRadius self - theValue)) Confusion);
    cbn [stateOf]; [| exact H].
  rewrite set_myRoundRadius_get. lra.
Qed.

Lemma SetRoundRadius_style_step (theValue : R) (self : AIS_ViewCube) :
  let self' := stateOf (SetRoundRadius theValue self) in
  mySize self' = mySize self
  /\ myBoxFacetExtension self' = myBoxFacetExtension self
  /\ myBoxEdgeMinSize self' = myBoxEdgeMinSize self
  /\ myBoxEdgeGap self' = myBoxEdgeGap self
  /\ myViewAnimation self' = myViewAnimation self
  /\ myEvents self' = myEvents self.
Proof.
  unfold SetRoundRadius.
  destruct (Rltb theValue 0.0 || Rgtb theValue 0.5);
    [cbn; repeat split; reflexivity |].
  destruct (Rgtb (Rabs (myRoundRadius self - theValue)) Confusion);
    cbn; repeat split; reflexivity.
Qed.

(** X1: The round radius stays a fraction in [0, 0.5] through every run of
    calls of [SetRoundRadius], accepted or raising, and no such run
    touches the size, the facet extension, the edge sizes, the animation
    or the record of events. *)
Theorem SetRoundRadius_run_keeps_range (theValues : list R) :
  forall self : AIS_ViewCube,
    0 <= myRoundRadius self <= 0.5 ->
    let self' := SetRoundRadiusAll theValues self in
    0 <= myRoundRadius self' <= 0.5
    /\ mySize self' = mySize self
    /\ myBoxFacetExtension self' = myBoxFacetExtension self
    /\ myBoxEdgeMinSize self' = myBoxEdgeMinSize self
    /\ myBoxEdgeGap self' = myBoxEdgeGap self
    /\ myViewAnimation self' = myViewAnimation self
    /\ myEvents self' = myEvents self.
Proof.
  induction theValues as [| v vs IH]; intros self H.
  - cbn. repeat split; try reflexivity; apply H.
  - cbn [SetRoundRadiusAll fold_left].
    pose proof (SetRoundRadius_range_step v self H) as H1.
    destruct (SetRoundRadius_style_step v self)
      as (A1 & A2 & A3 & A4 & A5 & A6).
    destruct (IH _ H1) as (B0 & B1 & B2 & B3 & B4 & B5 & B6).
    unfold SetRoundRadiusAll in *.
    repeat split; try apply B0; congruence.
Qed.

Lemma SetRoundRadius_run_keeps_range_witness :
  0 <= myRoundRadius
         (SetRoundRadiusAll [0.25; 0.75; -1; 0.5] sampleViewCube) <= 0.5
  /\ mySize (SetRoundRadiusAll [0.25; 0.75; -1; 0.5] sampleViewCube)
     = mySize sampleViewCube.
Proof.
  assert (H : 0 <= myRoundRadius sampleViewCube <= 0.5)
    by (cbn [myRoundRadius sampleViewCube newViewCube]; lra).
  destruct (SetRoundRadius_run_keeps_range [0.25; 0.75; -1; 0.5]
              sampleViewCube H) as (H0 & H1 & _).
  split; assumption.
Defined.

(** X2: An accepted value set twice: the second call finds the stored radius
    within [Precision::Confusion()] of the value and returns without
    touching the widget, so it does not mark it for update again. *)
Theorem SetRoundRadius_twice (theValue : R) (self : AIS_ViewCube) :
  0 <= theValue <= 0.5 ->
  SetRoundRadius theValue (stateOf (SetRoundRadius theValue self))
  = Returned (stateOf (SetRoundRadius theValue self)).
Proof.
  intros [H0 H5].
  assert (E : Rltb theValue 0.0 || Rgtb theValue 0.5 = false).
  { apply orb_false_iff. split.
    - apply Rltb_false. lra.
    - apply Rgtb_false. lra. }
  assert (Hnear : Rabs (myRoundRadius (stateOf (SetRoundRadius theValue self))
                        - theValue) <= Confusion).
  { unfold SetRoundRadius. rewrite E.
    destruct (Rgtb (Rabs (myRoundRadius self - theValue)) Confusion) eqn:G;
      cbn [stateOf].
    - rewrite set_myRoundRadius_get.
      replace (theValue - theValue) with 0 by ring.
      rewrite Rabs_R0. unfold Confusion. lra.
    - apply Rgtb_false in G. exact G. }
  unfold SetRoundRadius at 1. rewrite E.
  rewrite (proj2 (Rgtb_false _ _) Hnear). reflexivity.
Qed.

Lemma SetRoundRadius_twice_witness :
  SetRoundRadius 0.25 (stateOf (SetRoundRadius 0.25 sampleViewCube))
  = Returned (stateOf (SetRoundRadius 0.25 sampleViewCube)).
Proof. apply SetRoundRadius_twice. lra. Defined.

(** *** Directions in general *)

(** X3: A direction of unit length has at least one and at most three
    components above [gp::Resolution()]: [nbDirectionComponents] never
    returns 0 on a [gp_Dir], whatever the direction. *)
Theorem nbDirectionComponents_of_unit (theDir : gp_Dir) :
  Modulus theDir = 1 ->
  (1 <= nbDirectionComponents theDir <= 3)%nat.
Proof.
  intros H1. rewrite nbDirectionComponents_unfold.
  pose proof (Modulus_sq theDir) as Hs. rewrite H1 in Hs. unfold Dot in Hs.
  pose proof Resolution_small as HR. pose proof Resolution_pos as HP.
  destruct (Rgtb (Rabs (cX theDir)) Resolution) eqn:GX,
           (Rgtb (Rabs (cY theDir)) Resolution) eqn:GY,
           (Rgtb (Rabs (cZ theDir)) Resolution) eqn:GZ; cbn; try lia.
  exfalso.
  apply Rgtb_false in GX, GY, GZ.
  assert (BX : cX theDir * cX theDir <= / 4 * / 4).
  { pose proof (Rabs_pos (cX theDir)).
    replace (cX theDir * cX theDir) with (Rabs (cX theDir) * Rabs (cX theDir))
      by (unfold Rabs; destruct (Rcase_abs _); ring).
    nra. }
  assert (BY : cY theDir * cY theDir <= / 4 * / 4).
  { pose proof (Rabs_pos (cY theDir)).
    replace (cY theDir * cY theDir) with (Rabs (cY theDir) * Rabs (cY theDir))
      by (unfold Rabs; destruct (Rcase_abs _); ring).
    nra. }
  assert (BZ : cZ theDir * cZ theDir <= / 4 * / 4).
  { pose proof (Rabs_pos (cZ theDir)).
    replace (cZ theDir * cZ theDir) with (Rabs (cZ theDir) * Rabs (cZ theDir))
      by (unfold Rabs; destruct (Rcase_abs _); ring).
    nra. }
  lra.
Qed.

Lemma nbDirectionComponents_of_unit_witness :
  (1 <= nbDirectionComponents (mkXYZ (3 / 5) 0 (- (4 / 5))) <= 3)%nat.
Proof.
  apply nbDirectionComponents_of_unit.
  unfold Modulus; cbn [cX cY cZ].
  replace (3 / 5 * (3 / 5) + 0 * 0 + - (4 / 5) * - (4 / 5)) with 1 by lra.
  apply sqrt_1.
Defined.

(** *** The ray of a pick, reversed *)

Lemma Modulus_Reversed (v : gp_XYZ) : Modulus (Reversed v) = Modulus v.
Proof.
  unfold Modulus, Reversed; cbn [cX cY cZ]. f_equal. ring.
Qed.

Lemma Vec_of_points_swap (P1 P2 : gp_Pnt) :
  Vec_of_points P2 P1 = Reversed (Vec_of_points P1 P2).
Proof.
  unfold Vec_of_points, Subtracted, Reversed; cbn [cX cY cZ].
  apply xyz_eq; ring.
Qed.

Lemma Vec_IsNormal_Reversed (v w : gp_Vec) (theTol : R) :
  Vec_IsNormal (Reversed v) w theTol = Vec_IsNormal v w theTol.
Proof.
  unfold Vec_IsNormal, Vec_Angle. rewrite Modulus_Reversed.
  destruct (Rleb (Modulus v) Resolution) eqn:Gv; [reflexivity |].
  destruct (Rleb (Modulus w) Resolution) eqn:Gw; [reflexivity |].
  cbn [orb]. apply Rleb_false in Gv, Gw. pose proof Resolution_pos as HP.
  unfold Dir_Angle.
  pose proof (Dot_normalized (Reversed v) w) as E1.
  rewrite Modulus_Reversed in E1. rewrite E1 by lra.
  rewrite (Dot_normalized v w) by lra.
  replace (Dot (Reversed v) w / (Modulus v * Modulus w))
    with (- (Dot v w / (Modulus v * Modulus w)))
    by (unfold Dot, Reversed; cbn [cX cY cZ]; field; lra).
  rewrite acos_opp.
  set (a := acos (Dot v w / (Modulus v * Modulus w))).
  f_equal. unfold Rltb, Rleb.
  destruct (Rlt_dec (PI / 2 - (PI - a)) 0), (Rlt_dec (PI / 2 - a) 0);
    destruct (Rle_dec _ theTol), (Rle_dec _ theTol);
    try reflexivity; lra.
Qed.

(** X4: The verdict of [isValidRay] does not depend on the sense of the ray:
    with the near and the far picked point exchanged, every owner and
    every kind of query gets the same answer, so a part seen from behind
    passes the filter as it does from the front. *)
Theorem isValidRay_reversed_ray (myOwnerId : option SelectMgr_EntityOwner)
  (theType : SelectionType) (theNear theFar : gp_Pnt) :
  isValidRay myOwnerId (mkManager theType theFar theNear)
  = isValidRay myOwnerId (mkManager theType theNear theFar).
Proof.
  unfold isValidRay.
  cbn [GetActiveSelectionType GetNearPickedPnt GetFarPickedPnt].
  destruct (negb (isPoint theType)); [reflexivity |].
  destruct (dynamic_cast_ViewCubeOwner myOwnerId) as [anOwner |];
    [| reflexivity].
  rewrite (Vec_of_points_swap theNear theFar), Vec_IsNormal_Reversed.
  reflexivity.
Qed.

(** *** The rectangle builder never overflows its array *)

Lemma fanEdges_in_range :
  Forall (fun i => 1 <= i <= 37)%nat (fanEdges 37).
Proof.
  assert (H : forallb (fun i => (1 <=? i) && (i <=? 37))%nat (fanEdges 37)
              = true) by reflexivity.
  rewrite forallb_forall in H. apply Forall_forall. intros i Hi.
  specialize (H i Hi). apply andb_true_iff in H. destruct H as [H1 H2].
  apply Nat.leb_le in H1. apply Nat.leb_le in H2. lia.
Qed.

Lemma placedVertices_normals theTrsf theNormal pts :
  Forall (fun v => vNorm v = Some theNormal)
    (placedVertices theTrsf theNormal pts).
Proof.
  unfold placedVertices. apply Forall_forall. intros v Hv.
  apply in_map_iff in Hv. destruct Hv as (p & <- & _). reflexivity.
Qed.

(** X5: Whatever the size, the radius and the placement, the builder raises
    no exception: it returns an array filled exactly to the capacity it
    was allocated with (37 vertices when the effective radius is
    positive, 4 otherwise, and three edges for each triangle), every edge
    names a vertex of the array, and every vertex carries the reversed Z
    direction of the placement as its normal. *)
Theorem createRoundRectangleTriangles_fills_array (theSize : gp_XY)
  (theRadius : R) (theTrsf : gp_Trsf) :
  exists aTris,
    createRoundRectangleTriangles theSize theRadius theTrsf = Some aTris
    /\ VertexNumber aTris = maxVertexs aTris
    /\ EdgeNumber aTris = maxEdges aTris
    /\ EdgeNumber aTris = (3 * length (triangles (edges aTris)))%nat
    /\ VertexNumber aTris
       = (if Rgtb (roundRadiusOf theSize theRadius) 0 then 37 else 4)%nat
    /\ Forall (fun i => 1 <= i <= VertexNumber aTris)%nat (edges aTris)
    /\ Forall (fun v => vNorm v
                        = Some (Reversed (Dir_Transformed DZ theTrsf)))
         (vertices aTris).
Proof.
  destruct (Rle_lt_dec (roundRadiusOf theSize theRadius) 0) as [Hle | Hgt].
  - eexists. split; [apply createRoundRectangleTriangles_sharp; exact Hle |].
    rewrite (proj2 (Rgtb_false _ _) Hle).
    unfold VertexNumber, EdgeNumber;
      cbn [vertices edges maxVertexs maxEdges].
    split; [reflexivity |]. split; [reflexivity |]. split; [reflexivity |].
    split; [reflexivity |].
    split; [| apply placedVertices_normals].
    unfold placedVertices, rectanglePoints. cbn [map length].
    repeat constructor.
  - eexists. split; [apply createRoundRectangleTriangles_rounded; lra |].
    rewrite (proj2 (Rgtb_true _ _) Hgt).
    unfold VertexNumber, EdgeNumber;
      cbn [vertices edges maxVertexs maxEdges].
    assert (HL : length (placedVertices theTrsf
                           (Reversed (Dir_Transformed DZ theTrsf))
                           (roundRectanglePoints theSize theRadius))
                 = 37%nat).
    { unfold placedVertices.
      now rewrite length_map, roundRectanglePoints_length. }
    rewrite HL.
    split; [reflexivity |]. split; [reflexivity |]. split; [reflexivity |].
    split; [reflexivity |].
    split; [apply fanEdges_in_range | apply placedVertices_normals].
Qed.

(** *** The outline of the rounded rectangle *)

Lemma INR_splits : INR THE_NB_ROUND_SPLITS = 8.
Proof. unfold THE_NB_ROUND_SPLITS. simpl. lra. Qed.

Lemma arcPoint_first (cx cy aRadius theStart theEnd : R) :
  arcPoint cx cy aRadius theStart theEnd 0
  = mkXYZ (cx + aRadius * cos theStart) (cy + aRadius * sin theStart) 0.0.
Proof.
  unfold arcPoint, Lerp_Interpolate. rewrite INR_splits.
  replace ((1 - INR 0 / 8) * theStart + INR 0 / 8 * theEnd) with theStart
    by (simpl; field).
  reflexivity.
Qed.

Lemma arcPoint_last (cx cy aRadius theStart theEnd : R) :
  arcPoint cx cy aRadius theStart theEnd THE_NB_ROUND_SPLITS
  = mkXYZ (cx + aRadius * cos theEnd) (cy + aRadius * sin theEnd) 0.0.
Proof.
  unfold arcPoint, Lerp_Interpolate. rewrite INR_splits.
  replace ((1 - 8 / 8) * theStart + 8 / 8 * theEnd) with theEnd by field.
  reflexivity.
Qed.

Lemma arcPoint_on_circle (cx cy aRadius theStart theEnd : R) (i : nat) :
  let p := arcPoint cx cy aRadius theStart theEnd i in
  (cX p - cx) * (cX p - cx) + (cY p - cy) * (cY p - cy)
  = aRadius * aRadius.
Proof.
  unfold arcPoint; cbn [cX cY].
  set (a := Lerp_Interpolate _ _ _).
  pose proof (sin2_cos2 a) as H. unfold Rsqr in H. nra.
Qed.

Lemma trig_quarters :
  cos (PI * 0.5) = 0 /\ sin (PI * 0.5) = 1
  /\ cos 0.0 = 1 /\ sin 0.0 = 0
  /\ cos (- PI * 0.5) = 0 /\ sin (- PI * 0.5) = -1
  /\ cos (- PI) = -1 /\ sin (- PI) = 0
  /\ cos (- PI * 1.5) = 0 /\ sin (- PI * 1.5) = 1.
Proof.
  replace (PI * 0.5) with (PI / 2) by lra.
  replace 0.0 with 0 by lra.
  replace (- PI * 0.5) with (- (PI / 2)) by lra.
  replace (- PI * 1.5) with (- (3 * (PI / 2))) by lra.
  rewrite !cos_neg, !sin_neg.
  rewrite cos_PI2, sin_PI2, cos_0, sin_0, cos_PI, sin_PI, cos_3PI2, sin_3PI2.
  repeat split; lra.
Qed.

Lemma arcPoint_8 (cx cy aRadius theStart theEnd : R) :
  arcPoint cx cy aRadius theStart theEnd 8
  = mkXYZ (cx + aRadius * cos theEnd) (cy + aRadius * sin theEnd) 0.0.
Proof. exact (arcPoint_last cx cy aRadius theStart theEnd). Qed.

(** X6: The outline of the rounded rectangle, for positive width, height and
    radius: every arc vertex lies on the circle of the effective radius
    about the corner centre of its arc, and the arcs start and end on the
    sides of the rectangle of the given width and height, so the mesh is
    exactly as wide and as high as asked; the second vertex and the last
    one both lie on the top side. *)
Theorem rounded_rectangle_outline (w h r : R) (theTrsf : gp_Trsf) :
  0 < w -> 0 < h -> 0 < r ->
  let aRadius := roundRadiusOf (mkXY w h) r in
  let hx := xyX (halfSizeOf (mkXY w h) r) in
  let hy := xyY (halfSizeOf (mkXY w h) r) in
  let place := fun p => Pnt_Transformed p theTrsf in
  exists aTris pts,
    createRoundRectangleTriangles (mkXY w h) r theTrsf = Some aTris
    /\ map vPos (vertices aTris) = map place (mkXYZ 0.0 0.0 0.0 :: pts)
    /\ Forall (fun p => exists cx cy,
                   (cx = hx \/ cx = - hx) /\ (cy = hy \/ cy = - hy)
                   /\ (cX p - cx) * (cX p - cx) + (cY p - cy) * (cY p - cy)
                      = aRadius * aRadius)
         pts
    /\ Vertice aTris 2 = Some (place (mkXYZ hx (h / 2) 0))
    /\ Vertice aTris 10 = Some (place (mkXYZ (w / 2) hy 0))
    /\ Vertice aTris 11 = Some (place (mkXYZ (w / 2) (- hy) 0))
    /\ Vertice aTris 19 = Some (place (mkXYZ hx (- (h / 2)) 0))
    /\ Vertice aTris 20 = Some (place (mkXYZ (- hx) (- (h / 2)) 0))
    /\ Vertice aTris 28 = Some (place (mkXYZ (- (w / 2)) (- hy) 0))
    /\ Vertice aTris 29 = Some (place (mkXYZ (- (w / 2)) hy 0))
    /\ Vertice aTris 37 = Some (place (mkXYZ (- hx) (h / 2) 0)).
Proof.
  intros Hw Hh Hr aRadius hx hy place.
  destruct (halfSizeOf_sum w h r) as [Sx Sy].
  fold hx aRadius in Sx. fold hy aRadius in Sy.
  destruct trig_quarters
    as (C1 & S1 & C2 & S2 & C3 & S3 & C4 & S4 & C5 & S5).
  eexists.
  exists (tl (roundRectanglePoints (mkXY w h) r)).
  split.
  { apply createRoundRectangleTriangles_rounded.
    apply roundRadiusOf_positive; assumption. }
  split.
  { cbn [vertices]. rewrite placedVertices_positions. reflexivity. }
  split.
  { unfold roundRectanglePoints. cbn [tl].
    repeat (apply Forall_app; split);
      apply Forall_forall; intros p Hp; apply in_map_iff in Hp;
      destruct Hp as (i & <- & _);
      [ exists hx, hy | exists hx, (- hy) | exists (- hx), (- hy)
      | exists (- hx), hy ];
      (split; [auto |]); (split; [auto |]); apply arcPoint_on_circle. }
  fold hx hy aRadius.
  unfold place.
  repeat split.
  - cbn [Vertice vertices placedVertices roundRectanglePoints map seq app
           nth_error option_map vPos THE_NB_ROUND_SPLITS Nat.add].
    rewrite arcPoint_first, C1, S1. do 2 f_equal. fold hx hy aRadius.
    apply xyz_eq; lra.
  - cbn [Vertice vertices placedVertices roundRectanglePoints map seq app
           nth_error option_map vPos THE_NB_ROUND_SPLITS Nat.add].
    rewrite arcPoint_8, C2, S2. do 2 f_equal. fold hx hy aRadius.
    apply xyz_eq; lra.
  - cbn [Vertice vertices placedVertices roundRectanglePoints map seq app
           nth_error option_map vPos THE_NB_ROUND_SPLITS Nat.add].
    rewrite arcPoint_first, C2, S2. do 2 f_equal. fold hx hy aRadius.
    apply xyz_eq; lra.
  - cbn [Vertice vertices placedVertices roundRectanglePoints map seq app
           nth_error option_map vPos THE_NB_ROUND_SPLITS Nat.add].
    rewrite arcPoint_8, C3, S3. do 2 f_equal. fold hx hy aRadius.
    apply xyz_eq; lra.
  - cbn [Vertice vertices placedVertices roundRectanglePoints map seq app
           nth_error option_map vPos THE_NB_ROUND_SPLITS Nat.add].
    rewrite arcPoint_first, C3, S3. do 2 f_equal. fold hx hy aRadius.
    apply xyz_eq; lra.
  - cbn [Vertice vertices placedVertices roundRectanglePoints map seq app
           nth_error option_map vPos THE_NB_ROUND_SPLITS Nat.add].
    rewrite arcPoint_8, C4, S4. do 2 f_equal. fold hx hy aRadius.
    apply xyz_eq; lra.
  - cbn [Vertice vertices placedVertices roundRectanglePoints map seq app
           nth_error option_map vPos THE_NB_ROUND_SPLITS Nat.add].
    rewrite arcPoint_first, C4, S4. do 2 f_equal. fold hx hy aRadius.
    apply xyz_eq; lra.
  - cbn [Vertice vertices placedVertices roundRectanglePoints map seq app
           nth_error option_map vPos THE_NB_ROUND_SPLITS Nat.add].
    rewrite arcPoint_8, C5, S5. do 2 f_equal. fold hx hy aRadius.
    apply xyz_eq; lra.
Qed.

Lemma rounded_rectangle_outline_witness :
  exists aTris,
    createRoundRectangleTriangles (mkXY 70 70) 7 identityTrsf = Some aTris
    /\ Vertice aTris 10
       = Some (Pnt_Transformed
                 (mkXYZ (70 / 2) (xyY (halfSizeOf (mkXY 70 70) 7)) 0)
                 identityTrsf)
    /\ Vertice aTris 37
       = Some (Pnt_Transformed
                 (mkXYZ (- xyX (halfSizeOf (mkXY 70 70) 7)) (70 / 2) 0)
                 identityTrsf).
Proof.
  destruct (rounded_rectangle_outline 70 70 7 identityTrsf
              ltac:(lra) ltac:(lra) ltac:(lra))
    as (aTris & pts & E & _ & _ & _ & V10 & _ & _ & _ & _ & _ & V37).
  exists aTris. auto.
Defined.

(** *** The sharp corner is an equilateral triangle *)

Lemma sqrt_two_squares (a : R) : sqrt (a * a + a * a) = Rabs a * sqrt 2.
Proof.
  replace (a * a + a * a) with (Rsqr a * 2) by (unfold Rsqr; ring).
  rewrite sqrt_mult; [| apply Rle_0_sqr | lra].
  now rewrite sqrt_Rsqr_abs.
Qed.

(** X7: In sharp mode the corner of a corner direction is an equilateral
    triangle: each vertex lies at the distance of the facet extension (in
    absolute value) from the corner of the cube, and each side has that
    length times the square root of 2. *)
Theorem sharp_corner_equilateral
  (placement : gp_Pnt -> gp_Dir -> gp_Trsf)
  (Prs3d_ToolDisk_Create :
     R -> R -> nat -> nat -> gp_Trsf -> Graphic3d_ArrayOfTriangles)
  (self : AIS_ViewCube) (o : V3d_TypeOfOrientation) :
  IsBoxCorner o = true ->
  myRoundRadius self <= 0 ->
  exists sx sy sz aTris p1 p2 p3,
    projSigns o = (sx, sy, sz)
    /\ createBoxCornerTriangles placement Prs3d_ToolDisk_Create self o
       = Some aTris
    /\ map vPos (vertices aTris) = [p1; p2; p3]
    /\ Forall (fun v => vNorm v = Some (GetProjAxis o)) (vertices aTris)
    /\ (let aCorner := mkXYZ (sx * (mySize self * 0.5))
                         (sy * (mySize self * 0.5))
                         (sz * (mySize self * 0.5)) in
        Modulus (Subtracted p1 aCorner) = Rabs (myBoxFacetExtension self)
        /\ Modulus (Subtracted p2 aCorner) = Rabs (myBoxFacetExtension self)
        /\ Modulus (Subtracted p3 aCorner) = Rabs (myBoxFacetExtension self))
    /\ Modulus (Subtracted p2 p1) = Rabs (myBoxFacetExtension self) * sqrt 2
    /\ Modulus (Subtracted p3 p2) = Rabs (myBoxFacetExtension self) * sqrt 2
    /\ Modulus (Subtracted p1 p3) = Rabs (myBoxFacetExtension self) * sqrt 2.
Proof.
  intros HC HR.
  destruct (corner_signs o HC) as (sx & sy & sz & E & Hx & Hy & Hz).
  assert (Hxx : sx * sx = 1) by (destruct Hx; subst; lra).
  assert (Hyy : sy * sy = 1) by (destruct Hy; subst; lra).
  assert (Hzz : sz * sz = 1) by (destruct Hz; subst; lra).
  pose proof (createBoxCornerTriangles_sharp placement Prs3d_ToolDisk_Create
                self o sx sy sz E Hxx Hyy Hzz HR) as HB.
  cbv zeta in HB.
  set (e := myBoxFacetExtension self) in *.
  set (a := mySize self * 0.5) in *.
  exists sx, sy, sz. eexists.
  exists (mkXYZ (sx * a + e * sx) (sy * a) (sz * a)),
    (mkXYZ (sx * a) (sy * a + e * sy) (sz * a)),
    (mkXYZ (sx * a) (sy * a) (sz * a + e * sz)).
  split; [exact E |]. split; [exact HB |].
  cbn [vertices map vPos]. split; [reflexivity |].
  split; [repeat constructor |].
  assert (One : forall s, s * s = 1 ->
                  sqrt (e * s * (e * s) + 0 + 0) = Rabs e).
  { intros s Hs.
    replace (e * s * (e * s) + 0 + 0) with (Rsqr e)
      by (unfold Rsqr; nra).
    apply sqrt_Rsqr_abs. }
  assert (Two : forall s t, s * s = 1 -> t * t = 1 ->
                  sqrt (e * s * (e * s) + e * t * (e * t))
                  = Rabs e * sqrt 2).
  { intros s t Hs Ht. rewrite <- sqrt_two_squares. f_equal. nra. }
  unfold Modulus, Subtracted; cbn [cX cY cZ].
  repeat split.
  - rewrite <- (One sx Hxx). f_equal. ring.
  - rewrite <- (One sy Hyy). f_equal. ring.
  - rewrite <- (One sz Hzz). f_equal. ring.
  - rewrite <- (Two sx sy Hxx Hyy). f_equal. ring.
  - rewrite <- (Two sy sz Hyy Hzz). f_equal. ring.
  - rewrite <- (Two sx sz Hxx Hzz). f_equal. ring.
Qed.

Lemma sharp_corner_equilateral_witness :
  exists aTris p1 p2 p3,
    createBoxCornerTriangles samplePlacement sampleDisk sampleViewCube
      V3d_XnegYposZneg = Some aTris
    /\ map vPos (vertices aTris) = [p1; p2; p3]
    /\ Modulus (Subtracted p2 p1)
       = Rabs (myBoxFacetExtension sampleViewCube) * sqrt 2.
Proof.
  assert (HC : IsBoxCorner V3d_XnegYposZneg = true)
    by (rewrite IsBoxCorner_tag; reflexivity).
  assert (HR : myRoundRadius sampleViewCube <= 0)
    by (cbn [myRoundRadius sampleViewCube newViewCube]; lra).
  destruct (sharp_corner_equilateral samplePlacement sampleDisk
              sampleViewCube V3d_XnegYposZneg HC HR)
    as (sx & sy & sz & aTris & p1 & p2 & p3 & _ & E & HV & _ & _ & H21 & _).
  exists aTris, p1, p2, p3. auto.
Defined.

(** *** The sharp corner below single precision *)

(** X17: The sharp corner when the facet extension is lost in single
    precision: if the first two nodes read back from the array are the
    same point (the facet extension does not change the single of the
    half size), the third is that point too, the normal computed from
    them is (0, 0, 0) in either winding, the test [< 0.0] fails and the
    winding stays (1, 2, 3), whatever the sign of the corner. *)
Theorem sharp_corner_nodes_fall_together
  (placement : gp_Pnt -> gp_Dir -> gp_Trsf)
  (Prs3d_ToolDisk_Create :
     R -> R -> nat -> nat -> gp_Trsf -> Graphic3d_ArrayOfTriangles)
  (self : AIS_ViewCube) (o : V3d_TypeOfOrientation) :
  IsBoxCorner o = true ->
  myRoundRadius self <= 0 ->
  exists aTris aNode1 aNode2 aNode3,
    createBoxCornerTriangles placement Prs3d_ToolDisk_Create self o
    = Some aTris
    /\ StoredVertice aTris 1 = Some aNode1
    /\ StoredVertice aTris 2 = Some aNode2
    /\ StoredVertice aTris 3 = Some aNode3
    /\ [aNode1; aNode2; aNode3] = map ShortPnt (map vPos (vertices aTris))
    /\ (aNode1 = aNode2 ->
        aNode1 = aNode3
        /\ triangles (edges aTris) = [(1, 2, 3)]%nat
        /\ storedFaceNormal aTris (1, 2, 3)%nat = Some (mkXYZ 0 0 0)
        /\ storedFaceNormal aTris (1, 3, 2)%nat = Some (mkXYZ 0 0 0)).
Proof.
  intros HC HR.
  destruct (corner_signs o HC) as (sx & sy & sz & E & Hx & Hy & Hz).
  destruct sqrt3_facts as (Hq & _ & _).
  destruct (createBoxCornerTriangles_held placement Prs3d_ToolDisk_Create
              self o sx sy sz E Hx Hy Hz HR) as (HB & Q1 & Q2 & Q3).
  cbv zeta in HB, Q1, Q2, Q3.
  set (aHSize := mySize self * 0.5) in *.
  set (anExt := myBoxFacetExtension self) in *.
  set (a := RealToShortReal aHSize) in *.
  set (d := RealToShortReal (aHSize + anExt) - a) in *.
  set (p1 := mkXYZ (sx * aHSize + anExt * sx) (sy * aHSize) (sz * aHSize))
    in *.
  set (p2 := mkXYZ (sx * aHSize) (sy * aHSize + anExt * sy) (sz * aHSize))
    in *.
  set (p3 := mkXYZ (sx * aHSize) (sy * aHSize) (sz * aHSize + anExt * sz))
    in *.
  eexists. exists (ShortPnt p1), (ShortPnt p2), (ShortPnt p3).
  split; [exact HB |]. cbn [vertices edges map vPos].
  split; [reflexivity |]. split; [reflexivity |].
  split; [reflexivity |]. split; [reflexivity |].
  intros H12.
  assert (Hd : d = 0).
  { rewrite Q1, Q2 in H12. apply (f_equal cX) in H12. cbn [cX] in H12.
    destruct Hx; subst sx; lra. }
  rewrite Hd in *.
  assert (G : Rltb (3 * (sx * sy * sz) * (0 * 0) / sqrt 3) 0.0 = false).
  { apply Rltb_false.
    replace (3 * (sx * sy * sz) * (0 * 0) / sqrt 3) with 0 by (field; lra).
    lra. }
  rewrite G.
  cbn [edges triangles StoredVertice Vertice vertices map nth_error
         option_map vPos storedFaceNormal bind].
  rewrite Q1, Q2, Q3.
  split; [apply xyz_eq; ring |].
  split; [reflexivity |].
  unfold Crossed, Subtracted; cbn [cX cY cZ].
  split; f_equal; apply xyz_eq; ring.
Qed.

Lemma sharp_corner_nodes_fall_together_witness :
  exists aTris aNode,
    createBoxCornerTriangles samplePlacement sampleDisk thinViewCube
      V3d_XposYposZpos = Some aTris
    /\ myBoxFacetExtension thinViewCube > 0
    /\ StoredVertice aTris 1 = Some aNode
    /\ StoredVertice aTris 2 = Some aNode
    /\ StoredVertice aTris 3 = Some aNode
    /\ triangles (edges aTris) = [(1, 2, 3)]%nat
    /\ storedFaceNormal aTris (1, 2, 3)%nat = Some (mkXYZ 0 0 0).
Proof.
  assert (HC : IsBoxCorner V3d_XposYposZpos = true)
    by (rewrite IsBoxCorner_tag; reflexivity).
  assert (HR : myRoundRadius thinViewCube <= 0)
    by (cbn [myRoundRadius thinViewCube]; lra).
  assert (E0 : projSigns V3d_XposYposZpos = (1, 1, 1)) by reflexivity.
  destruct (createBoxCornerTriangles_held samplePlacement sampleDisk
              thinViewCube V3d_XposYposZpos 1 1 1 E0
              ltac:(auto) ltac:(auto) ltac:(auto) HR)
    as (HB & Q1 & Q2 & Q3).
  cbv zeta in HB, Q1, Q2, Q3.
  assert (Hd : RealToShortReal
                 (mySize thinViewCube * 0.5
                  + myBoxFacetExtension thinViewCube)
               - RealToShortReal (mySize thinViewCube * 0.5) = 0).
  { cbn [mySize myBoxFacetExtension thinViewCube].
    replace (70 * 0.5) with 35 by lra.
    rewrite RealToShortReal_35_000001, RealToShortReal_35. lra. }
  rewrite Hd in Q1, Q2, Q3.
  destruct (sharp_corner_nodes_fall_together samplePlacement sampleDisk
              thinViewCube V3d_XposYposZpos HC HR)
    as (aTris & aNode1 & aNode2 & aNode3 & E & S1 & S2 & S3 & HL & HI).
  rewrite HB in E. injection E as <-.
  cbn [vertices map vPos] in HL. injection HL as -> -> ->.
  cbn [mySize myBoxFacetExtension thinViewCube] in Q1, Q2, Q3.
  destruct HI as (H13 & HT & HN & _).
  { rewrite Q1, Q2. apply xyz_eq; lra. }
  eexists. eexists.
  split; [exact HB |].
  split; [cbn [myBoxFacetExtension thinViewCube]; lra |].
  split; [exact S1 |].
  split.
  { etransitivity; [exact S2 |].
    f_equal. rewrite Q1, Q2. apply xyz_eq; lra. }
  split.
  { etransitivity; [exact S3 |]. f_equal. symmetry. exact H13. }
  split; [exact HT | exact HN].
Defined.

(** *** Sides, edges and the dispatch on the kind of part *)

Lemma roundRadiusOf_square (s rr : R) :
  0 <= s -> 0 <= rr <= 0.5 ->
  roundRadiusOf (mkXY s s) (rr * s) = rr * s.
Proof.
  intros Hs Hr. unfold roundRadiusOf; cbn [xyX xyY].
  rewrite (Rmin_left s s) by lra.
  apply Rmin_left. nra.
Qed.

(** X8: On a side, the radius asked for is the radius built: with the round
    radius a fraction in [0, 0.5], as [SetRoundRadius] keeps it, and a
    positive size, the clamp of the rectangle builder leaves
    [myRoundRadius * mySize] as it is; the side has 4 vertices for the
    fraction 0 and 37 otherwise, and its flat half length is
    [mySize * 0.5 - myRoundRadius * mySize] both ways. *)
Theorem side_radius_not_clamped
  (placement : gp_Pnt -> gp_Dir -> gp_Trsf)
  (self : AIS_ViewCube) (o : V3d_TypeOfOrientation) :
  0 < mySize self ->
  0 <= myRoundRadius self <= 0.5 ->
  let s := mySize self in
  let aRadius := myRoundRadius self * s in
  let aTrsf :=
    placement (Multiplied (GetProjAxis o) (s * 0.5 + myBoxFacetExtension self))
      (Reversed (GetProjAxis o)) in
  exists aTris,
    createBoxSideTriangles placement self o = Some aTris
    /\ roundRadiusOf (mkXY s s) aRadius = aRadius
    /\ halfSizeOf (mkXY s s) aRadius
       = mkXY (s * 0.5 - aRadius) (s * 0.5 - aRadius)
    /\ 0 <= s * 0.5 - aRadius
    /\ (myRoundRadius self = 0 ->
        VertexNumber aTris = 4%nat
        /\ map vPos (vertices aTris)
           = map (fun p => Pnt_Transformed p aTrsf)
               (rectanglePoints (mkXY s s) aRadius))
    /\ (0 < myRoundRadius self ->
        VertexNumber aTris = 37%nat
        /\ map vPos (vertices aTris)
           = map (fun p => Pnt_Transformed p aTrsf)
               (roundRectanglePoints (mkXY s s) aRadius)).
Proof.
  intros Hs Hr s aRadius aTrsf.
  assert (ER : roundRadiusOf (mkXY s s) aRadius = aRadius)
    by (apply roundRadiusOf_square; [unfold s; lra | exact Hr]).
  assert (EH : halfSizeOf (mkXY s s) aRadius
               = mkXY (s * 0.5 - aRadius) (s * 0.5 - aRadius)).
  { unfold halfSizeOf. rewrite ER. reflexivity. }
  assert (H0 : 0 <= s * 0.5 - aRadius) by (unfold aRadius, s; nra).
  unfold createBoxSideTriangles. fold s aRadius aTrsf.
  destruct (Rle_lt_dec aRadius 0) as [Hle | Hgt].
  - eexists. split.
    { apply createRoundRectangleTriangles_sharp. rewrite ER. exact Hle. }
    split; [exact ER |]. split; [exact EH |]. split; [exact H0 |].
    unfold VertexNumber; cbn [vertices].
    rewrite placedVertices_positions. split.
    + intros _. split; reflexivity.
    + intros Hpos. exfalso. unfold aRadius, s in Hle. nra.
  - eexists. split.
    { apply createRoundRectangleTriangles_rounded. rewrite ER. lra. }
    split; [exact ER |]. split; [exact EH |]. split; [exact H0 |].
    unfold VertexNumber; cbn [vertices].
    rewrite placedVertices_positions. split.
    + intros Hz. exfalso. unfold aRadius in Hgt. rewrite Hz in Hgt. lra.
    + intros _. split; [| reflexivity].
      unfold placedVertices.
      now rewrite length_map, roundRectanglePoints_length.
Qed.

Lemma side_radius_not_clamped_witness :
  exists aTris,
    createBoxSideTriangles samplePlacement sampleViewCube V3d_Xpos
    = Some aTris
    /\ VertexNumber aTris = 4%nat.
Proof.
  assert (Hs : 0 < mySize sampleViewCube)
    by (cbn [mySize sampleViewCube newViewCube]; lra).
  assert (Hr : 0 <= myRoundRadius sampleViewCube <= 0.5)
    by (cbn [myRoundRadius sampleViewCube newViewCube]; lra).
  destruct (side_radius_not_clamped samplePlacement sampleViewCube V3d_Xpos
              Hs Hr) as (aTris & E & _ & _ & _ & H4 & _).
  exists aTris. split; [exact E |]. apply H4. reflexivity.
Defined.

(** X9: With [myBoxEdgeMinSize], the size and the round radius
    non-negative, an edge is not thinner than [myBoxEdgeMinSize], and
    every vertex of the edge is the placed image of a point inside the
    rectangle of the thickness by the size, however large the radius
    asked for is against the thickness. *)
Theorem edge_inside_its_rectangle
  (placement : gp_Pnt -> gp_Dir -> gp_Trsf)
  (self : AIS_ViewCube) (o : V3d_TypeOfOrientation) :
  0 <= myBoxEdgeMinSize self ->
  0 <= mySize self ->
  0 <= myRoundRadius self ->
  let aTrsf :=
    placement
      (Multiplied (GetProjAxis o)
         (mySize self * 0.5 * XY_Modulus (mkXY 1.0 1.0)
          + myBoxFacetExtension self * cos (PI / 4)))
      (Reversed (GetProjAxis o)) in
  myBoxEdgeMinSize self <= edgeThickness self
  /\ myBoxFacetExtension self * XY_Modulus (mkXY 1.0 1.0) - myBoxEdgeGap self
     <= edgeThickness self
  /\ exists aTris pts,
       createBoxEdgeTriangles placement self o = Some aTris
       /\ map vPos (vertices aTris)
          = map (fun p => Pnt_Transformed p aTrsf) pts
       /\ Forall (insideRectangle (edgeThickness self) (mySize self)) pts.
Proof.
  intros Hm Hs Hr aTrsf.
  assert (T1 : myBoxEdgeMinSize self <= edgeThickness self)
    by (unfold edgeThickness; apply Rmax_r).
  assert (T2 : myBoxFacetExtension self * XY_Modulus (mkXY 1.0 1.0)
               - myBoxEdgeGap self <= edgeThickness self)
    by (unfold edgeThickness; apply Rmax_l).
  split; [exact T1 |]. split; [exact T2 |].
  assert (Ht : 0 <= edgeThickness self) by lra.
  assert (Hrs : 0 <= myRoundRadius self * mySize self) by nra.
  unfold createBoxEdgeTriangles. fold aTrsf.
  destruct (Rle_lt_dec
              (roundRadiusOf (mkXY (edgeThickness self) (mySize self))
                 (myRoundRadius self * mySize self)) 0) as [Hle | Hgt].
  - eexists.
    exists (rectanglePoints (mkXY (edgeThickness self) (mySize self))
              (myRoundRadius self * mySize self)).
    split; [apply createRoundRectangleTriangles_sharp; exact Hle |].
    cbn [vertices]. rewrite placedVertices_positions.
    split; [reflexivity |]. now apply rectanglePoints_inside.
  - eexists.
    exists (roundRectanglePoints (mkXY (edgeThickness self) (mySize self))
              (myRoundRadius self * mySize self)).
    split; [apply createRoundRectangleTriangles_rounded; lra |].
    cbn [vertices]. rewrite placedVertices_positions.
    split; [reflexivity |]. now apply roundRectanglePoints_inside.
Qed.

Lemma edge_inside_its_rectangle_witness :
  myBoxEdgeMinSize sampleViewCube <= edgeThickness sampleViewCube
  /\ exists aTris,
       createBoxEdgeTriangles samplePlacement sampleViewCube V3d_XposYpos
       = Some aTris.
Proof.
  destruct (edge_inside_its_rectangle samplePlacement sampleViewCube
              V3d_XposYpos
              ltac:(cbn [myBoxEdgeMinSize sampleViewCube newViewCube]; lra)
              ltac:(cbn [mySize sampleViewCube newViewCube]; lra)
              ltac:(cbn [myRoundRadius sampleViewCube newViewCube]; lra))
    as (H1 & _ & aTris & pts & E & _).
  split; [exact H1 |]. exists aTris. exact E.
Defined.

Lemma createRoundRectangleTriangles_some theSize theRadius theTrsf :
  exists aTris,
    createRoundRectangleTriangles theSize theRadius theTrsf = Some aTris.
Proof.
  destruct (Rle_lt_dec (roundRadiusOf theSize theRadius) 0) as [Hle | Hgt].
  - eexists. apply createRoundRectangleTriangles_sharp. exact Hle.
  - eexists. apply createRoundRectangleTriangles_rounded. lra.
Qed.

Lemma createBoxCornerTriangles_some placement Prs3d_ToolDisk_Create
  (self : AIS_ViewCube) (o : V3d_TypeOfOrientation) :
  IsBoxCorner o = true ->
  exists aTris,
    createBoxCornerTriangles placement Prs3d_ToolDisk_Create self o
    = Some aTris.
Proof.
  intros HC.
  destruct (Rle_lt_dec (myRoundRadius self) 0) as [Hle | Hgt].
  - destruct (corner_signs o HC) as (sx & sy & sz & E & Hx & Hy & Hz).
    eexists.
    apply (createBoxCornerTriangles_sharp placement Prs3d_ToolDisk_Create
             self o sx sy sz E);
      [destruct Hx; subst; lra | destruct Hy; subst; lra
      | destruct Hz; subst; lra | exact Hle].
  - unfold createBoxCornerTriangles.
    assert (G : Rgtb (myRoundRadius self) 0.0 = true)
      by (apply Rgtb_true; lra).
    rewrite G. eexists. reflexivity.
Qed.

Lemma kinds_exclusive (o : V3d_TypeOfOrientation) :
  (IsBoxSide o = true /\ IsBoxEdge o = false /\ IsBoxCorner o = false)
  \/ (IsBoxSide o = false /\ IsBoxEdge o = true /\ IsBoxCorner o = false)
  \/ (IsBoxSide o = false /\ IsBoxEdge o = false /\ IsBoxCorner o = true).
Proof.
  rewrite IsBoxSide_tag, IsBoxEdge_tag, IsBoxCorner_tag.
  destruct o; cbn; tauto.
Qed.

(** Whether [createBoxPartTriangles] hands out triangles is decided by
    [isDisplayedPart] alone. *)
Lemma createBoxPartTriangles_shown
  (placement : gp_Pnt -> gp_Dir -> gp_Trsf)
  (Prs3d_ToolDisk_Create :
     R -> R -> nat -> nat -> gp_Trsf -> Graphic3d_ArrayOfTriangles)
  (self : AIS_ViewCube) (o : V3d_TypeOfOrientation) :
  exists aPart,
    createBoxPartTriangles placement Prs3d_ToolDisk_Create self o
    = Some aPart
    /\ (aPart <> None <-> isDisplayedPart self o = true).
Proof.
  unfold createBoxPartTriangles, isDisplayedPart.
  destruct (kinds_exclusive o) as [(HS & HE & HC) | [(HS & HE & HC)
                                                    | (HS & HE & HC)]];
    rewrite HS, HE, HC; cbn [andb orb].
  - unfold createBoxSideTriangles.
    destruct (createRoundRectangleTriangles_some
                (mkXY (mySize self) (mySize self))
                (myRoundRadius self * mySize self)
                (placement
                   (Multiplied (GetProjAxis o)
                      (mySize self * 0.5 + myBoxFacetExtension self))
                   (Reversed (GetProjAxis o)))) as (a & ->).
    cbn [option_map]. eexists. split; [reflexivity |].
    split; [reflexivity | discriminate].
  - unfold createBoxEdgeTriangles.
    destruct (createRoundRectangleTriangles_some
                (mkXY (edgeThickness self) (mySize self))
                (myRoundRadius self * mySize self)
                (placement
                   (Multiplied (GetProjAxis o)
                      (mySize self * 0.5 * XY_Modulus (mkXY 1.0 1.0)
                       + myBoxFacetExtension self * cos (PI / 4)))
                   (Reversed (GetProjAxis o)))) as (a & ->).
    destruct (myToDisplayEdges self); cbn [option_map];
      eexists; (split; [reflexivity |]);
      split; try discriminate; try congruence; auto.
  - destruct (createBoxCornerTriangles_some placement Prs3d_ToolDisk_Create
                self o HC) as (a & ->).
    destruct (myToDisplayVertices self); cbn [option_map];
      eexists; (split; [reflexivity |]);
      split; try discriminate; try congruence; auto.
Qed.

(** X10: [createBoxPartTriangles] raises no exception on any of the 26
    orientations, whatever the style: it returns triangles for every
    side, for an edge exactly when edges are displayed and for a corner
    exactly when vertices are displayed, and the null handle
    otherwise. *)
Theorem createBoxPartTriangles_dispatch
  (placement : gp_Pnt -> gp_Dir -> gp_Trsf)
  (Prs3d_ToolDisk_Create :
     R -> R -> nat -> nat -> gp_Trsf -> Graphic3d_ArrayOfTriangles)
  (self : AIS_ViewCube) (o : V3d_TypeOfOrientation) :
  exists aPart,
    createBoxPartTriangles placement Prs3d_ToolDisk_Create self o
    = Some aPart
    /\ (IsBoxSide o = true ->
        aPart <> None
        /\ option_map Some (createBoxSideTriangles placement self o)
           = Some aPart)
    /\ (IsBoxEdge o = true ->
        (myToDisplayEdges self = true ->
         aPart <> None
         /\ option_map Some (createBoxEdgeTriangles placement self o)
            = Some aPart)
        /\ (myToDisplayEdges self = false -> aPart = None))
    /\ (IsBoxCorner o = true ->
        (myToDisplayVertices self = true ->
         aPart <> None
         /\ option_map Some
              (createBoxCornerTriangles placement Prs3d_ToolDisk_Create
                 self o) = Some aPart)
        /\ (myToDisplayVertices self = false -> aPart = None))
    /\ (aPart <> None <-> isDisplayedPart self o = true).
Proof.
  unfold createBoxPartTriangles, isDisplayedPart.
  destruct (kinds_exclusive o) as [(HS & HE & HC) | [(HS & HE & HC)
                                                    | (HS & HE & HC)]];
    rewrite HS, HE, HC; cbn [andb orb].
  - unfold createBoxSideTriangles.
    destruct (createRoundRectangleTriangles_some
                (mkXY (mySize self) (mySize self))
                (myRoundRadius self * mySize self)
                (placement
                   (Multiplied (GetProjAxis o)
                      (mySize self * 0.5 + myBoxFacetExtension self))
                   (Reversed (GetProjAxis o)))) as (a & ->).
    cbn [option_map]. eexists. split; [reflexivity |].
    repeat split; try discriminate; auto.
  - unfold createBoxEdgeTriangles.
    destruct (createRoundRectangleTriangles_some
                (mkXY (edgeThickness self) (mySize self))
                (myRoundRadius self * mySize self)
                (placement
                   (Multiplied (GetProjAxis o)
                      (mySize self * 0.5 * XY_Modulus (mkXY 1.0 1.0)
                       + myBoxFacetExtension self * cos (PI / 4)))
                   (Reversed (GetProjAxis o)))) as (a & ->).
    destruct (myToDisplayEdges self); cbn [option_map];
      eexists; (split; [reflexivity |]);
      repeat split; try discriminate; try congruence; auto.
  - destruct (createBoxCornerTriangles_some placement Prs3d_ToolDisk_Create
                self o HC) as (a & ->).
    destruct (myToDisplayVertices self); cbn [option_map];
      eexists; (split; [reflexivity |]);
      repeat split; try discriminate; try congruence; auto.
Qed.

Lemma createBoxPartTriangles_dispatch_witness :
  exists aPart,
    createBoxPartTriangles samplePlacement sampleDisk sampleViewCube
      V3d_XposYposZpos = Some aPart
    /\ aPart <> None.
Proof.
  destruct (createBoxPartTriangles_dispatch samplePlacement sampleDisk
              sampleViewCube V3d_XposYposZpos)
    as (aPart & E & _ & _ & HC & _).
  exists aPart. split; [exact E |].
  apply HC; [rewrite IsBoxCorner_tag |]; reflexivity.
Defined.

(** *** The selection *)

Lemma selectionLoop_parts placement Prs3d_ToolDisk_Create
  (self : AIS_ViewCube) (l : list V3d_TypeOfOrientation) :
  forall theSelection,
  exists added,
    selectionLoop placement Prs3d_ToolDisk_Create l self theSelection
    = Some (theSelection ++ added)
    /\ map (fun e => MainOrientation (sensOwner e)) added
       = filter (isDisplayedPart self) l
    /\ Forall (fun e =>
                 SensitivityFactor e
                 = sensitivityOf (MainOrientation (sensOwner e))
                 /\ createBoxPartTriangles placement Prs3d_ToolDisk_Create
                      self (MainOrientation (sensOwner e))
                    = Some (Some (sensTris e)))
         added.
Proof.
  induction l as [| o l IH]; intros theSelection.
  - exists []. cbn. rewrite app_nil_r. auto.
  - cbn [selectionLoop filter].
    destruct (createBoxPartTriangles_shown placement Prs3d_ToolDisk_Create
                self o) as (aPart & E & HD).
    rewrite E. cbn [bind].
    destruct aPart as [aTris |].
    + assert (D : isDisplayedPart self o = true)
        by (apply HD; discriminate).
      rewrite D.
      destruct (IH (theSelection
                    ++ [mkSensitive (mkOwner o) aTris
                          (if IsBoxCorner o then 8%nat
                           else if IsBoxEdge o then 4%nat else 2%nat)]))
        as (added & EL & EM & EF).
      eexists. rewrite EL, <- app_assoc. split; [reflexivity |].
      cbn [app map sensOwner MainOrientation]. rewrite EM.
      split; [reflexivity |]. constructor; [| exact EF].
      cbn [SensitivityFactor sensOwner MainOrientation sensTris].
      split; [reflexivity | exact E].
    + assert (D : isDisplayedPart self o = false).
      { destruct (isDisplayedPart self o) eqn:D'; [| reflexivity].
        exfalso. now apply (proj2 HD). }
      rewrite D. apply IH.
Qed.

Lemma displayed_parts_count (self : AIS_ViewCube) :
  length (filter (isDisplayedPart self) allOrientations)
  = (6 + (if myToDisplayEdges self then 12 else 0)
     + (if myToDisplayVertices self then 8 else 0))%nat.
Proof.
  rewrite (filter_ext _
             (fun o => Nat.eqb (tagComponents o) 1
                       || (Nat.eqb (tagComponents o) 2
                           && myToDisplayEdges self)
                       || (Nat.eqb (tagComponents o) 3
                           && myToDisplayVertices self))).
  - destruct (myToDisplayEdges self), (myToDisplayVertices self);
      reflexivity.
  - intros o. unfold isDisplayedPart.
    now rewrite IsBoxSide_tag, IsBoxEdge_tag, IsBoxCorner_tag.
Qed.

(** X11: In selection mode 0, [ComputeSelection] adds one sensitive entity per
    displayed part, in the order of the enumeration, each owned by the
    orientation of its part, made of the triangles of that part and with
    the sensitivity 2 for a side, 4 for an edge and 8 for a corner:
    6 entities for the sides, 12 more when edges are displayed and 8
    more when vertices are; in any other mode it adds nothing.  No
    exception is raised. *)
Theorem ComputeSelection_entities
  (placement : gp_Pnt -> gp_Dir -> gp_Trsf)
  (Prs3d_ToolDisk_Create :
     R -> R -> nat -> nat -> gp_Trsf -> Graphic3d_ArrayOfTriangles)
  (self : AIS_ViewCube) (theSelection : list AIS_ViewCubeSensitive)
  (theMode : Z) :
  (theMode <> 0%Z ->
   ComputeSelection placement Prs3d_ToolDisk_Create self theSelection theMode
   = Some theSelection)
  /\ exists added,
       ComputeSelection placement Prs3d_ToolDisk_Create self theSelection 0
       = Some (theSelection ++ added)
       /\ map (fun e => MainOrientation (sensOwner e)) added
          = filter (isDisplayedPart self) allOrientations
       /\ NoDup (map (fun e => MainOrientation (sensOwner e)) added)
       /\ length added
          = (6 + (if myToDisplayEdges self then 12 else 0)
             + (if myToDisplayVertices self then 8 else 0))%nat
       /\ Forall (fun e =>
                    let o := MainOrientation (sensOwner e) in
                    SensitivityFactor e
                    = (if IsBoxCorner o then 8
                       else if IsBoxEdge o then 4 else 2)%nat
                    /\ createBoxPartTriangles placement
                         Prs3d_ToolDisk_Create self o
                       = Some (Some (sensTris e)))
            added.
Proof.
  split.
  - intros Hm. unfold ComputeSelection.
    destruct (Z.eqb_spec theMode 0) as [-> | _]; [contradiction |].
    reflexivity.
  - unfold ComputeSelection. cbn [Z.eqb negb].
    destruct (selectionLoop_parts placement Prs3d_ToolDisk_Create self
                allOrientations theSelection) as (added & E & EM & EF).
    exists added. split; [exact E |]. split; [exact EM |].
    split.
    { rewrite EM. apply NoDup_filter. unfold allOrientations.
      repeat (constructor; [simpl; intuition discriminate |]).
      constructor. }
    split.
    { rewrite <- (length_map (fun e => MainOrientation (sensOwner e))), EM.
      apply displayed_parts_count. }
    exact EF.
Qed.

Lemma ComputeSelection_entities_witness :
  ComputeSelection samplePlacement sampleDisk sampleViewCube [] 1 = Some [].
Proof.
  apply (proj1 (ComputeSelection_entities samplePlacement sampleDisk
                  sampleViewCube [] 1)).
  discriminate.
Defined.

(** *** The labels of the sides *)

Lemma mkDir_unit (x y z : R) :
  x * x + y * y + z * z = 1 -> mkDir x y z = Some (mkXYZ x y z).
Proof.
  intros H. unfold mkDir. rewrite H, sqrt_1.
  pose proof Resolution_small as HR.
  rewrite (proj2 (Rleb_false 1 Resolution)) by lra.
  now rewrite normalized_unit.
Qed.

Lemma Modulus_unit (x y z : R) :
  x * x + y * y + z * z = 1 -> Modulus (mkXYZ x y z) = 1.
Proof. intros H. unfold Modulus; cbn [cX cY cZ]. rewrite H. apply sqrt_1. Qed.

Lemma GetProjAxis_side (o : V3d_TypeOfOrientation) :
  IsBoxSide o = true ->
  GetProjAxis o
  = mkXYZ (fst (fst (projSigns o))) (snd (fst (projSigns o)))
      (snd (projSigns o)).
Proof.
  rewrite IsBoxSide_tag.
  destruct o; cbn [tagComponents Nat.eqb]; intros H; try discriminate;
    unfold GetProjAxis, projSigns; cbn [fst snd];
    apply normalized_unit; lra.
Qed.

(** X12: The label of every side can be placed, under the Z-up and under the
    Y-up convention: the up vector [Compute] chooses is perpendicular to
    the axis of the side (this is what its special cases for the top and
    the bottom side are for), so [anUp.Crossed (aDir)] raises no
    exception and is a unit vector perpendicular to both; the label sits
    on the axis of the side, 2 units beyond the facets. *)
Theorem side_label_placement (self : AIS_ViewCube)
  (o : V3d_TypeOfOrientation) :
  IsBoxSide o = true ->
  let aDir := GetProjAxis o in
  let anUp := canonicalUp o (myIsYup self) in
  exists aVx,
    labelPlacement self o
    = Some (Multiplied aDir
              (mySize self * 0.5 + myBoxFacetExtension self + 2.0),
            aDir, aVx)
    /\ Dot anUp aDir = 0
    /\ Modulus aVx = 1
    /\ Dot aVx aDir = 0
    /\ Dot aVx anUp = 0.
Proof.
  intros HS aDir anUp. unfold labelPlacement, Dir_Crossed.
  fold aDir anUp. unfold aDir, anUp.
  rewrite (GetProjAxis_side o HS).
  rewrite IsBoxSide_tag in HS.
  destruct o; cbn [tagComponents Nat.eqb] in HS; try discriminate;
    destruct (myIsYup self);
    unfold canonicalUp, projSigns, Crossed, Reversed, DX, DY, DZ;
    cbn [fst snd cX cY cZ];
    (rewrite mkDir_unit by lra); cbn [bind];
    eexists; (split; [reflexivity |]);
    (split; [unfold Dot; cbn [cX cY cZ]; lra |]);
    (split; [apply Modulus_unit; lra |]);
    split; unfold Dot; cbn [cX cY cZ]; lra.
Qed.

Lemma side_label_placement_witness :
  exists aVx,
    labelPlacement sampleViewCube V3d_Zpos
    = Some (Multiplied (GetProjAxis V3d_Zpos)
              (mySize sampleViewCube * 0.5
               + myBoxFacetExtension sampleViewCube + 2.0),
            GetProjAxis V3d_Zpos, aVx)
    /\ Modulus aVx = 1.
Proof.
  assert (HS : IsBoxSide V3d_Zpos = true)
    by (rewrite IsBoxSide_tag; reflexivity).
  destruct (side_label_placement sampleViewCube V3d_Zpos HS)
    as (aVx & E & _ & H1 & _).
  exists aVx. auto.
Defined.

(** *** HandleClick *)

Lemma UpdateAnimation_running_events aPts self aView :
  HasAnimation self = true -> aPts < myDuration self ->
  View (myViewAnimation self) = Some aView ->
  exists self',
    UpdateAnimation true aPts self = (true, self')
    /\ HasAnimation self' = true
    /\ myDuration self' = myDuration self
    /\ myViewAnimation self' = myViewAnimation self
    /\ myEndState self' = myEndState self
    /\ myEvents self' = myEvents self ++ [redrawOf aView; onAfterAnimation].
Proof.
  intros HA Hlt HV. unfold UpdateAnimation, updateAnimation.
  rewrite HA, HV. cbn [negb].
  rewrite (proj2 (Rgeb_false _ _) Hlt). cbn [negb].
  eexists. split; [reflexivity |]. unfold redrawOf.
  destruct (IsInvalidated aView);
    cbn [emit set_myEvents myEvents myDuration myViewAnimation myEndState
           HasAnimation];
    rewrite <- app_assoc; auto.
Qed.

Lemma animationLoop_runs (below : list R) :
  forall (self : AIS_ViewCube) (aView : V3d_View) (aPts : R) (rest : list R),
    HasAnimation self = true ->
    View (myViewAnimation self) = Some aView ->
    Forall (fun p => p < myDuration self) below ->
    aPts >= myDuration self ->
    exists self',
      animationLoop (below ++ aPts :: rest) self = Some self'
      /\ HasAnimation self' = false
      /\ View (myViewAnimation self') = None
      /\ myEndState self' = myEndState self
      /\ myEvents self'
         = myEvents self
           ++ flat_map (fun _ => [redrawOf aView; onAfterAnimation]) below
           ++ [onAnimationFinished].
Proof.
  induction below as [| p below IH]; intros self aView aPts rest HA HV HF Hge.
  - cbn [app animationLoop flat_map]. rewrite HA.
    destruct (UpdateAnimation_finishing true aPts self HA Hge)
      as (s1 & E & HA1 & HV1 & HE1 & _).
    rewrite E. cbn [snd].
    exists s1.
    assert (EL : animationLoop rest s1 = Some s1)
      by (destruct rest; cbn [animationLoop]; rewrite HA1; reflexivity).
    rewrite EL. repeat split; auto.
    unfold UpdateAnimation, updateAnimation in E.
    rewrite HA in E. cbn [negb] in E.
    rewrite (proj2 (Rgeb_true _ _) Hge) in E. cbn [negb] in E.
    inversion E. reflexivity.
  - inversion HF as [| ? ? Hlt HF']; subst.
    cbn [app animationLoop flat_map]. rewrite HA.
    destruct (UpdateAnimation_running_events p self aView HA Hlt HV)
      as (s1 & E & HA1 & HD1 & HV1 & HS1 & HE1).
    rewrite E. cbn [snd].
    rewrite <- HD1 in HF', Hge. rewrite <- HV1 in HV.
    destruct (IH s1 aView aPts rest HA1 HV HF' Hge)
      as (s2 & E2 & HA2 & HV2 & HS2 & HE2).
    exists s2. split; [exact E2 |]. split; [exact HA2 |].
    split; [exact HV2 |]. split; [congruence |].
    rewrite HE2, HE1. rewrite <- !app_assoc. reflexivity.
Qed.

(** X13: [HandleClick] with the fixed animation: once the owner and an
    active view are there, the call ticks until the timer reaches the
    duration and returns with the animation stopped and the view
    detached; it has asked for one redraw and called [onAfterAnimation]
    once for each tick before the last, and called [onAnimationFinished]
    once, on the last tick, without a redraw.  With the automatic start
    switched off the call does nothing, and without the fixed animation
    it returns right after the start, the animation running. *)
Theorem HandleClick_runs_to_end
  (SetProj : Graphic3d_Camera -> V3d_TypeOfOrientation -> bool
             -> Graphic3d_Camera)
  (FitAllBox : Graphic3d_Camera -> Bnd_Box -> R -> Graphic3d_Camera)
  (FitAll : Graphic3d_Camera -> R -> Graphic3d_Camera)
  (theContext : AIS_InteractiveContext) (anOwner : AIS_ViewCubeOwner)
  (aView : V3d_View) (self : AIS_ViewCube)
  (below : list R) (aPts : R) (rest : list R) :
  LastActiveView theContext = Some aView ->
  Forall (fun p => p < myDuration self) below ->
  aPts >= myDuration self ->
  let aStarted :=
    StartAnimation SetProj FitAllBox FitAll theContext (Some anOwner) self in
  (myToAutoStartAnim self = false ->
   HandleClick SetProj FitAllBox FitAll theContext (Some anOwner)
     (below ++ aPts :: rest) self = Some self)
  /\ (myToAutoStartAnim self = true -> myIsFixedAnimation self = false ->
      HandleClick SetProj FitAllBox FitAll theContext (Some anOwner)
        (below ++ aPts :: rest) self = Some aStarted
      /\ HasAnimation aStarted = true)
  /\ (myToAutoStartAnim self = true -> myIsFixedAnimation self = true ->
      exists self',
        HandleClick SetProj FitAllBox FitAll theContext (Some anOwner)
          (below ++ aPts :: rest) self = Some self'
        /\ HasAnimation self' = false
        /\ View (myViewAnimation self') = None
        /\ myEndState self' = myEndState aStarted
        /\ myEvents self'
           = myEvents self
             ++ flat_map (fun _ => [redrawOf aView; onAfterAnimation]) below
             ++ [onAnimationFinished]).
Proof.
  intros HV HF Hge aStarted.
  destruct (StartAnimation_starts SetProj FitAllBox FitAll theContext anOwner
              aView self HV) as (S1 & S2 & _ & _ & S5 & S6).
  fold aStarted in S1, S2, S5, S6.
  assert (SF : myIsFixedAnimation aStarted = myIsFixedAnimation self).
  { unfold aStarted, StartAnimation. rewrite HV. reflexivity. }
  split; [| split].
  - intros Hauto. unfold HandleClick. rewrite Hauto. reflexivity.
  - intros Hauto Hfix. unfold HandleClick. rewrite Hauto. cbn [negb].
    fold aStarted. rewrite SF, Hfix. cbn [negb].
    split; [reflexivity | exact S1].
  - intros Hauto Hfix. unfold HandleClick. rewrite Hauto. cbn [negb].
    fold aStarted. rewrite SF, Hfix. cbn [negb].
    rewrite <- S5 in HF, Hge.
    destruct (animationLoop_runs below aStarted aView aPts rest S1 S2 HF Hge)
      as (s' & E & H1 & H2 & H3 & H4).
    exists s'. rewrite <- S6. auto.
Qed.

Lemma HandleClick_runs_to_end_witness :
  exists self',
    HandleClick SetProj_spec FitAllBox_sample FitAll_sample sampleContext
      (Some (mkOwner V3d_Xpos)) ([0.125; 0.25] ++ 0.625 :: [0.75])
      sampleViewCube = Some self'
    /\ HasAnimation self' = false
    /\ View (myViewAnimation self') = None.
Proof.
  assert (HF : Forall (fun p => p < myDuration sampleViewCube) [0.125; 0.25]).
  { cbn [myDuration sampleViewCube newViewCube].
    repeat constructor; lra. }
  assert (Hge : 0.625 >= myDuration sampleViewCube)
    by (cbn [myDuration sampleViewCube newViewCube]; lra).
  destruct (HandleClick_runs_to_end SetProj_spec FitAllBox_sample
              FitAll_sample sampleContext (mkOwner V3d_Xpos)
              (mkView sampleCamera true false) sampleViewCube
              [0.125; 0.25] 0.625 [0.75] eq_refl HF Hge)
    as (_ & _ & H3).
  destruct (H3 eq_refl eq_refl) as (s' & E & H1 & H2 & _).
  exists s'. auto.
Defined.

(** *** The chosen up vector is within a right angle of the old one *)

Lemma Dir_Rotated_half_turn (u k : gp_Dir) :
  Dot k u = 0 -> Dir_Rotated u k PI = Reversed u.
Proof.
  intros H. unfold Dir_Rotated. rewrite cos_PI, sin_PI, H.
  unfold Added, Multiplied, Reversed; cbn [cX cY cZ].
  apply xyz_eq; ring.
Qed.

Lemma Dir_Angle_Reversed (u v : gp_Dir) :
  Dir_Angle (Reversed u) v = PI - Dir_Angle u v.
Proof.
  unfold Dir_Angle.
  replace (Dot (Reversed u) v) with (- Dot u v)
    by (unfold Dot, Reversed; cbn [cX cY cZ]; ring).
  apply acos_opp.
Qed.

Lemma endPose_up SetProj FitAllBox FitAll self theContext aView anOwner :
  (forall c b m, Up (FitAllBox c b m) = Up c) ->
  (forall c m, Up (FitAll c m) = Up c) ->
  myToResetCameraUp self = false ->
  let aCamera :=
    SetProj (Camera aView) (MainOrientation anOwner) (myIsYup self) in
  Dir_IsEqual (Direction aCamera) (Direction (Camera aView)) Angular = false ->
  Up (endPose SetProj FitAllBox FitAll self theContext aView anOwner)
  = snd (closestUpLoop (upCandidates (Up aCamera) (Direction aCamera))
           (Up (Camera aView))).
Proof.
  intros HFB HF Hreset aCamera HE. unfold endPose.
  fold aCamera. rewrite Hreset, HE. cbn [negb andb].
  destruct (negb (IsVoid _)); [rewrite HFB | rewrite HF]; reflexivity.
Qed.

(** X14: Whenever the search for the closest up vector runs, on a camera
    whose up vector after [SetProj] is perpendicular to its direction,
    the up vector of the end pose is at most a right angle away from the
    up vector of the previous camera: the candidate turned by 180
    degrees is the reverse of the first, so one of the two is within a
    right angle, and the loop keeps nothing farther than either. *)
Theorem StartAnimation_up_within_right_angle
  (SetProj : Graphic3d_Camera -> V3d_TypeOfOrientation -> bool
             -> Graphic3d_Camera)
  (FitAllBox : Graphic3d_Camera -> Bnd_Box -> R -> Graphic3d_Camera)
  (FitAll : Graphic3d_Camera -> R -> Graphic3d_Camera)
  (theContext : AIS_InteractiveContext) (anOwner : AIS_ViewCubeOwner)
  (aView : V3d_View) (self : AIS_ViewCube) :
  (forall c b m, Up (FitAllBox c b m) = Up c) ->
  (forall c m, Up (FitAll c m) = Up c) ->
  LastActiveView theContext = Some aView ->
  myToResetCameraUp self = false ->
  let aCamera :=
    SetProj (Camera aView) (MainOrientation anOwner) (myIsYup self) in
  Dot (Direction aCamera) (Up aCamera) = 0 ->
  Dir_IsEqual (Direction aCamera) (Direction (Camera aView)) Angular = false ->
  Dir_Angle
    (Up (myEndState (StartAnimation SetProj FitAllBox FitAll theContext
                       (Some anOwner) self)))
    (Up (Camera aView)) <= PI / 2.
Proof.
  intros HFB HF HV Hreset aCamera Hperp HE.
  destruct (StartAnimation_starts SetProj FitAllBox FitAll theContext
              anOwner aView self HV) as (_ & _ & _ & -> & _).
  rewrite (endPose_up SetProj FitAllBox FitAll self theContext aView anOwner
             HFB HF Hreset HE).
  fold aCamera.
  destruct (closestUpLoop_first_least
              (upCandidates (Up aCamera) (Direction aCamera))
              (Up (Camera aView)) ltac:(discriminate))
    as (i & _ & Hleast & _).
  pose proof (Hleast 0%nat (Up aCamera) eq_refl) as L0.
  pose proof (Hleast 2%nat _ eq_refl) as L2.
  rewrite (Dir_Rotated_half_turn _ _ Hperp), Dir_Angle_Reversed in L2.
  lra.
Qed.

Lemma StartAnimation_up_within_right_angle_witness :
  Dir_Angle (Up (myEndState startedViewCube)) (Up sampleCamera) <= PI / 2.
Proof.
  destruct (SetProj_spec_right sampleCamera) as [HD HU].
  refine (StartAnimation_up_within_right_angle SetProj_spec FitAllBox_sample
            FitAll_sample sampleContext (mkOwner V3d_Xpos)
            (mkView sampleCamera true false) sampleViewCube
            _ _ _ _ _ _).
  - reflexivity.
  - reflexivity.
  - reflexivity.
  - reflexivity.
  - cbn [Camera MainOrientation myIsYup sampleViewCube newViewCube].
    rewrite HD, HU. unfold Dot, DZ; cbn [cX cY cZ]. lra.
  - cbn [Camera MainOrientation myIsYup sampleViewCube newViewCube].
    rewrite HD. unfold Dir_IsEqual. apply Rleb_false.
    unfold Dir_Angle, Dot, sampleCamera, DY, Angular;
      cbn [Direction cX cY cZ].
    replace (-1 * 0 + 0 * 1 + 0 * 0) with 0 by lra. rewrite acos_0.
    pose proof PI2_1. lra.
Defined.

(** *** SetYup and the labels *)

Section YupProofs.

Variable keys : nat -> V3d_TypeOfOrientation.
Variable aLabels : list string.

Let bindOver (l : list nat) (m : LabelMap) : LabelMap :=
  fold_left
    (fun m aLabelIter =>
       Bind m (keys aLabelIter) (nth aLabelIter aLabels EmptyString))
    l m.

Lemma bindOver_other (l : list nat) :
  forall (m : LabelMap) (k : V3d_TypeOfOrientation),
    (forall i, In i l -> keys i <> k) -> bindOver l m k = m k.
Proof.
  induction l as [| j l IH]; intros m k Hk; [reflexivity |].
  cbn [bindOver fold_left]. fold (bindOver l).
  rewrite IH by (intros i Hi; apply Hk; now right).
  unfold Bind. destruct (orientation_eq_dec k (keys j)) as [E | _];
    [| reflexivity].
  exfalso. apply (Hk j); [now left | now symmetry].
Qed.

Lemma bindOver_key (l : list nat) :
  forall (m : LabelMap) (i : nat),
    In i l ->
    (forall j, In j l -> keys j = keys i -> j = i) ->
    bindOver l m (keys i) = Some (nth i aLabels EmptyString).
Proof.
  induction l as [| j l IH]; intros m i Hi Hinj; [contradiction |].
  cbn [bindOver fold_left]. fold (bindOver l).
  destruct (in_dec Nat.eq_dec i l) as [Hin | Hnin].
  - apply IH; [exact Hin |]. intros j' Hj'. apply Hinj. now right.
  - destruct Hi as [-> | Hi]; [| contradiction].
    rewrite bindOver_other.
    + unfold Bind. destruct (orientation_eq_dec (keys i) (keys i));
        [reflexivity | contradiction].
    + intros j' Hj' E. apply Hnin.
      rewrite <- (Hinj j' (or_intror Hj') E). exact Hj'.
Qed.

End YupProofs.

Lemma readLabels_nth (keys : nat -> V3d_TypeOfOrientation) (m : LabelMap)
  (i : nat) :
  (i < 6)%nat ->
  nth i (readLabels keys m) EmptyString
  = match m (keys i) with Some s => s | None => EmptyString end.
Proof.
  intros Hi. unfold readLabels, Find.
  do 6 (destruct i as [| i]; [reflexivity |]). lia.
Qed.

Lemma bindLabels_key (keys : nat -> V3d_TypeOfOrientation)
  (aLabels : list string) (m : LabelMap) (i : nat) :
  (i < 6)%nat ->
  (forall j, (j < 6)%nat -> keys j = keys i -> j = i) ->
  bindLabels keys aLabels m (keys i) = Some (nth i aLabels EmptyString).
Proof.
  intros Hi Hinj. unfold bindLabels.
  apply (bindOver_key keys aLabels (seq 0 6) m i).
  - apply in_seq. lia.
  - intros j Hj. apply Hinj. apply in_seq in Hj. lia.
Qed.

Lemma bindLabels_other (keys : nat -> V3d_TypeOfOrientation)
  (aLabels : list string) (m : LabelMap) (k : V3d_TypeOfOrientation) :
  (forall i, (i < 6)%nat -> keys i <> k) ->
  bindLabels keys aLabels m k = m k.
Proof.
  intros Hk. unfold bindLabels.
  apply (bindOver_other keys aLabels (seq 0 6) m k).
  intros i Hi. apply Hk. apply in_seq in Hi. lia.
Qed.

(** X15: [SetYup] to the other convention, with the labels updated: the label
    of each of the six sides is read under the keys of the convention
    left (an unbound key giving the empty label) before any is written,
    and bound under the key of the same rank in the new convention; no
    other key changes, although the two lists share their keys.  Without
    the update of the labels the map is left alone, and a call with the
    convention already in force changes nothing at all. *)
Theorem SetYup_moves_labels
  (THE_ZUP_ORI_LIST THE_YUP_ORI_LIST : nat -> V3d_TypeOfOrientation)
  (theIsYup : bool) (self : AIS_ViewCube) (myBoxSideLabels : LabelMap) :
  myIsYup self = negb theIsYup ->
  let oldKeys := if theIsYup then THE_ZUP_ORI_LIST else THE_YUP_ORI_LIST in
  let newKeys := if theIsYup then THE_YUP_ORI_LIST else THE_ZUP_ORI_LIST in
  (forall i j, (i < 6)%nat -> (j < 6)%nat -> newKeys i = newKeys j -> i = j) ->
  let st' :=
    SetYup THE_ZUP_ORI_LIST THE_YUP_ORI_LIST theIsYup true
      (self, myBoxSideLabels) in
  fst st' = SetToUpdate (set_myIsYup theIsYup self)
  /\ (forall i, (i < 6)%nat ->
        snd st' (newKeys i)
        = Some (match myBoxSideLabels (oldKeys i) with
                | Some s => s
                | None => EmptyString
                end))
  /\ (forall k, (forall i, (i < 6)%nat -> newKeys i <> k) ->
        snd st' k = myBoxSideLabels k)
  /\ SetYup THE_ZUP_ORI_LIST THE_YUP_ORI_LIST theIsYup false
       (self, myBoxSideLabels)
     = (SetToUpdate (set_myIsYup theIsYup self), myBoxSideLabels)
  /\ (forall theToUpdateLabels,
        SetYup THE_ZUP_ORI_LIST THE_YUP_ORI_LIST (myIsYup self)
          theToUpdateLabels (self, myBoxSideLabels)
        = (self, myBoxSideLabels)).
Proof.
  intros Hold oldKeys newKeys Hinj st'.
  assert (Hneq : Bool.eqb (myIsYup self) theIsYup = false)
    by (rewrite Hold; destruct theIsYup; reflexivity).
  assert (E : st'
              = (SetToUpdate (set_myIsYup theIsYup self),
                 bindLabels newKeys (readLabels oldKeys myBoxSideLabels)
                   myBoxSideLabels)).
  { unfold st', SetYup. rewrite Hneq. cbn [myIsYup set_myIsYup].
    unfold oldKeys, newKeys. destruct theIsYup; reflexivity. }
  rewrite E. cbn [fst snd].
  split; [reflexivity |]. split; [| split; [| split]].
  - intros i Hi. rewrite bindLabels_key.
    + now rewrite readLabels_nth.
    + exact Hi.
    + intros j Hj Ej. now apply Hinj.
  - intros k Hk. now apply bindLabels_other.
  - unfold SetYup. rewrite Hneq. reflexivity.
  - intros b. unfold SetYup. now rewrite Bool.eqb_reflx.
Qed.

(** X16: [SetYup] there and back with the labels updated: when each list
    names six different sides, the sides of the other convention are
    among those of the convention in force, and all of these have a
    label, the second call puts every label back under the key it had,
    so the map of labels is the one before the two calls. *)
Theorem SetYup_round_trip
  (THE_ZUP_ORI_LIST THE_YUP_ORI_LIST : nat -> V3d_TypeOfOrientation)
  (self : AIS_ViewCube) (myBoxSideLabels : LabelMap) :
  let aKeys :=
    if myIsYup self then THE_YUP_ORI_LIST else THE_ZUP_ORI_LIST in
  let otherKeys :=
    if myIsYup self then THE_ZUP_ORI_LIST else THE_YUP_ORI_LIST in
  (forall i j, (i < 6)%nat -> (j < 6)%nat -> aKeys i = aKeys j -> i = j) ->
  (forall i j, (i < 6)%nat -> (j < 6)%nat ->
               otherKeys i = otherKeys j -> i = j) ->
  (forall i, (i < 6)%nat -> exists j, (j < 6)%nat /\ otherKeys i = aKeys j) ->
  (forall i, (i < 6)%nat -> myBoxSideLabels (aKeys i) <> None) ->
  let st2 :=
    SetYup THE_ZUP_ORI_LIST THE_YUP_ORI_LIST (myIsYup self) true
      (SetYup THE_ZUP_ORI_LIST THE_YUP_ORI_LIST (negb (myIsYup self)) true
         (self, myBoxSideLabels)) in
  myIsYup (fst st2) = myIsYup self
  /\ forall k, snd st2 k = myBoxSideLabels k.
Proof.
  intros aKeys otherKeys HinjA HinjO Hsub Hbound st2.
  assert (Hkeys1 : (if negb (myIsYup self) then THE_YUP_ORI_LIST
                    else THE_ZUP_ORI_LIST) = otherKeys)
    by (unfold otherKeys; destruct (myIsYup self); reflexivity).
  assert (Hkeys2 : (if negb (myIsYup self) then THE_ZUP_ORI_LIST
                    else THE_YUP_ORI_LIST) = aKeys)
    by (unfold aKeys; destruct (myIsYup self); reflexivity).
  (* the first call *)
  assert (E1 : SetYup THE_ZUP_ORI_LIST THE_YUP_ORI_LIST (negb (myIsYup self))
                 true (self, myBoxSideLabels)
               = (SetToUpdate (set_myIsYup (negb (myIsYup self)) self),
                  bindLabels otherKeys (readLabels aKeys myBoxSideLabels)
                    myBoxSideLabels)).
  { unfold SetYup.
    assert (Hn : Bool.eqb (myIsYup self) (negb (myIsYup self)) = false)
      by (destruct (myIsYup self); reflexivity).
    rewrite Hn. cbn [myIsYup set_myIsYup].
    rewrite Bool.negb_involutive.
    unfold aKeys, otherKeys. destruct (myIsYup self); reflexivity. }
  set (m1 := bindLabels otherKeys (readLabels aKeys myBoxSideLabels)
               myBoxSideLabels) in *.
  set (s1 := SetToUpdate (set_myIsYup (negb (myIsYup self)) self)) in *.
  assert (E2 : st2
               = (SetToUpdate (set_myIsYup (myIsYup self) s1),
                  bindLabels aKeys (readLabels otherKeys m1) m1)).
  { unfold st2. rewrite E1. unfold SetYup.
    assert (Hn : Bool.eqb (myIsYup s1) (myIsYup self) = false)
      by (unfold s1; cbn [myIsYup SetToUpdate set_myToUpdate set_myIsYup];
          destruct (myIsYup self); reflexivity).
    rewrite Hn. cbn [myIsYup set_myIsYup].
    unfold aKeys, otherKeys. destruct (myIsYup self); reflexivity. }
  rewrite E2. cbn [fst snd]. split; [reflexivity |].
  intros k.
  assert (Dec : forall keys : nat -> V3d_TypeOfOrientation,
             (exists i, (i < 6)%nat /\ keys i = k)
             \/ (forall i, (i < 6)%nat -> keys i <> k)).
  { intros keys.
    destruct (orientation_eq_dec (keys 0%nat) k);
      [left; exists 0%nat; split; [lia | assumption] |].
    destruct (orientation_eq_dec (keys 1%nat) k);
      [left; exists 1%nat; split; [lia | assumption] |].
    destruct (orientation_eq_dec (keys 2%nat) k);
      [left; exists 2%nat; split; [lia | assumption] |].
    destruct (orientation_eq_dec (keys 3%nat) k);
      [left; exists 3%nat; split; [lia | assumption] |].
    destruct (orientation_eq_dec (keys 4%nat) k);
      [left; exists 4%nat; split; [lia | assumption] |].
    destruct (orientation_eq_dec (keys 5%nat) k);
      [left; exists 5%nat; split; [lia | assumption] |].
    right. intros i Hi.
    do 6 (destruct i as [| i]; [assumption |]). lia. }
  destruct (Dec aKeys) as [(i & Hi & <-) | Hout].
  - rewrite bindLabels_key
      by (try exact Hi; intros j Hj Ej; now apply HinjA).
    rewrite readLabels_nth by exact Hi.
    unfold m1. rewrite bindLabels_key
      by (try exact Hi; intros j Hj Ej; now apply HinjO).
    rewrite readLabels_nth by exact Hi.
    specialize (Hbound i Hi).
    destruct (myBoxSideLabels (aKeys i)); [reflexivity | contradiction].
  - rewrite bindLabels_other by exact Hout.
    unfold m1. apply bindLabels_other.
    intros i Hi E. destruct (Hsub i Hi) as (j & Hj & Ej).
    apply (Hout j Hj). congruence.
Qed.

Lemma sideLists_distinct :
  (forall i j, (i < 6)%nat -> (j < 6)%nat -> zupSides i = zupSides j -> i = j)
  /\ (forall i j, (i < 6)%nat -> (j < 6)%nat ->
                  yupSides i = yupSides j -> i = j)
  /\ (forall i, (i < 6)%nat ->
                exists j, (j < 6)%nat /\ yupSides i = zupSides j)
  /\ (forall i, (i < 6)%nat -> defaultLabels (zupSides i) <> None).
Proof.
  split; [| split; [| split]].
  - intros i j Hi Hj.
    do 6 (destruct i as [| i]; [do 6 (destruct j as [| j];
            [cbn; intros E; first [reflexivity | discriminate E] |]); lia |]).
    lia.
  - intros i j Hi Hj.
    do 6 (destruct i as [| i]; [do 6 (destruct j as [| j];
            [cbn; intros E; first [reflexivity | discriminate E] |]); lia |]).
    lia.
  - intros i Hi.
    destruct i as [| [| [| [| [| [| i]]]]]]; [| | | | | | lia].
    + exists 2%nat. split; [lia | reflexivity].
    + exists 3%nat. split; [lia | reflexivity].
    + exists 1%nat. split; [lia | reflexivity].
    + exists 0%nat. split; [lia | reflexivity].
    + exists 4%nat. split; [lia | reflexivity].
    + exists 5%nat. split; [lia | reflexivity].
  - intros i Hi.
    do 6 (destruct i as [| i]; [cbn; discriminate |]). lia.
Qed.

Lemma SetYup_moves_labels_witness :
  snd (SetYup zupSides yupSides true true (sampleViewCube, defaultLabels))
    (yupSides 2)
  = Some (match defaultLabels (zupSides 2) with
          | Some s => s
          | None => EmptyString
          end).
Proof.
  destruct sideLists_distinct as (_ & HY & _ & _).
  destruct (SetYup_moves_labels zupSides yupSides true sampleViewCube
              defaultLabels eq_refl HY) as (_ & H & _).
  apply (H 2%nat). lia.
Defined.

Lemma SetYup_round_trip_witness :
  snd (SetYup zupSides yupSides (myIsYup sampleViewCube) true
         (SetYup zupSides yupSides (negb (myIsYup sampleViewCube)) true
            (sampleViewCube, defaultLabels))) V3d_Ypos
  = defaultLabels V3d_Ypos.
Proof.
  destruct sideLists_distinct as (HZ & HY & HS & HB).
  exact (proj2 (SetYup_round_trip zupSides yupSides sampleViewCube
                  defaultLabels HZ HY HS HB) V3d_Ypos).
Defined.
